(** * PolicyVectorStore: the embedding index of [vector_store.py]

    A shallow embedding of [vector_store.py] (the retrieval store built on
    sentence-transformers and FAISS) and the properties of its build / load /
    retrieve life cycle.

    Modelling decisions, in one place:
    - a method of [PolicyVectorStore] is a computation in the monad [M]: it
      receives the object ([self]) and the world (file system and a log of
      the external calls made), and returns a value or a raised exception
      together with the new object and world.  A raised exception does not
      roll back the assignments made before it, as in Python;
    - numbers of numpy arrays are elements of a carrier [F] with the
      operations of the class [Arith]: the instance [float_arith] (binary64
      primitive floats, standing in for numpy's float32) runs the code, the
      instance [real_arith] is the exact arithmetic in which the numerical
      facts are stated;
    - a [str] is a [string] and [len] is [String.length]: characters and
      bytes coincide on ASCII text;
    - the libraries the module calls (json, the sentence-transformers model,
      Python's [str]) are fields of a [Runtime] record; numpy's [norm] and
      FAISS's flat L2 index are written out from their documentation;
    - files are typed by what they hold ([file]); a reader applied to a file
      of another kind raises its decoding error.  Paths are plain strings
      in a flat name space;
    - console output is one [EvPrint] event per [print] call, without its
      text; elapsed wall-clock time is not modelled. *)

From Stdlib Require Import Floats Reals ZArith List String Ascii Lia Lra.
From stdpp Require Import gmap strings list pretty.
Import ListNotations.

Set Warnings "-register-all".

Local Open Scope string_scope.
Local Open Scope list_scope.
Local Open Scope Z_scope.

(** ** Python values decoded from JSON *)

(** A value as [json.loads] returns it: [None], [bool], [int], [str],
    [list], [dict] (string keys).  Non-integer JSON numbers are left out. *)
Inductive json : Type :=
| JNull
| JBool (b : bool)
| JNum (n : Z)
| JStr (s : string)
| JArr (items : list json)
| JObj (fields : gmap string json).

(** ** Exceptions and outcomes *)

Inductive exn : Type :=
| ImportError
| FileNotFoundError
| FileExistsError
| IsADirectoryError
| UnicodeDecodeError
| JSONDecodeError
| NpzError            (* np.load on a file that is no npz archive *)
| FaissError          (* faiss: read_index on another file, failed assertion *)
| ValueError (msg : string)
| TypeError
| KeyError
| IndexError
| AttributeError
| ModelLoadError      (* SentenceTransformer(name) failed *)
| EncodeError.        (* model.encode failed *)

Inductive outcome (A : Type) : Type :=
| Ok (a : A)
| Raise (e : exn).
Arguments Ok {A} a.
Arguments Raise {A} e.

Definition obind {A B} (o : outcome A) (k : A -> outcome B) : outcome B :=
  match o with
  | Ok a => k a
  | Raise e => Raise e
  end.

(** The two messages [vector_store.py] raises [ValueError] with. *)
Definition msg_no_pairs : string := "No Q&A pairs found in policies file".
Definition msg_not_loaded : string :=
  "Index not loaded. Call build_index() or load_index() first.".

(** ** Python's operations on decoded values *)

Definition nl : string := String (ascii_of_nat 10) EmptyString.

Fixpoint is_prefix (p s : string) : bool :=
  match p, s with
  | EmptyString, _ => true
  | String a p', String b s' => if Ascii.eqb a b then is_prefix p' s' else false
  | String _ _, EmptyString => false
  end.

(** [sub in s] on two [str]. *)
Fixpoint str_contains (sub s : string) : bool :=
  if is_prefix sub s then true
  else match s with
       | EmptyString => false
       | String _ s' => str_contains sub s'
       end.

Definition is_json_str (key : string) (j : json) : bool :=
  match j with
  | JStr s => String.eqb s key
  | _ => false
  end.

(** [key in item] for a string [key]. *)
Definition py_contains (key : string) (item : json) : outcome bool :=
  match item with
  | JObj kv => Ok (bool_decide (is_Some (kv !! key)))
  | JStr s => Ok (str_contains key s)
  | JArr l => Ok (existsb (is_json_str key) l)
  | JNull | JBool _ | JNum _ => Raise TypeError
  end.

(** [item[key]] for a string [key]. *)
Definition py_getitem (item : json) (key : string) : outcome json :=
  match item with
  | JObj kv => match kv !! key with
               | Some v => Ok v
               | None => Raise KeyError
               end
  | _ => Raise TypeError
  end.

(** [item.get(key, default)]: only a [dict] has the method. *)
Definition py_get (item : json) (key : string) (default : json) : outcome json :=
  match item with
  | JObj kv => Ok (match kv !! key with Some v => v | None => default end)
  | _ => Raise AttributeError
  end.

(** [len(x)]. *)
Definition py_len (x : json) : outcome Z :=
  match x with
  | JArr l => Ok (Z.of_nat (length l))
  | JStr s => Ok (Z.of_nat (String.length s))
  | JObj kv => Ok (Z.of_nat (size kv))
  | JNull | JBool _ | JNum _ => Raise TypeError
  end.

(** [l[i]] on a Python list: a negative index counts from the end. *)
Definition list_index {A} (l : list A) (i : Z) : outcome A :=
  let n := Z.of_nat (length l) in
  let j := if i <? 0 then i + n else i in
  if (0 <=? j) && (j <? n)
  then match nth_error l (Z.to_nat j) with
       | Some a => Ok a
       | None => Raise IndexError
       end
  else Raise IndexError.

Definition str_index (s : string) (i : Z) : outcome string :=
  let n := Z.of_nat (String.length s) in
  let j := if i <? 0 then i + n else i in
  if (0 <=? j) && (j <? n)
  then match String.get (Z.to_nat j) s with
       | Some c => Ok (String c EmptyString)
       | None => Raise IndexError
       end
  else Raise IndexError.

(** [x[i]] for an integer [i]: a [dict] with string keys has no integer
    key. *)
Definition py_index (x : json) (i : Z) : outcome json :=
  match x with
  | JArr l => list_index l i
  | JStr s => obind (str_index s i) (fun c => Ok (JStr c))
  | JObj _ => Raise KeyError
  | JNull | JBool _ | JNum _ => Raise TypeError
  end.

(** [x.append(v)]. *)
Definition py_append (x : json) (v : json) : outcome json :=
  match x with
  | JArr l => Ok (JArr (l ++ [v]))
  | _ => Raise AttributeError
  end.

(** Truth value of [x] ([if not x]). *)
Definition py_truthy (x : json) : bool :=
  match x with
  | JNull => false
  | JBool b => b
  | JNum n => negb (n =? 0)
  | JStr s => negb (String.eqb s "")
  | JArr l => match l with [] => false | _ => true end
  | JObj kv => negb (bool_decide (kv = ∅))
  end.

(** Iteration [for q in x] (a [dict] is iterated by keys). *)
Definition py_iter (x : json) : outcome (list json) :=
  match x with
  | JArr l => Ok l
  | JStr s => Ok (map (fun c => JStr (String c EmptyString)) (list_ascii_of_string s))
  | JObj kv => Ok (map (fun p => JStr (fst p)) (map_to_list kv))
  | JNull | JBool _ | JNum _ => Raise TypeError
  end.

(** [str.strip()]: the ASCII characters for which [str.isspace] holds. *)
Definition is_space (c : ascii) : bool :=
  let n := nat_of_ascii c in
  ((9 <=? n) && (n <=? 13) || (28 <=? n) && (n <=? 32))%nat.

Fixpoint lstrip (s : string) : string :=
  match s with
  | String c s' => if is_space c then lstrip s' else s
  | EmptyString => EmptyString
  end.

Fixpoint rstrip (s : string) : string :=
  match s with
  | EmptyString => EmptyString
  | String c s' =>
      match rstrip s' with
      | EmptyString => if is_space c then EmptyString else String c EmptyString
      | r => String c r
      end
  end.

Definition strip (s : string) : string := rstrip (lstrip s).

(** [sep.join(parts)]. *)
Fixpoint str_join (sep : string) (parts : list string) : string :=
  match parts with
  | [] => ""
  | [p] => p
  | p :: rest => p +:+ sep +:+ str_join sep rest
  end.

(** [os.path.join(a, p)] (posixpath, two arguments). *)
Definition ends_with_slash (s : string) : bool :=
  match rev (list_ascii_of_string s) with
  | c :: _ => Ascii.eqb c "/"%char
  | [] => false
  end.

Definition path_join (a p : string) : string :=
  if is_prefix "/" p then p
  else if String.eqb a "" || ends_with_slash a then a +:+ p
  else a +:+ "/" +:+ p.

(** ** Numbers, arrays and the flat L2 index *)

(** The arithmetic of array elements.  [feps] is the literal [1e-12] of the
    two normalisation lines, [fhuge] is FLT_MAX, the distance FAISS reports
    for a missing neighbour. *)
Class Arith (F : Type) : Type := {
  fzero : F;
  fadd : F -> F -> F;
  fsub : F -> F -> F;
  fmul : F -> F -> F;
  fdiv : F -> F -> F;
  fsqrt : F -> F;
  fleb : F -> F -> bool;
  feps : F;
  fhuge : F
}.

(** A two-dimensional numpy array: [shape = (length rows, ncols)]. *)
Record ndarray (F : Type) : Type := mk_ndarray {
  ncols : nat;
  rows : list (list F)
}.
Arguments mk_ndarray {F} ncols rows.
Arguments ncols {F} _.
Arguments rows {F} _.

(** [faiss.IndexFlatL2]: the dimension and the vectors added so far. *)
Record IndexFlatL2 (F : Type) : Type := mk_index {
  ix_d : nat;
  ix_xb : list (list F)
}.
Arguments mk_index {F} ix_d ix_xb.
Arguments ix_d {F} _.
Arguments ix_xb {F} _.

Definition ntotal {F} (ix : IndexFlatL2 F) : Z := Z.of_nat (length (ix_xb ix)).

Section Numeric.
Context {F : Type} `{Arith F}.

Definition sum_squares (v : list F) : F :=
  fold_right (fun x acc => fadd (fmul x x) acc) fzero v.

(** [np.linalg.norm(v)] of one row. *)
Definition l2_norm (v : list F) : F := fsqrt (sum_squares v).

(** One row of [x / (np.linalg.norm(x, axis=1, keepdims=True) + 1e-12)]. *)
Definition normalize_row (v : list F) : list F :=
  let n := fadd (l2_norm v) feps in
  map (fun x => fdiv x n) v.

(** [x / (np.linalg.norm(x, axis=1, keepdims=True) + 1e-12)]. *)
Definition normalize (x : ndarray F) : ndarray F :=
  mk_ndarray (ncols x) (map normalize_row (rows x)).

(** Squared Euclidean distance, the metric of [IndexFlatL2]. *)
Fixpoint l2_sqr (a b : list F) : F :=
  match a, b with
  | x :: a', y :: b' => fadd (fmul (fsub x y) (fsub x y)) (l2_sqr a' b')
  | _, _ => fzero
  end.

(** [index.add(x)]: the rows of [x] are appended; faiss checks the
    dimension. *)
Definition faiss_add (ix : IndexFlatL2 F) (x : ndarray F) : outcome (IndexFlatL2 F) :=
  if Nat.eqb (ncols x) (ix_d ix)
  then Ok (mk_index (ix_d ix) (ix_xb ix ++ rows x))
  else Raise FaissError.

(** Insertion of a candidate in a list sorted by distance; on a tie the
    candidate added earlier stays in front. *)
Fixpoint insert_by_distance (c : Z * F) (l : list (Z * F)) : list (Z * F) :=
  match l with
  | [] => [c]
  | b :: l' => if fleb (snd b) (snd c) then b :: insert_by_distance c l'
               else c :: l
  end.

Definition sort_by_distance (l : list (Z * F)) : list (Z * F) :=
  fold_left (fun acc c => insert_by_distance c acc) l [].

Fixpoint enumerate_from {A} (i : Z) (l : list A) : list (Z * A) :=
  match l with
  | [] => []
  | a :: l' => (i, a) :: enumerate_from (i + 1) l'
  end.

(** The [k] results of one query: the nearest stored vectors in ascending
    distance, then label [-1] with distance FLT_MAX for each result that is
    missing when fewer than [k] vectors are stored. *)
Definition search_one (ix : IndexFlatL2 F) (q : list F) (k : nat) : list (Z * F) :=
  let scored := map (fun p => (fst p, l2_sqr q (snd p))) (enumerate_from 0 (ix_xb ix)) in
  let best := firstn k (sort_by_distance scored) in
  best ++ repeat (-1, fhuge) (k - length best)%nat.

(** [index.search(x, k)]: one row of distances and one row of labels per
    query row; faiss asserts [k > 0] and the dimension. *)
Definition faiss_search (ix : IndexFlatL2 F) (x : ndarray F) (k : Z)
  : outcome (list (list F) * list (list Z)) :=
  if negb (0 <? k) then Raise FaissError
  else if negb (Nat.eqb (ncols x) (ix_d ix)) then Raise FaissError
  else
    let res := map (fun q => search_one ix q (Z.to_nat k)) (rows x) in
    Ok (map (map snd) res, map (map fst) res).

End Numeric.

(** ** Files, the world and the object *)

(** What a file holds.  [TextFile] is a UTF-8 text file as the lines that
    iterating over it yields; [NpzFile] maps array names to arrays;
    [FaissFile] is an index written by [faiss.write_index]; [JsonFile] is a
    JSON document. *)
Inductive file (F : Type) : Type :=
| Dir
| TextFile (lines : list string)
| NpzFile (arrays : gmap string (ndarray F))
| FaissFile (ix : IndexFlatL2 F)
| JsonFile (doc : json).
Arguments Dir {F}.
Arguments TextFile {F} lines.
Arguments NpzFile {F} arrays.
Arguments FaissFile {F} ix.
Arguments JsonFile {F} doc.

(** The external calls a method makes, in order. *)
Inductive event : Type :=
| EvPrint
| EvMkdir (path : string)
| EvRead (path : string)
| EvWrite (path : string)
| EvModelLoad (name : string)
| EvEncode (texts : list string).

(** The fields of a [PolicyVectorStore].  [model] is the loaded model, named
    by the model name it was loaded from. *)
Record PolicyVectorStore (F : Type) : Type := mk_store {
  model_name : string;
  model : option string;
  index : option (IndexFlatL2 F);
  questions : json;
  answers : json;
  sections : json;
  embeddings : option (ndarray F)
}.
Arguments mk_store {F} _ _ _ _ _ _ _.
Arguments model_name {F} _.
Arguments model {F} _.
Arguments index {F} _.
Arguments questions {F} _.
Arguments answers {F} _.
Arguments sections {F} _.
Arguments embeddings {F} _.

Record state (F : Type) : Type := mk_state {
  self : PolicyVectorStore F;
  fs : gmap string (file F);
  log : list event
}.
Arguments mk_state {F} _ _ _.
Arguments self {F} _.
Arguments fs {F} _.
Arguments log {F} _.

(** What the module takes from its environment: the flag set by the guarded
    import, [json.loads] ([None]: JSONDecodeError), the [str] that an
    f-string applies to a value, whether [SentenceTransformer(name)]
    succeeds, and [model.encode] of the model of that name ([None]: the call
    fails). *)
Record Runtime (F : Type) : Type := mk_runtime {
  HAVE_RAG : bool;
  json_loads : string -> option json;
  py_str : json -> string;
  model_available : string -> bool;
  model_encode : string -> list string -> option (ndarray F)
}.
Arguments mk_runtime {F} _ _ _ _ _.
Arguments HAVE_RAG {F} _.
Arguments json_loads {F} _ _.
Arguments py_str {F} _ _.
Arguments model_available {F} _ _.
Arguments model_encode {F} _ _ _.

(** ** The monad of methods *)

Definition M (F A : Type) : Type := state F -> outcome A * state F.

Definition ret {F A} (a : A) : M F A := fun st => (Ok a, st).

Definition bind {F A B} (c : M F A) (k : A -> M F B) : M F B :=
  fun st => match c st with
            | (Ok a, st') => k a st'
            | (Raise e, st') => (Raise e, st')
            end.

Definition raise {F A} (e : exn) : M F A := fun st => (Raise e, st).

(** [lift o]: a pure operation that may raise. *)
Definition lift {F A} (o : outcome A) : M F A := fun st => (o, st).

(** [try: c except Exception: ...] hands the outcome to the handler code. *)
Definition try_ {F A} (c : M F A) : M F (outcome A) :=
  fun st => let (o, st') := c st in (Ok o, st').

Definition get_self {F} : M F (PolicyVectorStore F) := fun st => (Ok (self st), st).

Definition set_self {F} (f : PolicyVectorStore F -> PolicyVectorStore F) : M F unit :=
  fun st => (Ok tt, mk_state (f (self st)) (fs st) (log st)).

Definition emit {F} (e : event) : M F unit :=
  fun st => (Ok tt, mk_state (self st) (fs st) (log st ++ [e])).

Definition print {F} : M F unit := emit EvPrint.

Declare Scope method_scope.
Delimit Scope method_scope with method.
Notation "x <- c ;; k" := (bind c (fun x => k))
  (at level 100, c at next level, k at level 200, right associativity) : method_scope.
Notation "c ;; k" := (bind c (fun _ => k))
  (at level 100, k at level 200, right associativity) : method_scope.
Local Open Scope method_scope.

(** Field assignments [self.f = v]. *)
Definition set_model {F} (v : option string) : M F unit :=
  set_self (fun s => mk_store (model_name s) v (index s) (questions s) (answers s) (sections s) (embeddings s)).
Definition set_index {F} (v : option (IndexFlatL2 F)) : M F unit :=
  set_self (fun s => mk_store (model_name s) (model s) v (questions s) (answers s) (sections s) (embeddings s)).
Definition set_questions {F} (v : json) : M F unit :=
  set_self (fun s => mk_store (model_name s) (model s) (index s) v (answers s) (sections s) (embeddings s)).
Definition set_answers {F} (v : json) : M F unit :=
  set_self (fun s => mk_store (model_name s) (model s) (index s) (questions s) v (sections s) (embeddings s)).
Definition set_sections {F} (v : json) : M F unit :=
  set_self (fun s => mk_store (model_name s) (model s) (index s) (questions s) (answers s) v (embeddings s)).
Definition set_embeddings {F} (v : option (ndarray F)) : M F unit :=
  set_self (fun s => mk_store (model_name s) (model s) (index s) (questions s) (answers s) (sections s) v).

(** *** The file system *)

(** [os.path.exists(p)]. *)
Definition path_exists {F} (p : string) : M F bool :=
  fun st => (Ok (bool_decide (is_Some (fs st !! p))), st).

(** [os.makedirs(d, exist_ok=True)] (parents are not tracked). *)
Definition makedirs {F} (d : string) : M F unit :=
  fun st => match fs st !! d with
            | Some Dir => (Ok tt, st)
            | Some _ => (Raise FileExistsError, st)
            | None => if String.eqb d "" then (Raise FileNotFoundError, st)
                      else (Ok tt, mk_state (self st) (<[d := Dir]> (fs st)) (log st ++ [EvMkdir d]))
            end.

(** Opening [p] for reading. *)
Definition open_read {F} (p : string) : M F (file F) :=
  fun st => match fs st !! p with
            | None => (Raise FileNotFoundError, st)
            | Some Dir => (Raise IsADirectoryError, st)
            | Some f => (Ok f, mk_state (self st) (fs st) (log st ++ [EvRead p]))
            end.

(** Writing [f] at [p] (created or replaced). *)
Definition write_file {F} (p : string) (f : file F) : M F unit :=
  fun st => match fs st !! p with
            | Some Dir => (Raise IsADirectoryError, st)
            | _ => (Ok tt, mk_state (self st) (<[p := f]> (fs st)) (log st ++ [EvWrite p]))
            end.

(** [np.load(p)]. *)
Definition np_load {F} (p : string) : M F (gmap string (ndarray F)) :=
  f <- open_read p ;;
  match f with
  | NpzFile arrays => ret arrays
  | _ => raise NpzError
  end.

(** [faiss.read_index(p)]. *)
Definition faiss_read_index {F} (p : string) : M F (IndexFlatL2 F) :=
  f <- open_read p ;;
  match f with
  | FaissFile ix => ret ix
  | _ => raise FaissError
  end.

(** [with open(p, 'r', encoding='utf-8') as f: json.load(f)]. *)
Definition json_load {F} (p : string) : M F json :=
  f <- open_read p ;;
  match f with
  | JsonFile doc => ret doc
  | _ => raise JSONDecodeError
  end.

(** The lines of the text file at [p]. *)
Definition read_lines {F} (p : string) : M F (list string) :=
  f <- open_read p ;;
  match f with
  | TextFile lines => ret lines
  | _ => raise UnicodeDecodeError
  end.

(** ** The module [vector_store.py] *)

(** One entry of the list [retrieve] returns (a dict with these five
    keys). *)
Record result (F : Type) : Type := mk_result {
  question : json;
  answer : json;
  section : json;
  distance : F;
  rank : Z
}.
Arguments mk_result {F} _ _ _ _ _.
Arguments question {F} _.
Arguments answer {F} _.
Arguments section {F} _.
Arguments distance {F} _.
Arguments rank {F} _.

Section Methods.
Context {F : Type} `{Arith F}.
Variable rt : Runtime F.

Definition _ensure_rag_available : M F unit :=
  if HAVE_RAG rt then ret tt else raise ImportError.

(** The loop of [load_jsonl]; [rows] is the list built so far. *)
Fixpoint parse_lines (lines : list string) (rows : list json) : outcome (list json) :=
  match lines with
  | [] => Ok rows
  | line :: rest =>
      let line := strip line in
      if String.eqb line "" then parse_lines rest rows
      else match json_loads rt line with
           | Some v => parse_lines rest (rows ++ [v])
           | None => Raise JSONDecodeError
           end
  end.

Definition load_jsonl (path : string) : M F (list json) :=
  lines <- read_lines path ;;
  lift (parse_lines lines []).

(** [PolicyVectorStore.__init__]. *)
Definition __init__ (name : string) : outcome (PolicyVectorStore F) :=
  if HAVE_RAG rt
  then Ok (mk_store name None None (JArr []) (JArr []) (JArr []) None)
  else Raise ImportError.

Definition _load_model : M F unit :=
  s <- get_self ;;
  match model s with
  | Some _ => ret tt
  | None =>
      print ;;
      emit (EvModelLoad (model_name s)) ;;
      (if model_available rt (model_name s)
       then set_model (Some (model_name s))
       else raise ModelLoadError) ;;
      print
  end.

(** [self.model.encode(texts, convert_to_numpy=True, ...)]. *)
Definition encode (texts : list string) : M F (ndarray F) :=
  s <- get_self ;;
  match model s with
  | None => raise AttributeError
  | Some m =>
      emit (EvEncode texts) ;;
      match model_encode rt m texts with
      | Some x => ret x
      | None => raise EncodeError
      end
  end.

(** [print(f"... {len(x)} ...")]. *)
Definition print_len (x : json) : M F unit :=
  _ <- lift (py_len x) ;; print.

(** The statements shared by the cached branch of [build_index] (lines
    91-97) and by [load_index] (lines 170-176). *)
Definition read_cache (embeddings_path index_path metadata_path : string) : M F unit :=
  arrays <- np_load embeddings_path ;;
  x <- lift (match arrays !! "embeddings" with
             | Some x => Ok x
             | None => Raise KeyError
             end) ;;
  set_embeddings (Some x) ;;
  ix <- faiss_read_index index_path ;;
  set_index (Some ix) ;;
  metadata <- json_load metadata_path ;;
  q <- lift (py_getitem metadata "questions") ;;
  set_questions q ;;
  a <- lift (py_getitem metadata "answers") ;;
  set_answers a ;;
  s <- lift (py_getitem metadata "sections") ;;
  set_sections s.

(** The loop [for item in policy_data] of [build_index]. *)
Fixpoint collect_pairs (policy_data : list json) : M F unit :=
  match policy_data with
  | [] => ret tt
  | item :: rest =>
      has_q <- lift (py_contains "question" item) ;;
      has_a <- (if has_q then lift (py_contains "answer" item) else ret false) ;;
      (if has_q && has_a then
         q <- lift (py_getitem item "question") ;;
         s <- get_self ;;
         qs <- lift (py_append (questions s) q) ;;
         set_questions qs ;;
         a <- lift (py_getitem item "answer") ;;
         s <- get_self ;;
         ans <- lift (py_append (answers s) a) ;;
         set_answers ans ;;
         sec <- lift (py_get item "section" (JStr "Unknown")) ;;
         s <- get_self ;;
         secs <- lift (py_append (sections s) sec) ;;
         set_sections secs
       else ret tt) ;;
      collect_pairs rest
  end.

Definition self_embeddings : M F (ndarray F) :=
  s <- get_self ;;
  match embeddings s with
  | Some x => ret x
  | None => raise AttributeError
  end.

Definition self_index : M F (IndexFlatL2 F) :=
  s <- get_self ;;
  match index s with
  | Some ix => ret ix
  | None => raise AttributeError
  end.

Definition build_index (policies_file cache_dir : string) : M F unit :=
  _ensure_rag_available ;;
  found <- path_exists policies_file ;;
  if negb found then raise FileNotFoundError else
  makedirs cache_dir ;;
  let embeddings_path := path_join cache_dir "embeddings.npz" in
  let index_path := path_join cache_dir "policy_index.index" in
  let metadata_path := path_join cache_dir "metadata.json" in
  e1 <- path_exists embeddings_path ;;
  e2 <- path_exists index_path ;;
  e3 <- path_exists metadata_path ;;
  if e1 && e2 && e3 then
    print ;;
    read_cache embeddings_path index_path metadata_path ;;
    s <- get_self ;;
    print_len (questions s)
  else
    print ;;
    policy_data <- load_jsonl policies_file ;;
    set_questions (JArr []) ;;
    set_answers (JArr []) ;;
    set_sections (JArr []) ;;
    collect_pairs policy_data ;;
    s <- get_self ;;
    if negb (py_truthy (questions s)) then raise (ValueError msg_no_pairs) else
    print_len (questions s) ;;
    _load_model ;;
    print ;;
    qs <- lift (py_iter (questions s)) ;;
    let question_passages := map (fun q => "passage: " +:+ py_str rt q) qs in
    x <- encode question_passages ;;
    set_embeddings (Some x) ;;
    x <- self_embeddings ;;
    set_embeddings (Some (normalize x)) ;;
    print ;;
    print ;;
    x <- self_embeddings ;;
    let dimension := ncols x in
    set_index (Some (mk_index dimension [])) ;;
    ix <- self_index ;;
    ix <- lift (faiss_add ix x) ;;
    set_index (Some ix) ;;
    print ;;
    x <- self_embeddings ;;
    write_file embeddings_path (NpzFile {[ "embeddings" := x ]}) ;;
    ix <- self_index ;;
    write_file index_path (FaissFile ix) ;;
    s <- get_self ;;
    write_file metadata_path
      (JsonFile (JObj (<[ "questions" := questions s ]>
                      (<[ "answers" := answers s ]>
                      (<[ "sections" := sections s ]> ∅))))) ;;
    print.

Definition load_index (cache_dir : string) : M F unit :=
  _ensure_rag_available ;;
  let embeddings_path := path_join cache_dir "embeddings.npz" in
  let index_path := path_join cache_dir "policy_index.index" in
  let metadata_path := path_join cache_dir "metadata.json" in
  e1 <- path_exists embeddings_path ;;
  e2 <- path_exists index_path ;;
  e3 <- path_exists metadata_path ;;
  if negb (e1 && e2 && e3) then raise FileNotFoundError else
  print ;;
  read_cache embeddings_path index_path metadata_path ;;
  s <- get_self ;;
  print_len (questions s).

Definition save_index (cache_dir : string) : M F unit :=
  print.

(** The loop over [enumerate(zip(indices[0], distances[0]))] of
    [retrieve]; [i] is the value of [rank]. *)
Fixpoint format_results (s : PolicyVectorStore F) (i : Z) (hits : list (Z * F))
    (results : list (result F)) : outcome (list (result F)) :=
  match hits with
  | [] => Ok results
  | (idx, dist) :: rest =>
      obind (py_len (questions s)) (fun n =>
        if idx <? n then
          obind (py_index (questions s) idx) (fun q =>
          obind (py_index (answers s) idx) (fun a =>
          obind (py_index (sections s) idx) (fun sec =>
            format_results s (i + 1) rest
              (results ++ [mk_result q a sec dist (i + 1)]))))
        else format_results s (i + 1) rest results)
  end.

Definition retrieve (query : string) (top_k : Z) : M F (list (result F)) :=
  s <- get_self ;;
  match index s with
  | None => raise (ValueError msg_not_loaded)
  | Some _ =>
      _load_model ;;
      let query_with_prefix := "query: " +:+ query in
      query_vec <- encode [query_with_prefix] ;;
      let query_vec := normalize query_vec in
      ix <- self_index ;;
      found <- lift (faiss_search ix query_vec top_k) ;;
      let (distances, indices) := found in
      i0 <- lift (list_index indices 0) ;;
      d0 <- lift (list_index distances 0) ;;
      s <- get_self ;;
      lift (format_results s 0 (combine i0 d0) [])
  end.

Definition format_entry (r : result F) : string :=
  "Q: " +:+ py_str rt (question r) +:+ nl +:+
  "A: " +:+ py_str rt (answer r) +:+ nl +:+
  "[From: " +:+ py_str rt (section r) +:+ "]".

(** The loop [for r in results] of [get_context_for_query], with its
    [break]. *)
Fixpoint context_loop (max_context_length : Z) (results : list (result F))
    (context_parts : list string) (total_length : Z) : list string :=
  match results with
  | [] => context_parts
  | r :: rest =>
      let section_text := format_entry r in
      let n := Z.of_nat (String.length section_text) in
      if total_length + n >? max_context_length then context_parts
      else context_loop max_context_length rest (context_parts ++ [section_text])
             (total_length + n)
  end.

Definition get_context_for_query (query : string) (max_context_length top_k : Z)
  : M F string :=
  o <- try_ (retrieve query top_k) ;;
  match o with
  | Raise _ => print ;; ret ""
  | Ok results =>
      ret (str_join (nl +:+ nl) (context_loop max_context_length results [] 0))
  end.

End Methods.

(** ** Two arithmetics *)

(** binary64 floats: the arithmetic the examples run in. *)
#[export] Instance float_arith : Arith float := {|
  fzero := 0%float;
  fadd := PrimFloat.add;
  fsub := PrimFloat.sub;
  fmul := PrimFloat.mul;
  fdiv := PrimFloat.div;
  fsqrt := PrimFloat.sqrt;
  fleb := PrimFloat.leb;
  feps := 0x1.19799812dea11p-40%float;
  fhuge := 0x1.fffffep+127%float
|}.

(** Exact real arithmetic. *)
#[export] Instance real_arith : Arith R := {|
  fzero := 0%R;
  fadd := Rplus;
  fsub := Rminus;
  fmul := Rmult;
  fdiv := Rdiv;
  fsqrt := sqrt;
  fleb := fun x y => if Rle_dec x y then true else false;
  feps := (1 / 10 ^ 12)%R;
  fhuge := IZR 340282346638528859811704183484516925440
|}.

(** ** A test double of the environment

    The corpus of the specification's end-to-end example, rendered as
    [convert_to_jsonl.py] writes it, a [json.loads] that knows the lines of
    that corpus, and an embedding model with three features. *)

Definition dq : string := String (ascii_of_nat 34) EmptyString.
Definition quoted (s : string) : string := dq +:+ s +:+ dq.

(** [json.dumps({"section": sec, "question": q, "answer": a})]. *)
Definition jsonl_record (sec q a : string) : string :=
  "{" +:+ quoted "section" +:+ ": " +:+ quoted sec +:+ ", " +:+
  quoted "question" +:+ ": " +:+ quoted q +:+ ", " +:+
  quoted "answer" +:+ ": " +:+ quoted a +:+ "}".

Definition record_value (sec q a : string) : json :=
  JObj (<[ "section" := JStr sec ]>
       (<[ "question" := JStr q ]>
       (<[ "answer" := JStr a ]> ∅))).

Definition pet_line : string :=
  jsonl_record "Pets" "Can I bring a pet?" "Yes, in-cabin pets allowed for a fee." +:+ nl.
Definition bag_line : string :=
  jsonl_record "Fares" "What is checked bag fee?" "$35 for first bag." +:+ nl.
(** A JSON object without an [answer] field, and a line that is no JSON. *)
Definition no_answer_line : string :=
  "{" +:+ quoted "question" +:+ ": " +:+ quoted "Is there wifi?" +:+ "}" +:+ nl.
Definition broken_line : string := "{not json" +:+ nl.

Definition pet_value : json :=
  record_value "Pets" "Can I bring a pet?" "Yes, in-cabin pets allowed for a fee.".
Definition bag_value : json :=
  record_value "Fares" "What is checked bag fee?" "$35 for first bag.".
Definition no_answer_value : json :=
  JObj (<[ "question" := JStr "Is there wifi?" ]> ∅).

(** [json.loads] on the (stripped) lines above; every other text is
    refused, as [broken_line] is by the real parser. *)
Definition demo_json_loads (line : string) : option json :=
  if String.eqb line (strip pet_line) then Some pet_value
  else if String.eqb line (strip bag_line) then Some bag_value
  else if String.eqb line (strip no_answer_line) then Some no_answer_value
  else None.

(** Python's [str] on the scalars; the examples format strings only. *)
Definition demo_str (j : json) : string :=
  match j with
  | JStr s => s
  | JNull => "None"
  | JBool true => "True"
  | JBool false => "False"
  | JNum n => pretty n
  | JArr _ => "[...]"
  | JObj _ => "{...}"
  end.

Definition feature (word text : string) : float :=
  if str_contains word text then 1%float else 0%float.

(** Three features of a text: mentions of pets, of bags, and a constant. *)
Definition demo_embedding (text : string) : list float :=
  [feature "pet" text; feature "bag" text; 1%float].

Definition demo_runtime : Runtime float :=
  mk_runtime true demo_json_loads demo_str
    (fun name => String.eqb name "all-MiniLM-L6-v2")
    (fun _ texts => Some (mk_ndarray 3 (map demo_embedding texts))).

Definition fresh_store : PolicyVectorStore float :=
  mk_store "all-MiniLM-L6-v2" None None (JArr []) (JArr []) (JArr []) None.

(** The working directory before the first build. *)
Definition fs_two_records : gmap string (file float) :=
  {[ "policies.jsonl" := TextFile [pet_line; bag_line] ]}.
Definition fs_one_record : gmap string (file float) :=
  {[ "policies.jsonl" := TextFile [pet_line] ]}.

Definition start (files : gmap string (file float)) : state float :=
  mk_state fresh_store files [].

(** ** Names used in the statements *)

Definition embeddings_file (cache_dir : string) : string :=
  path_join cache_dir "embeddings.npz".
Definition index_file (cache_dir : string) : string :=
  path_join cache_dir "policy_index.index".
Definition metadata_file (cache_dir : string) : string :=
  path_join cache_dir "metadata.json".

Definition file_exists {F} (files : gmap string (file F)) (p : string) : bool :=
  bool_decide (is_Some (files !! p)).

Definition is_dir {F} (files : gmap string (file F)) (p : string) : bool :=
  match files !! p with
  | Some Dir => true
  | _ => false
  end.

(** All three artifacts of the cache directory are present. *)
Definition cache_complete {F} (files : gmap string (file F)) (cache_dir : string) : bool :=
  file_exists files (embeddings_file cache_dir)
  && file_exists files (index_file cache_dir)
  && file_exists files (metadata_file cache_dir).

(** [os.makedirs(cache_dir, exist_ok=True)] succeeds. *)
Definition can_makedirs {F} (files : gmap string (file F)) (cache_dir : string) : bool :=
  match files !! cache_dir with
  | Some Dir => true
  | Some _ => false
  | None => negb (String.eqb cache_dir "")
  end.

(** None of the three artifact paths is a directory. *)
Definition artifacts_writable {F} (files : gmap string (file F)) (cache_dir : string) : bool :=
  negb (is_dir files (embeddings_file cache_dir))
  && negb (is_dir files (index_file cache_dir))
  && negb (is_dir files (metadata_file cache_dir)).

(** The metadata document [build_index] dumps. *)
Definition metadata_doc (q a s : json) : json :=
  JObj (<[ "questions" := q ]> (<[ "answers" := a ]> (<[ "sections" := s ]> ∅))).

(** The events a method adds to the log. *)
Definition new_events {F} (st st' : state F) (evs : list event) : Prop :=
  log st' = log st ++ evs.

(** Reading one of the three artifacts, or printing. *)
Definition cache_read_event (cache_dir : string) (e : event) : Prop :=
  e = EvPrint
  \/ e = EvRead (embeddings_file cache_dir)
  \/ e = EvRead (index_file cache_dir)
  \/ e = EvRead (metadata_file cache_dir).

(** A call of the embedding model or a write to the file system. *)
Definition recompute_event (e : event) : bool :=
  match e with
  | EvEncode _ | EvWrite _ | EvModelLoad _ => true
  | _ => false
  end.

(** A record of the corpus that [build_index] indexes: a JSON object with
    both a [question] and an [answer]. *)
Definition usable (item : json) : bool :=
  match item with
  | JObj kv => bool_decide (is_Some (kv !! "question")) && bool_decide (is_Some (kv !! "answer"))
  | _ => false
  end.

Definition is_object (item : json) : bool :=
  match item with
  | JObj _ => true
  | _ => false
  end.

Definition field_or (key : string) (default : json) (item : json) : json :=
  match item with
  | JObj kv => match kv !! key with Some v => v | None => default end
  | _ => default
  end.

Definition question_of : json -> json := field_or "question" JNull.
Definition answer_of : json -> json := field_or "answer" JNull.
Definition section_of : json -> json := field_or "section" (JStr "Unknown").

(** The non-blank lines of a corpus file, stripped, in file order. *)
Definition corpus_lines (lines : list string) : list string :=
  List.filter (fun l => negb (String.eqb l "")) (map strip lines).

(** The model a call of [_load_model] leaves in [self.model], if it
    succeeds. *)
Definition effective_model {F} (rt : Runtime F) (s : PolicyVectorStore F) : option string :=
  match model s with
  | Some m => Some m
  | None => if model_available rt (model_name s) then Some (model_name s) else None
  end.

(** Lengths of the formatted entries, as [total_length] adds them up. *)
Definition total_length (entries : list string) : Z :=
  fold_right (fun e acc => Z.of_nat (String.length e) + acc) 0 entries.

(** The files a first build leaves, and three ways of damaging them. *)
Definition fs_built : gmap string (file float) :=
  fs (snd (build_index demo_runtime "policies.jsonl" "vector_index" (start fs_two_records))).

(** The metadata artifact deleted, the vectors and the index left. *)
Definition fs_without_metadata : gmap string (file float) :=
  delete "vector_index/metadata.json" fs_built.

(** The metadata artifact edited: two questions, one answer, no section. *)
Definition fs_mismatched : gmap string (file float) :=
  <[ "vector_index/metadata.json" :=
       JsonFile (metadata_doc (JArr [JStr "q1"; JStr "q2"]) (JArr [JStr "a1"]) (JArr [])) ]>
    fs_built.

(** The corpus file removed, the cache left complete. *)
Definition fs_cache_only : gmap string (file float) :=
  delete "policies.jsonl" fs_built.

(** A corpus with a blank line and a record without answer, and one with
    a line that is no JSON. *)
Definition fs_skippable : gmap string (file float) :=
  {[ "policies.jsonl" := TextFile [pet_line; nl; no_answer_line; bag_line] ]}.
Definition fs_broken : gmap string (file float) :=
  {[ "policies.jsonl" := TextFile [pet_line; broken_line; bag_line] ]}.
Definition fs_only_broken : gmap string (file float) :=
  {[ "policies.jsonl" := TextFile [broken_line] ]}.

(** The two unit vectors the first build stores. *)
Definition demo_unit_pet : list float :=
  Eval vm_compute in normalize_row (demo_embedding "Can I bring a pet?").
Definition demo_unit_bag : list float :=
  Eval vm_compute in normalize_row (demo_embedding "What is checked bag fee?").

(** The external calls of a cached build: two prints around three reads. *)
Definition cached_build_events : list event :=
  [EvPrint; EvRead "vector_index/embeddings.npz"; EvRead "vector_index/policy_index.index";
   EvRead "vector_index/metadata.json"; EvPrint].

(** The external calls of the first build of the two-record corpus. *)
Definition first_build_events : list event :=
  [EvMkdir "vector_index"; EvPrint; EvRead "policies.jsonl"; EvPrint; EvPrint;
   EvModelLoad "all-MiniLM-L6-v2"; EvPrint; EvPrint;
   EvEncode ["passage: Can I bring a pet?"; "passage: What is checked bag fee?"];
   EvPrint; EvPrint; EvPrint;
   EvWrite "vector_index/embeddings.npz"; EvWrite "vector_index/policy_index.index";
   EvWrite "vector_index/metadata.json"; EvPrint].

(** ** Parts of the methods, named for the proofs *)

(** The separator [os.path.join] puts after [a]. *)
Definition join_sep (a : string) : string :=
  if String.eqb a "" || ends_with_slash a then "" else "/".

Section Devices.
Context {F : Type} `{Arith F}.
Variable rt : Runtime F.

(** The object after the three artifacts were read into it. *)
Definition loaded (s : PolicyVectorStore F) (x : ndarray F) (ix : IndexFlatL2 F)
    (q a sec : json) : PolicyVectorStore F :=
  mk_store (model_name s) (model s) (Some ix) q a sec (Some x).

(** Lines 90-99: the cache is complete. *)
Definition cached_branch (cache_dir : string) : M F unit :=
  print ;;
  read_cache (embeddings_file cache_dir) (index_file cache_dir) (metadata_file cache_dir) ;;
  s <- get_self ;;
  print_len (questions s).

(** Lines 115-156: the rebuild branch from the emptiness check on. *)
Definition finish_rebuild (cache_dir : string) : M F unit :=
  s <- get_self ;;
  if negb (py_truthy (questions s)) then raise (ValueError msg_no_pairs) else
  print_len (questions s) ;;
  _load_model rt ;;
  print ;;
  qs <- lift (py_iter (questions s)) ;;
  let question_passages := map (fun q => "passage: " +:+ py_str rt q) qs in
  x <- encode rt question_passages ;;
  set_embeddings (Some x) ;;
  x <- self_embeddings ;;
  set_embeddings (Some (normalize x)) ;;
  print ;;
  print ;;
  x <- self_embeddings ;;
  let dimension := ncols x in
  set_index (Some (mk_index dimension [])) ;;
  ix <- self_index ;;
  ix <- lift (faiss_add ix x) ;;
  set_index (Some ix) ;;
  print ;;
  x <- self_embeddings ;;
  write_file (embeddings_file cache_dir) (NpzFile {[ "embeddings" := x ]}) ;;
  ix <- self_index ;;
  write_file (index_file cache_dir) (FaissFile ix) ;;
  s <- get_self ;;
  write_file (metadata_file cache_dir)
    (JsonFile (metadata_doc (questions s) (answers s) (sections s))) ;;
  print.

(** Lines 101-156: an artifact is missing. *)
Definition rebuild_branch (policies_file cache_dir : string) : M F unit :=
  print ;;
  policy_data <- load_jsonl rt policies_file ;;
  set_questions (JArr []) ;;
  set_answers (JArr []) ;;
  set_sections (JArr []) ;;
  collect_pairs policy_data ;;
  finish_rebuild cache_dir.

(** The state in which [os.makedirs(cache_dir, exist_ok=True)] leaves the
    world when it succeeds. *)
Definition after_makedirs (cache_dir : string) (st : state F) : state F :=
  match fs st !! cache_dir with
  | Some _ => st
  | None => mk_state (self st) (<[cache_dir := Dir]> (fs st)) (log st ++ [EvMkdir cache_dir])
  end.

Definition makedirs_error (files : gmap string (file F)) (cache_dir : string) : exn :=
  match files !! cache_dir with
  | Some _ => FileExistsError
  | None => FileNotFoundError
  end.

(** [c] leaves the files alone and adds only events satisfying [P]. *)
Definition adds_only {A} (P : event -> Prop) (c : M F A) : Prop :=
  forall st o st', c st = (o, st') ->
    fs st' = fs st /\ exists evs, log st' = log st ++ evs /\ Forall P evs.

(** The object once the records [us] were appended to the three lists. *)
Definition with_pairs (s : PolicyVectorStore F) (q0 a0 s0 us : list json) : PolicyVectorStore F :=
  mk_store (model_name s) (model s) (index s)
    (JArr (q0 ++ map question_of us))
    (JArr (a0 ++ map answer_of us))
    (JArr (s0 ++ map section_of us))
    (embeddings s).

(** An item on which the body of the loop raises nothing. *)
Definition item_ok (item : json) : bool :=
  match item with
  | JObj _ => true
  | JStr s => negb (str_contains "question" s && str_contains "answer" s)
  | JArr l => negb (existsb (is_json_str "question") l && existsb (is_json_str "answer") l)
  | JNull | JBool _ | JNum _ => false
  end.

(** The texts handed to [model.encode] at build time. *)
Definition passages (qs : list json) : list string :=
  map (fun q => "passage: " +:+ py_str rt q) qs.

(** The index and the embeddings a rebuild leaves in the object. *)
Definition built_index (x : ndarray F) : IndexFlatL2 F :=
  mk_index (ncols x) (rows (normalize x)).

Definition rebuilt (s : PolicyVectorStore F) (m : string) (x : ndarray F) : PolicyVectorStore F :=
  mk_store (model_name s) (Some m) (Some (built_index x))
    (questions s) (answers s) (sections s) (Some (normalize x)).

(** The three artifacts a rebuild writes. *)
Definition cache_written (files : gmap string (file F)) (cache_dir : string)
    (s : PolicyVectorStore F) (x : ndarray F) : gmap string (file F) :=
  <[ metadata_file cache_dir := JsonFile (metadata_doc (questions s) (answers s) (sections s)) ]>
  (<[ index_file cache_dir := FaissFile (built_index x) ]>
  (<[ embeddings_file cache_dir := NpzFile {[ "embeddings" := normalize x ]} ]> files)).

Definition model_events (s : PolicyVectorStore F) : list event :=
  match model s with
  | Some _ => []
  | None => [EvPrint; EvModelLoad (model_name s); EvPrint]
  end.

Definition finish_events (cache_dir : string) (s : PolicyVectorStore F) (qs : list json)
  : list event :=
  [EvPrint] ++ model_events s ++
  [EvPrint; EvEncode (passages qs); EvPrint; EvPrint; EvPrint;
   EvWrite (embeddings_file cache_dir); EvWrite (index_file cache_dir);
   EvWrite (metadata_file cache_dir); EvPrint].

(** [json.loads] on each line of a list, in order. *)
Fixpoint decode_lines (ls : list string) : outcome (list json) :=
  match ls with
  | [] => Ok []
  | l :: rest =>
      match json_loads rt l with
      | None => Raise JSONDecodeError
      | Some v => obind (decode_lines rest) (fun vs => Ok (v :: vs))
      end
  end.

(** [self.questions = []; self.answers = []; self.sections = []]. *)
Definition reset_lists (s : PolicyVectorStore F) : PolicyVectorStore F :=
  mk_store (model_name s) (model s) (index s) (JArr []) (JArr []) (JArr []) (embeddings s).

(** The object a successful rebuild leaves: the usable records [us], the
    model [m] and the normalised encoding [x] of their questions. *)
Definition indexed (s : PolicyVectorStore F) (us : list json) (m : string) (x : ndarray F)
  : PolicyVectorStore F :=
  mk_store (model_name s) (Some m) (Some (built_index x))
    (JArr (map question_of us)) (JArr (map answer_of us)) (JArr (map section_of us))
    (Some (normalize x)).

Definition rebuild_events (policies_file cache_dir : string) (s : PolicyVectorStore F)
    (us : list json) : list event :=
  [EvPrint; EvRead policies_file] ++ finish_events cache_dir s (map question_of us).

(** The provider returns one row per text. *)
Definition one_row_per_text : Prop :=
  forall m texts x, model_encode rt m texts = Some x -> length (rows x) = length texts.

(** What [retrieve] returns, as a function of the object. *)
Definition retrieve_pure (s : PolicyVectorStore F) (query : string) (top_k : Z)
  : outcome (list (result F)) :=
  match index s with
  | None => Raise (ValueError msg_not_loaded)
  | Some ix =>
      match effective_model rt s with
      | None => Raise ModelLoadError
      | Some m =>
          match model_encode rt m ["query: " +:+ query] with
          | None => Raise EncodeError
          | Some query_vec =>
              obind (faiss_search ix (normalize query_vec) top_k) (fun found =>
              obind (list_index (snd found) 0) (fun i0 =>
              obind (list_index (fst found) 0) (fun d0 =>
                format_results s 0 (combine i0 d0) [])))
          end
      end
  end.

(** Ranks [i+1, i+2, ...] in list order. *)
Fixpoint ranked_from (i : Z) (rs : list (result F)) : Prop :=
  match rs with
  | [] => True
  | r :: rs' => rank r = i + 1 /\ ranked_from (i + 1) rs'
  end.

End Devices.

From Stdlib Require Import Sorted.

(** ** The rest of [vector_store.py] *)

(** One entry of the list [search] returns:
    [{'text': ..., 'score': ..., 'metadata': {'section': ..., 'question': ...}}]. *)
Record hit (F : Type) : Type := mk_hit {
  text : json;
  score : F;
  metadata_section : json;
  metadata_question : json
}.
Arguments mk_hit {F} _ _ _ _.
Arguments text {F} _.
Arguments score {F} _.
Arguments metadata_section {F} _.
Arguments metadata_question {F} _.

Section Search.
Context {F : Type} `{Arith F}.
Variable rt : Runtime F.

(** [search], the backward compatible method patched onto the class (lines
    238-246). *)
Definition search (query : string) (top_k : Z) (max_distance : F) : M F (list (hit F)) :=
  results <- retrieve rt query top_k ;;
  let filtered := List.filter (fun r => fleb (distance r) max_distance) results in
  ret (map (fun r => mk_hit (answer r) (distance r) (section r) (question r)) filtered).

End Search.

(** Two objects that differ at most in the loaded model. *)
Definition same_data {F} (s s' : PolicyVectorStore F) : Prop :=
  model_name s' = model_name s
  /\ index s' = index s
  /\ questions s' = questions s
  /\ answers s' = answers s
  /\ sections s' = sections s
  /\ embeddings s' = embeddings s.

Definition is_model_load (e : event) : bool :=
  match e with
  | EvModelLoad _ => true
  | _ => false
  end.

(** The state in which [retrieve] on [query] leaves the engine and the
    log. *)
Definition after_query {F} (rt : Runtime F) (query : string) (st : state F) : state F :=
  match index (self st) with
  | None => st
  | Some _ =>
      match model (self st) with
      | Some _ =>
          mk_state (self st) (fs st) (log st ++ [EvEncode ["query: " +:+ query]])
      | None =>
          if model_available rt (model_name (self st))
          then mk_state (mk_store (model_name (self st)) (Some (model_name (self st)))
                           (index (self st)) (questions (self st)) (answers (self st))
                           (sections (self st)) (embeddings (self st)))
                 (fs st)
                 (log st ++ [EvPrint; EvModelLoad (model_name (self st)); EvPrint;
                             EvEncode ["query: " +:+ query]])
          else mk_state (self st) (fs st)
                 (log st ++ [EvPrint; EvModelLoad (model_name (self st))])
      end
  end.

(** The engine after the first build of the one-record corpus and of the
    two-record corpus. *)
Definition engine_one_record : state float :=
  snd (build_index demo_runtime "policies.jsonl" "vector_index" (start fs_one_record)).
Definition engine_two_records : state float :=
  snd (build_index demo_runtime "policies.jsonl" "vector_index" (start fs_two_records)).

(** An environment in which the guarded import of [vector_store.py]
    failed, and one in which no model can be constructed. *)
Definition runtime_without_rag : Runtime float :=
  mk_runtime false demo_json_loads demo_str (fun _ => false) (fun _ _ => None).
Definition runtime_offline : Runtime float :=
  mk_runtime true demo_json_loads demo_str (fun _ => false)
    (fun _ texts => Some (mk_ndarray 3 (map demo_embedding texts))).

(** A cache whose metadata document has no key at all. *)
Definition fs_empty_metadata : gmap string (file float) :=
  <[ "vector_index/metadata.json" := JsonFile (JObj ∅) ]> fs_built.

(** ** The module [context_manager.py] *)

Module context_manager.

(** A turn is the pair [(user_text, bot_text)] of two strings. *)
Record ContextManager : Type := mk_ContextManager {
  max_history : Z;
  history : list (string * string)
}.

(** [ContextManager(max_history)]; the default is [default_max_history]. *)
Definition default_max_history : Z := 5.

Definition __init__ (max_history : Z) : ContextManager :=
  mk_ContextManager max_history [].

(** [add_turn]: [append], then [pop(0)] when the list is longer than
    [max_history] (the list is not empty then). *)
Definition add_turn (cm : ContextManager) (user_text bot_text : string) : ContextManager :=
  let history := history cm ++ [(user_text, bot_text)] in
  if Z.of_nat (length history) >? max_history cm
  then mk_ContextManager (max_history cm) (tl history)
  else mk_ContextManager (max_history cm) history.

Definition format_turn (turn : string * string) : string :=
  "User: " +:+ fst turn +:+ nl +:+ "Bot: " +:+ snd turn +:+ nl.

(** [get_context]: the loop [context_str += ...] over the history. *)
Definition get_context (cm : ContextManager) : string :=
  fold_left (fun context_str turn => context_str +:+ format_turn turn) (history cm) "".

(** The manager after the calls [add_turn(u, b)] for the [turns], in
    order. *)
Definition add_turns (cm : ContextManager) (turns : list (string * string)) : ContextManager :=
  fold_left (fun cm turn => add_turn cm (fst turn) (snd turn)) turns cm.

End context_manager.

(** ** The script [convert_to_jsonl.py] *)

Module convert_to_jsonl.

(** The dict literal [{"section": ..., "question": ..., "answer": ...}]. *)
Definition record (section : string) (question answer : json) : json :=
  JObj (<[ "section" := JStr section ]>
       (<[ "question" := question ]>
       (<[ "answer" := answer ]> ∅))).

(** The record of a policy given as plain text. *)
Definition text_record (section content : string) : json :=
  record section (JStr ("What is the " +:+ section +:+ " policy?")) (JStr (strip content)).

Section Convert.
Context {F : Type}.

(** What the script takes from its environment:
    [json.dumps(record, ensure_ascii=False)], which puts no line break in
    its output, and the order in which [policies.items()] yields the
    entries of the decoded object (the order of the keys in the input
    text, which the decoded value does not record). *)
Variable json_dumps : json -> string.
Variable items : gmap string json -> list (string * json).

(** [out.write(text)] on the file opened at [out]. *)
Definition out_write (out : string) (text : string) : M F unit :=
  fun st =>
    let written := match fs st !! out with
                   | Some (TextFile lines) => lines
                   | _ => []
                   end in
    (Ok tt, mk_state (self st) (<[ out := TextFile (written ++ [text]) ]> (fs st)) (log st)).

(** The loop [for item in content]. *)
Fixpoint write_items (out section : string) (content : list json) : M F unit :=
  match content with
  | [] => ret tt
  | item :: rest =>
      match item with
      | JObj kv =>
          match kv !! "question", kv !! "answer" with
          | Some q, Some a => out_write out (json_dumps (record section q a) +:+ nl)
          | _, _ => ret tt
          end
      | _ => ret tt
      end ;;
      write_items out section rest
  end.

(** The loop [for section, content in policies.items()]. *)
Fixpoint write_sections (out : string) (policies : list (string * json)) : M F unit :=
  match policies with
  | [] => ret tt
  | (section, content) :: rest =>
      match content with
      | JArr l => write_items out section l
      | JStr s =>
          if negb (String.eqb (strip s) "")
          then out_write out (json_dumps (text_record section s) +:+ nl)
          else ret tt
      | _ => ret tt
      end ;;
      write_sections out rest
  end.

Definition convert_policies_to_jsonl (input_file output_file : string) : M F unit :=
  policies <- json_load input_file ;;
  write_file output_file (TextFile []) ;;
  match policies with
  | JObj kv => write_sections output_file (items kv) ;; print
  | _ => raise AttributeError
  end.

(** The records the two loops write, in order. *)
Definition item_records (section : string) (item : json) : list json :=
  match item with
  | JObj kv =>
      match kv !! "question", kv !! "answer" with
      | Some q, Some a => [record section q a]
      | _, _ => []
      end
  | _ => []
  end.

Definition content_records (section : string) (content : json) : list json :=
  match content with
  | JArr l => flat_map (item_records section) l
  | JStr s => if negb (String.eqb (strip s) "") then [text_record section s] else []
  | _ => []
  end.

Definition records (policies : list (string * json)) : list json :=
  flat_map (fun p => content_records (fst p) (snd p)) policies.

(** The lines of the output file: one per record. *)
Definition jsonl_lines (rs : list json) : list string :=
  map (fun r => json_dumps r +:+ nl) rs.

End Convert.

End convert_to_jsonl.

(** The text file at [out], and the state once [lines] were written to
    it. *)
Definition text_at {F} (files : gmap string (file F)) (out : string) : list string :=
  match files !! out with
  | Some (TextFile lines) => lines
  | _ => []
  end.

Definition with_text {F} (st : state F) (out : string) (lines : list string) : state F :=
  mk_state (self st) (<[ out := TextFile lines ]> (fs st)) (log st).

(** [json.dumps] on the records of the demonstration corpus. *)
Definition demo_json_dumps (r : json) : string :=
  match section_of r, question_of r, answer_of r with
  | JStr s, JStr q, JStr a => jsonl_record s q a
  | _, _, _ => "null"
  end.

(** A [policies.json] with one section of one question and answer, as the
    parser of the repository writes it. *)
Definition demo_policies : gmap string json :=
  {[ "Pets" := JArr [JObj (<[ "question" := JStr "Can I bring a pet?" ]>
                          (<[ "answer" := JStr "Yes, in-cabin pets allowed for a fee." ]> ∅))] ]}.

Definition fs_policies_json : gmap string (file float) :=
  {[ "policies.json" := JsonFile (JObj demo_policies) ]}.

(** A [policies.json] whose top-level value is a list. *)
Definition fs_policies_list : gmap string (file float) :=
  {[ "policies.json" := JsonFile (JArr []) ]}.

(** ** The module [response_generator.py] *)

(** The comparison [<] on distances and the literal [2.0] of
    [_build_prompt]. *)
Class Threshold (F : Type) : Type := {
  fltb : F -> F -> bool;
  ftwo : F
}.

#[export] Instance float_threshold : Threshold float := {|
  fltb := PrimFloat.ltb;
  ftwo := 2%float
|}.

(** [x[:n]]: strings and lists can be sliced. *)
Definition py_slice_to (x : json) (n : nat) : outcome json :=
  match x with
  | JStr s => Ok (JStr (String.substring 0 n s))
  | JArr l => Ok (JArr (firstn n l))
  | _ => Raise TypeError
  end.

Definition is_str (j : json) : bool :=
  match j with
  | JStr _ => true
  | _ => false
  end.

(** *** [ResponseGenerator.__init__], the vector store *)

Module response_generator.
Section Init.
Context {F : Type} `{Arith F}.
Variable rt : Runtime F.

(** The flag [_HAVE_RAG] of [response_generator.py]: the import of
    [vector_store] succeeded. *)
Variable _HAVE_RAG : bool.

(** The default [model_name] of [PolicyVectorStore()]. *)
Definition default_model_name : string := "all-MiniLM-L6-v2".

(** Lines 29-42, the body of the [try]: the value is what
    [self.vector_store] is assigned, if anything; the store is the object
    of the state. *)
Definition try_vector_store (policies_jsonl index_dir : string)
  : M F (option (PolicyVectorStore F)) :=
  store <- lift (__init__ rt default_model_name) ;;
  set_self (fun _ => store) ;;
  found <- path_exists index_dir ;;
  if found then
    load_index rt index_dir ;;
    store <- get_self ;;
    print ;;
    ret (Some store)
  else
    found <- path_exists policies_jsonl ;;
    if found then
      print ;;
      build_index rt policies_jsonl index_dir ;;
      store <- get_self ;;
      print ;;
      ret (Some store)
    else
      print ;;
      ret None.

(** Lines 26-45: [self.vector_store] after the constructor. *)
Definition init_vector_store (policies_jsonl index_dir : string)
  : M F (option (PolicyVectorStore F)) :=
  if _HAVE_RAG then
    o <- try_ (try_vector_store policies_jsonl index_dir) ;;
    match o with
    | Ok vector_store => ret vector_store
    | Raise _ => print ;; ret None
    end
  else ret None.

End Init.
(** *** [ResponseGenerator._build_prompt] *)

Section BuildPrompt.
Context {F : Type} `{Arith F} `{Threshold F}.
Variable rt : Runtime F.

(** The order in which [self.policies.values()] yields the values of the
    decoded object (the order of the keys in [policies.json]). *)
Variable values : gmap string json -> list json.

(** Lines 69-71: two prints per result; the second one slices the
    question. *)
Fixpoint print_results (results : list (result F)) : M F unit :=
  match results with
  | [] => ret tt
  | r :: rest =>
      print ;;
      _ <- lift (py_slice_to (question r) 80) ;;
      print ;;
      print_results rest
  end.

(** Lines 74-77: the entries under the threshold, rendered. *)
Definition policy_part (r : result F) : string :=
  "Q: " +:+ py_str rt (question r) +:+ nl +:+ "A: " +:+ py_str rt (answer r).

Definition policy_parts (results : list (result F)) : list string :=
  map policy_part (List.filter (fun r => fltb (distance r) ftwo) results).

(** Lines 64-79, the body of the [try]. *)
Definition retrieved_context (user_input_clean : string) : M F string :=
  results <- retrieve rt user_input_clean 3 ;;
  match results with
  | [] => ret tt
  | _ :: _ => print ;; print_results results
  end ;;
  ret (str_join (nl +:+ nl) (policy_parts results)).

(** Lines 60-82: [policy_context]; [vector_store] tells whether
    [self.vector_store] is set. *)
Definition policy_context (vector_store : bool) (user_input_clean : string) : M F string :=
  if vector_store then
    o <- try_ (retrieved_context user_input_clean) ;;
    match o with
    | Ok context => ret context
    | Raise _ => print ;; ret ""
    end
  else ret "".

(** ['\n'.join(self.policies.values())]: every value must be a [str]. *)
Fixpoint str_values (vs : list json) : outcome (list string) :=
  match vs with
  | [] => Ok []
  | JStr s :: rest => obind (str_values rest) (fun l => Ok (s :: l))
  | _ :: _ => Raise TypeError
  end.

Definition policies_text (policies : json) : outcome string :=
  match policies with
  | JObj kv => obind (str_values (values kv)) (fun l => Ok (str_join nl l))
  | _ => Raise AttributeError
  end.

Definition instructions : string :=
  "You are a helpful airline customer support assistant. Answer questions using ONLY the policy information provided below." +:+ nl +:+
  nl +:+
  "IMPORTANT INSTRUCTIONS:" +:+ nl +:+
  "- Keep answers SHORT and DIRECT (2-4 sentences maximum)" +:+ nl +:+
  "- Only include the most relevant information" +:+ nl +:+
  "- Use bullet points only if listing multiple items" +:+ nl +:+
  "- Don't repeat information" +:+ nl +:+
  "- Be conversational but concise".

(** [_build_prompt], with [self.policies] and [self.vector_store] as
    arguments. *)
Definition _build_prompt (policies : json) (vector_store : bool)
    (user_input_clean conversation_context : string) : M F string :=
  policy_context <- policy_context vector_store user_input_clean ;;
  policy_text <-
    (if negb (String.eqb policy_context "")
     then ret ("Relevant Airline Policies:" +:+ nl +:+ policy_context)
     else
       text <- lift (policies_text policies) ;;
       ret ("Airline Policies:" +:+ nl +:+ text)) ;;
  ret (instructions +:+ nl +:+ nl +:+ policy_text +:+ nl +:+ nl +:+
       conversation_context +:+ "User: " +:+ user_input_clean +:+ nl +:+ "Bot:").

End BuildPrompt.

End response_generator.

(** The events that change the cache or call the model. *)
Definition build_event (e : event) : bool :=
  match e with
  | EvMkdir _ | EvWrite _ | EvEncode _ | EvModelLoad _ => true
  | _ => false
  end.

(** A [policies.json] as the parser writes it (a section of questions and
    answers), and one of plain texts. *)
Definition policies_with_list : json := JObj demo_policies.
Definition policies_of_texts : json :=
  JObj {[ "Pets" := JStr "In-cabin pets allowed for a fee." ]}.

(** ** The module [preprocessor.py] *)

Module preprocessor.

(** The functions below are those of Python on ASCII text, where
    [str.lower] maps [A-Z] to [a-z], [\s] is [str.isspace] and [\w] is
    [[a-zA-Z0-9_]]; the statements about them are about ASCII text. *)
Definition is_ascii (c : ascii) : bool := (nat_of_ascii c <? 128)%nat.

Definition is_ascii_text (s : string) : bool :=
  forallb is_ascii (list_ascii_of_string s).

Definition is_upper (c : ascii) : bool :=
  let n := nat_of_ascii c in ((65 <=? n) && (n <=? 90))%nat.

Definition to_lower (c : ascii) : ascii :=
  if is_upper c then ascii_of_nat (nat_of_ascii c + 32) else c.

(** [text.lower()]. *)
Fixpoint lower (s : string) : string :=
  match s with
  | EmptyString => EmptyString
  | String c s' => String (to_lower c) (lower s')
  end.

(** [\w]. *)
Definition is_word (c : ascii) : bool :=
  let n := nat_of_ascii c in
  ((48 <=? n) && (n <=? 57) || (65 <=? n) && (n <=? 90)
   || (97 <=? n) && (n <=? 122) || (n =? 95))%nat.

(** [re.sub(r'\s+', ' ', text)]: every maximal run of whitespace becomes
    one space; [in_run] tells that the previous character was
    whitespace. *)
Fixpoint sub_spaces (in_run : bool) (s : string) : string :=
  match s with
  | EmptyString => EmptyString
  | String c s' =>
      if is_space c
      then if in_run then sub_spaces true s' else String " "%char (sub_spaces true s')
      else String c (sub_spaces false s')
  end.

(** [re.sub(r'[^\w\s]', '', text)]. *)
Fixpoint sub_punctuation (s : string) : string :=
  match s with
  | EmptyString => EmptyString
  | String c s' =>
      if is_word c || is_space c then String c (sub_punctuation s')
      else sub_punctuation s'
  end.

Definition clean_text (text : string) : string :=
  let text := strip (lower text) in
  let text := sub_spaces false text in
  let text := sub_punctuation text in
  text.

(** A lower-case letter, a digit, the underscore or the space. *)
Definition is_clean_char (c : ascii) : bool :=
  let n := nat_of_ascii c in
  ((97 <=? n) && (n <=? 122) || (48 <=? n) && (n <=? 57) || (n =? 95) || (n =? 32))%nat.

End preprocessor.

(** Every character of a string satisfies [P]. *)
Definition all_chars (P : ascii -> Prop) (s : string) : Prop :=
  Forall P (list_ascii_of_string s).

(** The last character of a string. *)
Fixpoint last_char (s : string) : option ascii :=
  match s with
  | EmptyString => None
  | String c EmptyString => Some c
  | String _ s' => last_char s'
  end.

(** No whitespace at either end. *)
Definition trimmed (s : string) : Prop :=
  (forall c s', s = String c s' -> is_space c = false)
  /\ (forall c, last_char s = Some c -> is_space c = false).

(** * Properties *)

(** ** Strings and paths *)

Lemma append_length (a b : string) :
  String.length (a +:+ b) = (String.length a + String.length b)%nat.
Proof. induction a as [|c a IH]; simpl; [reflexivity | now rewrite IH]. Qed.

Lemma append_inj_l (a x y : string) : a +:+ x = a +:+ y -> x = y.
Proof. induction a as [|c a IH]; simpl; intros E; [exact E | injection E; auto]. Qed.

Lemma path_join_relative (a p : string) :
  is_prefix "/" p = false -> path_join a p = a +:+ (join_sep a +:+ p).
Proof.
  intros Hp. unfold path_join, join_sep. rewrite Hp.
  destruct (String.eqb a "" || ends_with_slash a); reflexivity.
Qed.

Lemma path_join_longer (a p : string) :
  is_prefix "/" p = false -> p <> "" -> path_join a p <> a.
Proof.
  intros Hp Hne E. rewrite path_join_relative in E by exact Hp.
  apply (f_equal String.length) in E. rewrite !append_length in E.
  destruct p; [congruence | simpl in E; lia].
Qed.

Lemma path_join_inj (a p q : string) :
  is_prefix "/" p = false -> is_prefix "/" q = false ->
  path_join a p = path_join a q -> p = q.
Proof.
  intros Hp Hq E. rewrite !path_join_relative in E by assumption.
  now apply append_inj_l, append_inj_l in E.
Qed.

Lemma artifact_paths_distinct (d : string) :
  embeddings_file d <> index_file d
  /\ embeddings_file d <> metadata_file d
  /\ index_file d <> metadata_file d
  /\ embeddings_file d <> d /\ index_file d <> d /\ metadata_file d <> d.
Proof.
  unfold embeddings_file, index_file, metadata_file.
  repeat split;
    try (intros E; apply path_join_inj in E; [discriminate | reflexivity | reflexivity]);
    apply path_join_longer; [reflexivity | discriminate | reflexivity | discriminate
                            | reflexivity | discriminate].
Qed.

Arguments path_join : simpl never.

(** ** Running methods *)

Section Running.
Context {F : Type}.

Lemma bind_ok {A B} (c : M F A) (k : A -> M F B) st a st1 :
  c st = (Ok a, st1) -> bind c k st = k a st1.
Proof. intros E. unfold bind. now rewrite E. Qed.

Lemma bind_raise {A B} (c : M F A) (k : A -> M F B) st e st1 :
  c st = (Raise e, st1) -> bind c k st = (Raise e, st1).
Proof. intros E. unfold bind. now rewrite E. Qed.

Lemma bind_ok_inv {A B} (c : M F A) (k : A -> M F B) st b st' :
  bind c k st = (Ok b, st') ->
  exists a st1, c st = (Ok a, st1) /\ k a st1 = (Ok b, st').
Proof.
  unfold bind. destruct (c st) as [[a|e] st1]; intros E; [eauto | discriminate].
Qed.

Lemma state_eta (st : state F) : mk_state (self st) (fs st) (log st) = st.
Proof. now destruct st. Qed.

Lemma store_eta (s : PolicyVectorStore F) :
  mk_store (model_name s) (model s) (index s) (questions s) (answers s)
    (sections s) (embeddings s) = s.
Proof. now destruct s. Qed.

End Running.

(** ** [save_index] and [load_index] *)

Section Loading.
Context {F : Type} `{Arith F}.
Variable rt : Runtime F.

Lemma load_index_missing (cache_dir : string) (st : state F) :
  HAVE_RAG rt = true ->
  cache_complete (fs st) cache_dir = false ->
  load_index rt cache_dir st = (Raise FileNotFoundError, st).
Proof.
  intros Hrag Hmiss.
  unfold cache_complete, file_exists, embeddings_file, index_file, metadata_file in Hmiss.
  unfold load_index, _ensure_rag_available, bind, path_exists. rewrite Hrag.
  cbn [ret]. rewrite Hmiss. reflexivity.
Qed.

Lemma read_cache_ok (e i m : string) (st : state F) arrays x ix kv q a sec :
  fs st !! e = Some (NpzFile arrays) ->
  arrays !! "embeddings" = Some x ->
  fs st !! i = Some (FaissFile ix) ->
  fs st !! m = Some (JsonFile (JObj kv)) ->
  kv !! "questions" = Some q ->
  kv !! "answers" = Some a ->
  kv !! "sections" = Some sec ->
  read_cache e i m st =
    (Ok tt, mk_state (loaded (self st) x ix q a sec) (fs st)
              (log st ++ [EvRead e; EvRead i; EvRead m])).
Proof.
  intros He Hx Hi Hm Hq Ha Hs.
  unfold read_cache, np_load, faiss_read_index, json_load, bind, open_read, lift,
    set_embeddings, set_index, set_questions, set_answers, set_sections, set_self, ret.
  cbn. rewrite He. cbn. rewrite Hx. cbn. rewrite Hi. cbn. rewrite Hm. cbn.
  rewrite Hq, Ha, Hs. cbn. unfold loaded. now rewrite <- !app_assoc.
Qed.

Lemma cache_complete_inv (files : gmap string (file F)) (cache_dir : string) :
  cache_complete files cache_dir = true ->
  is_Some (files !! embeddings_file cache_dir)
  /\ is_Some (files !! index_file cache_dir)
  /\ is_Some (files !! metadata_file cache_dir).
Proof.
  unfold cache_complete, file_exists. intros E.
  apply andb_prop in E as [E E3]. apply andb_prop in E as [E1 E2].
  apply bool_decide_eq_true in E1, E2, E3. auto.
Qed.

Lemma load_index_present (cache_dir : string) (st : state F) arrays x ix kv q a sec n :
  HAVE_RAG rt = true ->
  fs st !! embeddings_file cache_dir = Some (NpzFile arrays) ->
  arrays !! "embeddings" = Some x ->
  fs st !! index_file cache_dir = Some (FaissFile ix) ->
  fs st !! metadata_file cache_dir = Some (JsonFile (JObj kv)) ->
  kv !! "questions" = Some q ->
  kv !! "answers" = Some a ->
  kv !! "sections" = Some sec ->
  py_len q = Ok n ->
  load_index rt cache_dir st =
    (Ok tt, mk_state (loaded (self st) x ix q a sec) (fs st)
              (log st ++ [EvPrint; EvRead (embeddings_file cache_dir);
                          EvRead (index_file cache_dir);
                          EvRead (metadata_file cache_dir); EvPrint])).
Proof.
  intros Hrag He Hx Hi Hm Hq Ha Hs Hn.
  unfold load_index, _ensure_rag_available. rewrite Hrag.
  unfold bind at 1. cbn [ret].
  unfold bind at 1, path_exists at 1. unfold bind at 1, path_exists at 1.
  unfold bind at 1, path_exists at 1.
  fold (embeddings_file cache_dir) (index_file cache_dir) (metadata_file cache_dir).
  rewrite He, Hi, Hm.
  rewrite !bool_decide_eq_true_2 by eauto. cbn [andb negb].
  unfold bind at 1, print at 1, emit at 1.
  erewrite bind_ok; [| eapply read_cache_ok; cbn; eauto].
  unfold bind, get_self, print_len, lift, print, emit. cbn. rewrite Hn. cbn.
  now rewrite <- !app_assoc.
Qed.

End Loading.

(** ** The two branches of [build_index] *)

Section Branches.
Context {F : Type} `{Arith F}.
Variable rt : Runtime F.

Lemma makedirs_run (cache_dir : string) (st : state F) :
  makedirs cache_dir st =
    if can_makedirs (fs st) cache_dir then (Ok tt, after_makedirs cache_dir st)
    else (Raise (makedirs_error (fs st) cache_dir), st).
Proof.
  unfold makedirs, can_makedirs, after_makedirs, makedirs_error.
  destruct (fs st !! cache_dir) as [[]|]; try reflexivity.
  destruct (String.eqb cache_dir ""); reflexivity.
Qed.

Lemma cache_complete_after_makedirs (cache_dir : string) (st : state F) :
  cache_complete (fs (after_makedirs cache_dir st)) cache_dir
  = cache_complete (fs st) cache_dir.
Proof.
  unfold after_makedirs. destruct (fs st !! cache_dir); [reflexivity |].
  destruct (artifact_paths_distinct cache_dir) as (_ & _ & _ & D1 & D2 & D3).
  unfold cache_complete, file_exists. cbn [fs].
  rewrite !lookup_insert_ne by congruence. reflexivity.
Qed.

(** [build_index], by the checks it makes before it chooses a branch. *)
Lemma build_index_cases (policies_file cache_dir : string) (st : state F) :
  build_index rt policies_file cache_dir st =
    if negb (HAVE_RAG rt) then (Raise ImportError, st)
    else if negb (file_exists (fs st) policies_file) then (Raise FileNotFoundError, st)
    else if negb (can_makedirs (fs st) cache_dir)
         then (Raise (makedirs_error (fs st) cache_dir), st)
    else if cache_complete (fs st) cache_dir
         then cached_branch cache_dir (after_makedirs cache_dir st)
         else rebuild_branch rt policies_file cache_dir (after_makedirs cache_dir st).
Proof.
  unfold build_index, _ensure_rag_available.
  destruct (HAVE_RAG rt); [| reflexivity]. cbn [negb].
  unfold bind at 1. cbn [ret].
  unfold bind at 1, path_exists at 1. fold (file_exists (fs st) policies_file).
  destruct (file_exists (fs st) policies_file); [| reflexivity]. cbn [negb].
  unfold bind at 1. rewrite makedirs_run.
  destruct (can_makedirs (fs st) cache_dir); [| reflexivity]. cbn [negb].
  rewrite <- cache_complete_after_makedirs.
  set (st1 := after_makedirs cache_dir st).
  unfold bind at 1, path_exists at 1. unfold bind at 1, path_exists at 1.
  unfold bind at 1, path_exists at 1.
  unfold cache_complete, file_exists, embeddings_file, index_file, metadata_file.
  destruct (bool_decide (is_Some (fs st1 !! path_join cache_dir "embeddings.npz"))
            && bool_decide (is_Some (fs st1 !! path_join cache_dir "policy_index.index"))
            && bool_decide (is_Some (fs st1 !! path_join cache_dir "metadata.json"))).
  - reflexivity.
  - reflexivity.
Qed.

End Branches.

(** ** What a computation may touch *)

Section Frames.
Context {F : Type} `{Arith F}.

Lemma adds_only_pure {A} P (c : M F A) :
  (forall st, snd (c st) = st) -> adds_only (F := F) P c.
Proof.
  intros Hc st o st' E. specialize (Hc st). rewrite E in Hc. cbn in Hc. subst st'.
  split; [reflexivity |]. exists []. now rewrite app_nil_r.
Qed.

Lemma adds_only_ret {A} P (a : A) : adds_only (F := F) P (ret a).
Proof. now apply adds_only_pure. Qed.

Lemma adds_only_raise {A} P e : adds_only (F := F) (A := A) P (raise e).
Proof. now apply adds_only_pure. Qed.

Lemma adds_only_lift {A} P (o : outcome A) : adds_only (F := F) P (lift o).
Proof. now apply adds_only_pure. Qed.

Lemma adds_only_get_self P : adds_only (F := F) P get_self.
Proof. now apply adds_only_pure. Qed.

Lemma adds_only_set_self P f : adds_only (F := F) P (set_self f).
Proof.
  intros st o st' E. inversion E; subst. cbn. split; [reflexivity |].
  exists []. now rewrite app_nil_r.
Qed.

Lemma adds_only_emit (P : event -> Prop) e : P e -> adds_only (F := F) P (emit e).
Proof.
  intros Pe st o st' E. inversion E; subst. cbn. split; [reflexivity |].
  exists [e]. split; [reflexivity | now constructor].
Qed.

Lemma adds_only_open_read (P : event -> Prop) p : P (EvRead p) -> adds_only (F := F) P (open_read p).
Proof.
  intros Pe st o st' E. unfold open_read in E.
  destruct (fs st !! p) as [[]|]; inversion E; subst; cbn;
    (split; [reflexivity |]);
    first [ exists []; now rewrite app_nil_r
          | exists [EvRead p]; split; [reflexivity | now constructor] ].
Qed.

Lemma adds_only_bind {A B} P (c : M F A) (k : A -> M F B) :
  adds_only (F := F) P c -> (forall a, adds_only (F := F) P (k a)) -> adds_only (F := F) P (bind c k).
Proof.
  intros Hc Hk st o st' E. unfold bind in E.
  destruct (c st) as [[a|e] st1] eqn:Ec.
  - destruct (Hc _ _ _ Ec) as (Hfs & evs1 & Hl1 & HP1).
    destruct (Hk a _ _ _ E) as (Hfs' & evs2 & Hl2 & HP2).
    split; [congruence |]. exists (evs1 ++ evs2).
    split; [rewrite Hl2, Hl1; now rewrite app_assoc | now apply Forall_app].
  - inversion E; subst. exact (Hc _ _ _ Ec).
Qed.

Lemma adds_only_try {A} P (c : M F A) : adds_only (F := F) P c -> adds_only (F := F) P (try_ c).
Proof.
  intros Hc st o st' E. unfold try_ in E.
  destruct (c st) as [o1 st1] eqn:Ec. inversion E; subst. exact (Hc _ _ _ Ec).
Qed.

End Frames.

Ltac frame_step :=
  first
    [ apply adds_only_ret | apply adds_only_raise | apply adds_only_lift
    | apply adds_only_get_self | apply adds_only_set_self
    | apply adds_only_emit
    | apply adds_only_open_read
    | apply adds_only_bind; [| intros ?]
    | match goal with
      | |- adds_only _ (match ?x with _ => _ end) => destruct x
      | |- adds_only _ (if ?b then _ else _) => destruct b
      end ].

Section CachedBranch.
Context {F : Type} `{Arith F}.
Variable rt : Runtime F.

Lemma read_cache_adds_only (d : string) :
  adds_only (cache_read_event d)
    (read_cache (F := F) (embeddings_file d) (index_file d) (metadata_file d)).
Proof.
  unfold read_cache, np_load, faiss_read_index, json_load, set_embeddings, set_index,
    set_questions, set_answers, set_sections.
  repeat frame_step; unfold cache_read_event; auto.
Qed.

Lemma cached_branch_adds_only (d : string) :
  adds_only (cache_read_event d) (cached_branch (F := F) d).
Proof.
  unfold cached_branch, print_len, print.
  repeat first [ apply read_cache_adds_only | frame_step ];
    unfold cache_read_event; auto.
Qed.

End CachedBranch.

(** ** The rebuild branch *)

Section Rebuild.
Context {F : Type} `{Arith F}.
Variable rt : Runtime F.

Lemma is_object_item_ok (items : list json) :
  forallb is_object items = true -> forallb item_ok items = true.
Proof.
  induction items as [|[] items IH]; cbn; intros E; try discriminate; auto.
Qed.

Lemma collect_pairs_spec (items : list json) :
  forall (st : state F) (q0 a0 s0 : list json),
    questions (self st) = JArr q0 ->
    answers (self st) = JArr a0 ->
    sections (self st) = JArr s0 ->
    let done := mk_state (with_pairs (self st) q0 a0 s0 (List.filter usable items))
                  (fs st) (log st) in
    (forallb item_ok items = true -> collect_pairs items st = (Ok tt, done))
    /\ (forall st', collect_pairs items st = (Ok tt, st') -> st' = done).
Proof.
  induction items as [|item items IH]; intros st q0 a0 s0 Hq Ha Hs; cbv zeta.
  - unfold with_pairs. cbn. rewrite !app_nil_r, <- Hq, <- Ha, <- Hs.
    rewrite store_eta, state_eta. split; [reflexivity |].
    intros st' E. now inversion E.
  - cbn [collect_pairs List.filter forallb].
    destruct item as [| b | n | s | l | kv]; cbn [usable item_ok py_contains].
    1-3: (split; [discriminate | intros st' E; discriminate E]).
    + (* a str *)
      unfold bind at 1, lift at 1. unfold bind at 1.
      destruct (str_contains "question" s); cbn [lift ret andb negb].
      * destruct (str_contains "answer" s); cbn [andb negb].
        -- split; [discriminate | intros st' E; discriminate E].
        -- unfold bind at 1. cbn [ret]. apply (IH st q0 a0 s0 Hq Ha Hs).
      * unfold bind at 1. cbn [ret]. apply (IH st q0 a0 s0 Hq Ha Hs).
    + (* a list *)
      unfold bind at 1, lift at 1. unfold bind at 1.
      destruct (existsb (is_json_str "question") l); cbn [lift ret andb negb].
      * destruct (existsb (is_json_str "answer") l); cbn [andb negb].
        -- split; [discriminate | intros st' E; discriminate E].
        -- unfold bind at 1. cbn [ret]. apply (IH st q0 a0 s0 Hq Ha Hs).
      * unfold bind at 1. cbn [ret]. apply (IH st q0 a0 s0 Hq Ha Hs).
    + (* a dict *)
      unfold bind at 1, lift at 1. unfold bind at 1.
      destruct (kv !! "question") as [q|] eqn:Eq; cbn [lift ret andb negb].
      * rewrite bool_decide_eq_true_2 by eauto. cbn [lift andb].
        destruct (kv !! "answer") as [a|] eqn:Ea.
        -- rewrite bool_decide_eq_true_2 by eauto. cbn [andb].
           unfold bind, lift, get_self, set_questions, set_answers, set_sections,
             set_self. cbn -[collect_pairs]. rewrite Eq, Ea, Hq, Ha, Hs.
           cbn -[collect_pairs].
           fold (bind (F := F) (A := unit) (B := unit)).
           match goal with
           | |- context [collect_pairs items ?st1] =>
               specialize (IH st1 (q0 ++ [q]) (a0 ++ [a])
                             (s0 ++ [match kv !! "section" with
                                     | Some v => v
                                     | None => JStr "Unknown"
                                     end]) eq_refl eq_refl eq_refl)
           end.
           cbn in IH. unfold with_pairs in *. cbn.
           rewrite Eq, Ea. rewrite <- !app_assoc in IH. exact IH.
        -- rewrite bool_decide_eq_false_2 by (intros [? ?]; discriminate).
           cbn [andb]. unfold bind at 1. cbn [ret].
           apply (IH st q0 a0 s0 Hq Ha Hs).
      * rewrite bool_decide_eq_false_2 by (intros [? ?]; discriminate).
        cbn [andb]. unfold bind at 1. cbn [ret].
        apply (IH st q0 a0 s0 Hq Ha Hs).
Qed.

End Rebuild.

Section FinishRebuild.
Context {F : Type} `{Arith F}.
Variable rt : Runtime F.

Lemma write_file_run (p : string) (f : file F) (st : state F) :
  write_file p f st =
    if is_dir (fs st) p then (Raise IsADirectoryError, st)
    else (Ok tt, mk_state (self st) (<[p := f]> (fs st)) (log st ++ [EvWrite p])).
Proof.
  unfold write_file, is_dir. destruct (fs st !! p) as [[]|]; reflexivity.
Qed.

Lemma is_dir_insert_ne (files : gmap string (file F)) (p q : string) (f : file F) :
  p <> q -> is_dir (<[p := f]> files) q = is_dir files q.
Proof. intros Hne. unfold is_dir. now rewrite lookup_insert_ne. Qed.

Lemma faiss_add_new (x : ndarray F) :
  faiss_add (mk_index (ncols x) []) (normalize x) = Ok (built_index x).
Proof. unfold faiss_add, built_index. cbn. now rewrite Nat.eqb_refl. Qed.

Lemma finish_rebuild_empty (cache_dir : string) (st : state F) :
  questions (self st) = JArr [] ->
  finish_rebuild rt cache_dir st = (Raise (ValueError msg_no_pairs), st).
Proof.
  intros Hq. unfold finish_rebuild, bind, get_self. rewrite Hq. reflexivity.
Qed.

Lemma artifacts_writable_inv (files : gmap string (file F)) (d : string) :
  artifacts_writable files d = true ->
  is_dir files (embeddings_file d) = false
  /\ is_dir files (index_file d) = false
  /\ is_dir files (metadata_file d) = false.
Proof.
  unfold artifacts_writable. intros E.
  apply andb_prop in E as [E E3]. apply andb_prop in E as [E1 E2].
  apply negb_true_iff in E1, E2, E3. auto.
Qed.

Lemma finish_rebuild_ok (cache_dir : string) (st : state F) q qs m x :
  questions (self st) = JArr (q :: qs) ->
  effective_model rt (self st) = Some m ->
  model_encode rt m (passages rt (q :: qs)) = Some x ->
  artifacts_writable (fs st) cache_dir = true ->
  finish_rebuild rt cache_dir st =
    (Ok tt, mk_state (rebuilt (self st) m x)
              (cache_written (fs st) cache_dir (self st) x)
              (log st ++ finish_events rt cache_dir (self st) (q :: qs))).
Proof.
  intros Hq Hm Hx Hw.
  destruct (artifact_paths_distinct cache_dir) as (D1 & D2 & D3 & _).
  apply artifacts_writable_inv in Hw as (W1 & W2 & W3).
  unfold finish_rebuild, finish_events, model_events, effective_model in *.
  unfold bind at 1, get_self at 1. rewrite Hq. cbn [py_truthy negb].
  unfold print_len, _load_model, encode, self_embeddings, self_index, print.
  unfold bind, lift, ret, raise, get_self, set_embeddings, set_index, set_model,
    set_self, emit.
  cbn [py_len py_iter self fs log model model_name embeddings index questions answers sections].
  fold (passages rt (q :: qs)).
  assert (Hrun : forall m0, model (self st) = m0 ->
            (m0 = Some m \/ (m0 = None /\ model_available rt (model_name (self st)) = true
                             /\ m = model_name (self st)))).
  { intros m0 E. rewrite E in Hm. destruct m0 as [m0|]; [left; congruence | right].
    destruct (model_available rt (model_name (self st))); [| discriminate].
    inversion Hm. auto. }
  destruct (Hrun _ eq_refl) as [Em | (Em & Hav & ->)]; rewrite Em; clear Hrun Hm;
    repeat (progress (rewrite ?Em, ?Hav, ?Hx;
      cbn [self fs log model model_name embeddings index questions answers sections]));
    change (ncols (normalize x)) with (ncols x);
    rewrite faiss_add_new;
    repeat (progress (rewrite ?write_file_run;
      rewrite ?is_dir_insert_ne by congruence; rewrite ?W1, ?W2, ?W3;
      cbn [self fs log model model_name embeddings index questions answers sections]));
    unfold rebuilt, cache_written;
    rewrite <- !app_assoc; reflexivity.
Qed.

End FinishRebuild.

Section FinishRebuildCases.
Context {F : Type} `{Arith F}.
Variable rt : Runtime F.

Ltac run_finish Hq l :=
  unfold finish_rebuild;
  unfold bind at 1, get_self at 1; rewrite Hq; cbn [py_truthy negb];
  unfold print_len, _load_model, encode, self_embeddings, self_index, print;
  unfold bind, lift, ret, raise, get_self, set_embeddings, set_index, set_model,
    set_self, emit;
  cbn [py_len py_iter self fs log model model_name embeddings index questions answers sections];
  fold (passages rt l).

(** A rebuild with at least one usable record fails only when the model
    cannot be loaded, when [encode] fails, or when an artifact path is a
    directory. *)
Lemma finish_rebuild_cases (cache_dir : string) (st : state F) q qs :
  questions (self st) = JArr (q :: qs) ->
  match effective_model rt (self st) with
  | None => fst (finish_rebuild rt cache_dir st) = Raise ModelLoadError
  | Some m =>
      match model_encode rt m (passages rt (q :: qs)) with
      | None => fst (finish_rebuild rt cache_dir st) = Raise EncodeError
      | Some x =>
          if artifacts_writable (fs st) cache_dir
          then finish_rebuild rt cache_dir st =
                 (Ok tt, mk_state (rebuilt (self st) m x)
                           (cache_written (fs st) cache_dir (self st) x)
                           (log st ++ finish_events rt cache_dir (self st) (q :: qs)))
          else fst (finish_rebuild rt cache_dir st) = Raise IsADirectoryError
      end
  end.
Proof.
  intros Hq.
  destruct (effective_model rt (self st)) as [m|] eqn:Hm.
  - destruct (model_encode rt m (passages rt (q :: qs))) as [x|] eqn:Hx.
    + destruct (artifacts_writable (fs st) cache_dir) eqn:Hw.
      * now apply finish_rebuild_ok.
      * destruct (artifact_paths_distinct cache_dir) as (D1 & D2 & D3 & _).
        unfold artifacts_writable in Hw. unfold effective_model in Hm.
        run_finish Hq (q :: qs).
        destruct (model (self st)) as [m0|] eqn:Em;
          [| destruct (model_available rt (model_name (self st))) eqn:Hav; [| discriminate]];
          inversion Hm; subst m;
          destruct (is_dir (fs st) (embeddings_file cache_dir)) eqn:W1;
          destruct (is_dir (fs st) (index_file cache_dir)) eqn:W2;
          destruct (is_dir (fs st) (metadata_file cache_dir)) eqn:W3;
          try discriminate Hw;
          repeat (progress (rewrite ?Em, ?Hav, ?Hx;
            cbn [self fs log model model_name embeddings index questions answers sections]));
          change (ncols (normalize x)) with (ncols x);
          rewrite faiss_add_new;
          repeat (progress (rewrite ?write_file_run;
            rewrite ?is_dir_insert_ne by congruence; rewrite ?W1, ?W2, ?W3;
            cbn [self fs log model model_name embeddings index questions answers sections]));
          reflexivity.
    + unfold effective_model in Hm. run_finish Hq (q :: qs).
      destruct (model (self st)) as [m0|] eqn:Em;
        [| destruct (model_available rt (model_name (self st))) eqn:Hav; [| discriminate]];
        inversion Hm; subst m;
        repeat (progress (rewrite ?Em, ?Hav, ?Hx;
          cbn [self fs log model model_name embeddings index questions answers sections]));
        reflexivity.
  - unfold effective_model in Hm. run_finish Hq (q :: qs).
    destruct (model (self st)) as [m0|] eqn:Em; [discriminate |].
    destruct (model_available rt (model_name (self st))) eqn:Hav; [discriminate |].
    reflexivity.
Qed.

Lemma finish_rebuild_inv (cache_dir : string) (st st' : state F) qs :
  questions (self st) = JArr qs ->
  finish_rebuild rt cache_dir st = (Ok tt, st') ->
  qs <> []
  /\ exists m x,
       effective_model rt (self st) = Some m
       /\ model_encode rt m (passages rt qs) = Some x
       /\ artifacts_writable (fs st) cache_dir = true
       /\ st' = mk_state (rebuilt (self st) m x)
                  (cache_written (fs st) cache_dir (self st) x)
                  (log st ++ finish_events rt cache_dir (self st) qs).
Proof.
  intros Hq E. destruct qs as [|q qs].
  - rewrite finish_rebuild_empty in E by exact Hq. discriminate.
  - split; [discriminate |].
    pose proof (finish_rebuild_cases cache_dir st q qs Hq) as C.
    destruct (effective_model rt (self st)) as [m|] eqn:Hm;
      [| rewrite E in C; discriminate].
    destruct (model_encode rt m (passages rt (q :: qs))) as [x|] eqn:Hx;
      [| rewrite E in C; discriminate].
    destruct (artifacts_writable (fs st) cache_dir) eqn:Hw;
      [| rewrite E in C; discriminate].
    exists m, x. split; [reflexivity |]. split; [exact Hx |]. split; [reflexivity |].
    rewrite E in C. now inversion C.
Qed.

Lemma finish_rebuild_no_pairs_iff (cache_dir : string) (st : state F) qs :
  questions (self st) = JArr qs ->
  fst (finish_rebuild rt cache_dir st) = Raise (ValueError msg_no_pairs) <-> qs = [].
Proof.
  intros Hq. split.
  - destruct qs as [|q qs]; [reflexivity |]. intros E.
    pose proof (finish_rebuild_cases cache_dir st q qs Hq) as C.
    destruct (effective_model rt (self st)) as [m|]; [| congruence].
    destruct (model_encode rt m (passages rt (q :: qs))) as [x|]; [| congruence].
    destruct (artifacts_writable (fs st) cache_dir); [| congruence].
    rewrite C in E. discriminate.
  - intros ->. now rewrite finish_rebuild_empty.
Qed.

End FinishRebuildCases.

Section RebuildBranch.
Context {F : Type} `{Arith F}.
Variable rt : Runtime F.

Lemma parse_lines_decode (lines : list string) :
  forall rows,
    parse_lines rt lines rows =
      obind (decode_lines rt (corpus_lines lines)) (fun vs => Ok (rows ++ vs)).
Proof.
  induction lines as [|line lines IH]; intros rows; cbn [parse_lines].
  - cbn. now rewrite app_nil_r.
  - unfold corpus_lines in *. cbn [map List.filter].
    destruct (String.eqb (strip line) ""); cbn [negb]; [apply IH |].
    cbn [decode_lines]. destruct (json_loads rt (strip line)) as [v|]; [| reflexivity].
    rewrite IH. destruct (decode_lines rt _) as [vs|e]; cbn; [| reflexivity].
    now rewrite <- app_assoc.
Qed.

Lemma decode_lines_ok (ls : list string) (vs : list json) :
  decode_lines rt ls = Ok vs <-> Forall2 (fun l v => json_loads rt l = Some v) ls vs.
Proof.
  revert vs. induction ls as [|l ls IH]; intros vs; cbn.
  - split; [intros E; inversion E; constructor | intros E; inversion E; reflexivity].
  - destruct (json_loads rt l) as [v|] eqn:El.
    + destruct (decode_lines rt ls) as [ws|e]; cbn.
      * split.
        -- intros E. inversion E; subst. constructor; [exact El | now apply IH].
        -- intros E. inversion E as [|? ? ? ? E1 E2]; subst.
           apply IH in E2. inversion E2; subst. congruence.
      * split; [discriminate |].
        intros E. inversion E as [|? ? ? ? E1 E2]; subst. apply IH in E2. discriminate.
    + split; [discriminate |]. intros E. inversion E; congruence.
Qed.

(** The branch up to the loop, on a corpus whose lines all decode. *)
Lemma rebuild_branch_front (policies_file cache_dir : string) (st : state F) lines items :
  fs st !! policies_file = Some (TextFile lines) ->
  parse_lines rt lines [] = Ok items ->
  rebuild_branch rt policies_file cache_dir st =
    bind (collect_pairs items) (fun _ => finish_rebuild rt cache_dir)
      (mk_state (reset_lists (self st)) (fs st) (log st ++ [EvPrint; EvRead policies_file])).
Proof.
  intros Hf Hp. unfold rebuild_branch.
  unfold bind at 1, print at 1, emit at 1.
  unfold bind at 1, load_jsonl, read_lines. unfold bind at 1. unfold bind at 1.
  unfold open_read. cbn [fs self log]. rewrite Hf. cbn [ret lift]. rewrite Hp.
  unfold bind at 1, set_questions at 1, set_self at 1.
  unfold bind at 1, set_answers at 1, set_self at 1.
  unfold bind at 1, set_sections at 1, set_self at 1.
  cbn [self fs log model model_name embeddings index questions answers sections].
  unfold reset_lists. now rewrite <- app_assoc.
Qed.

(** A corpus that cannot be read or decoded aborts the branch: the loop is
    not reached, nothing is encoded or written. *)
Lemma rebuild_branch_unreadable (policies_file cache_dir : string) (st : state F) :
  (forall lines items, fs st !! policies_file = Some (TextFile lines) ->
                       parse_lines rt lines [] <> Ok items) ->
  exists e st', rebuild_branch rt policies_file cache_dir st = (Raise e, st')
                /\ fs st' = fs st /\ self st' = self st.
Proof.
  intros Hbad. unfold rebuild_branch.
  unfold bind at 1, print at 1, emit at 1.
  unfold bind at 1, load_jsonl, read_lines. unfold bind at 1. unfold bind at 1.
  unfold open_read. cbn [fs self log].
  destruct (fs st !! policies_file) as [[| lines | | |]|] eqn:Hf;
    cbn [ret lift raise]; try (eexists _, _; split; [reflexivity | split; reflexivity]).
  destruct (parse_lines rt lines []) as [items|e] eqn:Hp.
  - exfalso. now apply (Hbad lines items).
  - eexists _, _; split; [reflexivity | split; reflexivity].
Qed.

Lemma rebuild_branch_decode_error (policies_file cache_dir : string) (st : state F) lines :
  fs st !! policies_file = Some (TextFile lines) ->
  parse_lines rt lines [] = Raise JSONDecodeError ->
  rebuild_branch rt policies_file cache_dir st =
    (Raise JSONDecodeError,
     mk_state (self st) (fs st) (log st ++ [EvPrint; EvRead policies_file])).
Proof.
  intros Hf Hp. unfold rebuild_branch.
  unfold bind at 1, print at 1, emit at 1.
  unfold bind at 1, load_jsonl, read_lines. unfold bind at 1. unfold bind at 1.
  unfold open_read. cbn [fs self log]. rewrite Hf. cbn [ret lift]. rewrite Hp.
  now rewrite <- app_assoc.
Qed.

Lemma effective_model_reset (s : PolicyVectorStore F) (us : list json) :
  effective_model rt (with_pairs (reset_lists s) [] [] [] us) = effective_model rt s.
Proof. reflexivity. Qed.

Lemma rebuild_branch_inv (policies_file cache_dir : string) (st st' : state F) :
  rebuild_branch rt policies_file cache_dir st = (Ok tt, st') ->
  exists lines items m x,
    fs st !! policies_file = Some (TextFile lines)
    /\ parse_lines rt lines [] = Ok items
    /\ List.filter usable items <> []
    /\ effective_model rt (self st) = Some m
    /\ model_encode rt m (passages rt (map question_of (List.filter usable items))) = Some x
    /\ artifacts_writable (fs st) cache_dir = true
    /\ st' = mk_state (indexed (self st) (List.filter usable items) m x)
               (cache_written (fs st) cache_dir
                  (indexed (self st) (List.filter usable items) m x) x)
               (log st ++ rebuild_events rt policies_file cache_dir (self st)
                            (List.filter usable items)).
Proof.
  intros E.
  destruct (fs st !! policies_file) as [[| lines | | |]|] eqn:Hf;
    try (destruct (rebuild_branch_unreadable policies_file cache_dir st) as (e & st1 & E1 & _);
         [intros ? ? Hc; congruence | congruence]).
  destruct (parse_lines rt lines []) as [items|e] eqn:Hp;
    [| destruct (rebuild_branch_unreadable policies_file cache_dir st) as (e' & st1 & E1 & _);
       [intros ? ? Hc; congruence | congruence]].
  rewrite (rebuild_branch_front _ _ _ _ _ Hf Hp) in E.
  apply bind_ok_inv in E as ([] & st1 & Ec & Ef).
  set (st0 := mk_state (reset_lists (self st)) (fs st)
                (log st ++ [EvPrint; EvRead policies_file])) in *.
  destruct (collect_pairs_spec items st0 [] [] [] eq_refl eq_refl eq_refl) as [_ Hc].
  apply Hc in Ec. subst st1. cbn [app] in Ef.
  apply (finish_rebuild_inv rt cache_dir _ _ (map question_of (List.filter usable items)))
    in Ef; [| reflexivity].
  destruct Ef as (Hne & m & x & Hm & Hx & Hw & ->).
  exists lines, items, m, x. repeat (split; [try assumption |]).
  - reflexivity.
  - intros E0. apply Hne. now rewrite E0.
  - unfold rebuild_events. cbn [self fs log]. unfold st0.
    cbn [self fs log]. unfold indexed, rebuilt, cache_written, with_pairs, reset_lists.
    cbn [self fs log model model_name embeddings index questions answers sections app].
    rewrite <- app_assoc. reflexivity.
Qed.

Lemma rebuild_branch_ok (policies_file cache_dir : string) (st : state F) lines items m x :
  fs st !! policies_file = Some (TextFile lines) ->
  parse_lines rt lines [] = Ok items ->
  forallb item_ok items = true ->
  List.filter usable items <> [] ->
  effective_model rt (self st) = Some m ->
  model_encode rt m (passages rt (map question_of (List.filter usable items))) = Some x ->
  artifacts_writable (fs st) cache_dir = true ->
  rebuild_branch rt policies_file cache_dir st =
    (Ok tt, mk_state (indexed (self st) (List.filter usable items) m x)
              (cache_written (fs st) cache_dir
                 (indexed (self st) (List.filter usable items) m x) x)
              (log st ++ rebuild_events rt policies_file cache_dir (self st)
                           (List.filter usable items))).
Proof.
  intros Hf Hp Hok Hne Hm Hx Hw.
  rewrite (rebuild_branch_front _ _ _ _ _ Hf Hp).
  set (st0 := mk_state (reset_lists (self st)) (fs st)
                (log st ++ [EvPrint; EvRead policies_file])).
  destruct (collect_pairs_spec items st0 [] [] [] eq_refl eq_refl eq_refl) as [Hc _].
  rewrite (bind_ok _ _ _ _ _ (Hc Hok)). cbn [app].
  destruct (map question_of (List.filter usable items)) as [|q qs] eqn:Eq.
  { destruct (List.filter usable items); [congruence | discriminate]. }
  match goal with
  | |- finish_rebuild rt cache_dir ?st1 = _ =>
      assert (Hq : questions (self st1) = JArr (q :: qs)) by (cbn; now rewrite Eq);
      rewrite (finish_rebuild_ok rt cache_dir st1 q qs m x Hq Hm Hx Hw)
  end.
  unfold rebuild_events, st0. cbn [self fs log].
  unfold indexed, rebuilt, cache_written, with_pairs, reset_lists.
  cbn [self fs log model model_name embeddings index questions answers sections app].
  rewrite Eq, <- app_assoc. reflexivity.
Qed.

End RebuildBranch.

(** ** The claims on [save_index], [load_index] and the cached branch *)

Section CacheClaims.
Context {F : Type} `{Arith F}.
Variable rt : Runtime F.

(** C10. [save_index] is a no-op alias: whatever the object and the cache
    directory, it returns normally, leaves every field of the object and
    every file as they were, and only prints one line. *)
Theorem save_index_changes_nothing (cache_dir : string) (st : state F) :
  exists st',
    save_index cache_dir st = (Ok tt, st')
    /\ self st' = self st
    /\ fs st' = fs st
    /\ log st' = log st ++ [EvPrint].
Proof. eexists. split; [reflexivity |]. cbn. auto. Qed.

Lemma retrieve_without_index (query : string) (top_k : Z) (st : state F) :
  index (self st) = None ->
  retrieve rt query top_k st = (Raise (ValueError msg_not_loaded), st).
Proof. intros Hix. unfold retrieve, bind, get_self. now rewrite Hix. Qed.

(** An engine exists only when the guarded imports succeeded. *)
Lemma init_ok_have_rag (name : string) (s : PolicyVectorStore F) :
  __init__ rt name = Ok s -> HAVE_RAG rt = true.
Proof. unfold __init__. destruct (HAVE_RAG rt); [reflexivity | discriminate]. Qed.

(** C2. With one of the three artifacts absent, [load_index] raises
    FileNotFoundError before it assigns anything: the object and the world
    are exactly as before, so an engine that had no index still has none
    and [retrieve] refuses to run on it.  With the three artifacts present
    and readable, it populates the five fields from them. *)
Theorem load_index_all_or_nothing (cache_dir : string) (st : state F) :
  HAVE_RAG rt = true ->
  (cache_complete (fs st) cache_dir = false ->
     load_index rt cache_dir st = (Raise FileNotFoundError, st)
     /\ (index (self st) = None ->
         forall query top_k,
           fst (retrieve rt query top_k st) = Raise (ValueError msg_not_loaded)))
  /\ (forall arrays x ix kv q a sec n,
        fs st !! embeddings_file cache_dir = Some (NpzFile arrays) ->
        arrays !! "embeddings" = Some x ->
        fs st !! index_file cache_dir = Some (FaissFile ix) ->
        fs st !! metadata_file cache_dir = Some (JsonFile (JObj kv)) ->
        kv !! "questions" = Some q ->
        kv !! "answers" = Some a ->
        kv !! "sections" = Some sec ->
        py_len q = Ok n ->
        exists st',
          load_index rt cache_dir st = (Ok tt, st')
          /\ embeddings (self st') = Some x
          /\ index (self st') = Some ix
          /\ questions (self st') = q
          /\ answers (self st') = a
          /\ sections (self st') = sec
          /\ fs st' = fs st).
Proof.
  intros Hrag. split.
  - intros Hmiss. split; [now apply load_index_missing |].
    intros Hix query top_k. now rewrite retrieve_without_index.
  - intros arrays x ix kv q a sec n He Hx Hi Hm Hq Ha Hs Hn.
    eexists. split; [eapply load_index_present; eassumption |].
    cbn. auto 10.
Qed.

(** C3 (as the code has it).  [load_index] makes no check on the lengths of
    the three metadata arrays: with the three artifacts present, it succeeds
    and stores the arrays as they are, of whatever lengths. *)
Theorem load_index_no_length_check (cache_dir : string) (st : state F)
    arrays x ix kv (qs ans secs : list json) :
  HAVE_RAG rt = true ->
  fs st !! embeddings_file cache_dir = Some (NpzFile arrays) ->
  arrays !! "embeddings" = Some x ->
  fs st !! index_file cache_dir = Some (FaissFile ix) ->
  fs st !! metadata_file cache_dir = Some (JsonFile (JObj kv)) ->
  kv !! "questions" = Some (JArr qs) ->
  kv !! "answers" = Some (JArr ans) ->
  kv !! "sections" = Some (JArr secs) ->
  exists st',
    load_index rt cache_dir st = (Ok tt, st')
    /\ questions (self st') = JArr qs
    /\ answers (self st') = JArr ans
    /\ sections (self st') = JArr secs
    /\ index (self st') = Some ix
    /\ embeddings (self st') = Some x.
Proof.
  intros Hrag He Hx Hi Hm Hq Ha Hs.
  eexists. split.
  - eapply load_index_present; try eassumption. reflexivity.
  - cbn. auto 10.
Qed.

(** On a complete cache [load_index] is the cached branch of
    [build_index]. *)
Lemma load_index_complete (cache_dir : string) (st : state F) :
  HAVE_RAG rt = true ->
  cache_complete (fs st) cache_dir = true ->
  load_index rt cache_dir st = cached_branch cache_dir st.
Proof.
  intros Hrag Hc.
  unfold cache_complete, file_exists, embeddings_file, index_file, metadata_file in Hc.
  unfold load_index, _ensure_rag_available. rewrite Hrag.
  unfold bind at 1. cbn [ret].
  unfold bind at 1, path_exists at 1. unfold bind at 1, path_exists at 1.
  unfold bind at 1, path_exists at 1.
  rewrite Hc. reflexivity.
Qed.

Lemma after_makedirs_dir (cache_dir : string) (st : state F) :
  is_dir (fs st) cache_dir = true -> after_makedirs cache_dir st = st.
Proof.
  unfold is_dir, after_makedirs. destruct (fs st !! cache_dir); [reflexivity | discriminate].
Qed.

Lemma is_dir_can_makedirs (cache_dir : string) (st : state F) :
  is_dir (fs st) cache_dir = true -> can_makedirs (fs st) cache_dir = true.
Proof.
  unfold is_dir, can_makedirs. destruct (fs st !! cache_dir) as [[]|]; congruence.
Qed.

Lemma cache_read_not_recompute (d : string) (e : event) :
  cache_read_event d e \/ e = EvMkdir d -> recompute_event e = false.
Proof. intros [[-> | [-> | [-> | ->]]] | ->]; reflexivity. Qed.

(** With a complete cache, whatever else holds, [build_index] encodes
    nothing, loads no model and writes no file. *)
Lemma build_index_complete_quiet (policies_file cache_dir : string) (st st' : state F) o :
  build_index rt policies_file cache_dir st = (o, st') ->
  cache_complete (fs st) cache_dir = true ->
  exists evs, log st' = log st ++ evs
              /\ Forall (fun e => cache_read_event cache_dir e \/ e = EvMkdir cache_dir) evs.
Proof.
  intros E Hc. rewrite build_index_cases, Hc in E.
  destruct (HAVE_RAG rt); cbn [negb] in E;
    [| inversion E; subst; exists []; now rewrite app_nil_r].
  destruct (file_exists (fs st) policies_file); cbn [negb] in E;
    [| inversion E; subst; exists []; now rewrite app_nil_r].
  destruct (can_makedirs (fs st) cache_dir); cbn [negb] in E;
    [| inversion E; subst; exists []; now rewrite app_nil_r].
  destruct (cached_branch_adds_only cache_dir _ _ _ E) as (_ & evs & Hl & HP).
  unfold after_makedirs in Hl. destruct (fs st !! cache_dir).
  - exists evs. split; [exact Hl |]. eapply Forall_impl; [exact HP | auto].
  - cbn [log] in Hl. exists (EvMkdir cache_dir :: evs). split.
    + rewrite Hl, <- app_assoc. reflexivity.
    + constructor; [auto |]. eapply Forall_impl; [exact HP | auto].
Qed.


End CacheClaims.

(** ** The claims on the rebuild branch *)

Section RebuildClaims.
Context {F : Type} `{Arith F}.
Variable rt : Runtime F.

Lemma after_makedirs_lookup (cache_dir p : string) (st : state F) (f : file F) :
  fs st !! p = Some f -> fs (after_makedirs cache_dir st) !! p = Some f.
Proof.
  intros Hp. unfold after_makedirs. destruct (fs st !! cache_dir) eqn:Hd; [exact Hp |].
  cbn [fs]. rewrite lookup_insert_ne; [exact Hp | congruence].
Qed.

Lemma after_makedirs_lookup_text (cache_dir p : string) (st : state F) lines :
  fs (after_makedirs cache_dir st) !! p = Some (TextFile lines) ->
  fs st !! p = Some (TextFile lines).
Proof.
  unfold after_makedirs. destruct (fs st !! cache_dir) eqn:Hd; [auto |].
  cbn [fs]. destruct (decide (cache_dir = p)) as [-> | Hne].
  - rewrite lookup_insert_eq. discriminate.
  - now rewrite lookup_insert_ne.
Qed.

Lemma after_makedirs_self (cache_dir : string) (st : state F) :
  self (after_makedirs cache_dir st) = self st.
Proof. unfold after_makedirs. now destruct (fs st !! cache_dir). Qed.

Lemma artifacts_writable_after_makedirs (cache_dir : string) (st : state F) :
  artifacts_writable (fs (after_makedirs cache_dir st)) cache_dir
  = artifacts_writable (fs st) cache_dir.
Proof.
  unfold after_makedirs. destruct (fs st !! cache_dir); [reflexivity |].
  destruct (artifact_paths_distinct cache_dir) as (_ & _ & _ & D1 & D2 & D3).
  unfold artifacts_writable. cbn [fs].
  rewrite !is_dir_insert_ne by congruence. reflexivity.
Qed.

Lemma file_exists_lookup (files : gmap string (file F)) (p : string) (f : file F) :
  files !! p = Some f -> file_exists files p = true.
Proof. intros E. unfold file_exists. apply bool_decide_eq_true_2. eauto. Qed.

(** With an artifact missing, [build_index] is its rebuild branch. *)
Lemma build_index_rebuilds (policies_file cache_dir : string) (st : state F) :
  HAVE_RAG rt = true ->
  file_exists (fs st) policies_file = true ->
  can_makedirs (fs st) cache_dir = true ->
  cache_complete (fs st) cache_dir = false ->
  build_index rt policies_file cache_dir st =
    rebuild_branch rt policies_file cache_dir (after_makedirs cache_dir st).
Proof.
  intros Hrag Hpf Hmk Hc. now rewrite build_index_cases, Hrag, Hpf, Hmk, Hc.
Qed.

Lemma build_index_ok_rebuilds (policies_file cache_dir : string) (st st' : state F) :
  build_index rt policies_file cache_dir st = (Ok tt, st') ->
  cache_complete (fs st) cache_dir = false ->
  rebuild_branch rt policies_file cache_dir (after_makedirs cache_dir st) = (Ok tt, st').
Proof.
  intros E Hc. rewrite build_index_cases, Hc in E.
  destruct (HAVE_RAG rt); [| discriminate].
  destruct (file_exists (fs st) policies_file); [| discriminate].
  destruct (can_makedirs (fs st) cache_dir); [| discriminate].
  exact E.
Qed.

Lemma decode_lines_error (ls : list string) :
  Exists (fun l => json_loads rt l = None) ls -> decode_lines rt ls = Raise JSONDecodeError.
Proof.
  induction 1 as [l ls Hl | l ls _ IH]; cbn.
  - now rewrite Hl.
  - destruct (json_loads rt l); [| reflexivity]. now rewrite IH.
Qed.

Lemma map_question_of_nil (us : list json) : map question_of us = [] <-> us = [].
Proof. destruct us; cbn; split; congruence. Qed.


Lemma length_passages (qs : list json) : length (passages rt qs) = length qs.
Proof. unfold passages. now rewrite length_map. Qed.


End RebuildClaims.

(** ** Reading the cache back *)

Section RoundTrip.
Context {F : Type} `{Arith F}.
Variable rt : Runtime F.

Lemma read_cache_inv (e i m : string) (st st' : state F) :
  read_cache e i m st = (Ok tt, st') ->
  exists arrays x ix kv q a sec,
    fs st !! e = Some (NpzFile arrays)
    /\ arrays !! "embeddings" = Some x
    /\ fs st !! i = Some (FaissFile ix)
    /\ fs st !! m = Some (JsonFile (JObj kv))
    /\ kv !! "questions" = Some q
    /\ kv !! "answers" = Some a
    /\ kv !! "sections" = Some sec
    /\ st' = mk_state (loaded (self st) x ix q a sec) (fs st)
               (log st ++ [EvRead e; EvRead i; EvRead m]).
Proof.
  intros E.
  unfold read_cache, np_load, faiss_read_index, json_load, bind, open_read, lift,
    set_embeddings, set_index, set_questions, set_answers, set_sections, set_self, ret,
    raise in E.
  cbn [self fs log] in E.
  destruct (fs st !! e) as [[| | arrays | |]|] eqn:He; try discriminate E.
  cbn [self fs log] in E.
  destruct (arrays !! "embeddings") as [x|] eqn:Hx; try discriminate E.
  cbn [self fs log] in E.
  destruct (fs st !! i) as [[| | | ix |]|] eqn:Hi; try discriminate E.
  cbn [self fs log] in E.
  destruct (fs st !! m) as [[| | | | doc]|] eqn:Hm; try discriminate E.
  cbn [self fs log] in E.
  destruct doc as [| | | | | kv]; try discriminate E.
  cbn [py_getitem] in E.
  destruct (kv !! "questions") as [q|] eqn:Hq; try discriminate E.
  cbn [self fs log] in E.
  destruct (kv !! "answers") as [a|] eqn:Ha; try discriminate E.
  cbn [self fs log] in E.
  destruct (kv !! "sections") as [sec|] eqn:Hs; try discriminate E.
  cbn [self fs log model model_name embeddings index questions answers sections] in E.
  inversion E; subst st'.
  exists arrays, x, ix, kv, q, a, sec. repeat (split; [reflexivity |]).
  unfold loaded. now rewrite <- !app_assoc.
Qed.

Lemma cached_branch_inv (cache_dir : string) (st st' : state F) :
  cached_branch cache_dir st = (Ok tt, st') ->
  exists arrays x ix kv q a sec n,
    fs st !! embeddings_file cache_dir = Some (NpzFile arrays)
    /\ arrays !! "embeddings" = Some x
    /\ fs st !! index_file cache_dir = Some (FaissFile ix)
    /\ fs st !! metadata_file cache_dir = Some (JsonFile (JObj kv))
    /\ kv !! "questions" = Some q
    /\ kv !! "answers" = Some a
    /\ kv !! "sections" = Some sec
    /\ py_len q = Ok n
    /\ self st' = loaded (self st) x ix q a sec
    /\ fs st' = fs st.
Proof.
  intros E. unfold cached_branch in E.
  apply bind_ok_inv in E as ([] & st1 & E1 & E).
  inversion E1; subst st1; clear E1.
  apply bind_ok_inv in E as ([] & st2 & E2 & E).
  apply read_cache_inv in E2
    as (arrays & x & ix & kv & q & a & sec & He & Hx & Hi & Hm & Hq & Ha & Hs & ->).
  cbn [fs] in *.
  unfold bind, get_self, print_len, lift, print, emit in E.
  cbn [self fs log questions loaded] in E.
  destruct (py_len q) as [n|] eqn:Hn; [| discriminate].
  inversion E; subst st'.
  exists arrays, x, ix, kv, q, a, sec, n. cbn. auto 12.
Qed.

(** After a successful [build_index] the cache is complete and readable,
    and holds what the object holds. *)
Lemma build_index_leaves_cache (policies_file cache_dir : string) (st st1 : state F) :
  build_index rt policies_file cache_dir st = (Ok tt, st1) ->
  exists arrays x ix kv n,
    fs st1 !! embeddings_file cache_dir = Some (NpzFile arrays)
    /\ arrays !! "embeddings" = Some x
    /\ fs st1 !! index_file cache_dir = Some (FaissFile ix)
    /\ fs st1 !! metadata_file cache_dir = Some (JsonFile (JObj kv))
    /\ kv !! "questions" = Some (questions (self st1))
    /\ kv !! "answers" = Some (answers (self st1))
    /\ kv !! "sections" = Some (sections (self st1))
    /\ py_len (questions (self st1)) = Ok n
    /\ embeddings (self st1) = Some x
    /\ index (self st1) = Some ix.
Proof.
  intros E.
  destruct (cache_complete (fs st) cache_dir) eqn:Hc.
  - rewrite build_index_cases, Hc in E.
    destruct (HAVE_RAG rt); [| discriminate].
    destruct (file_exists (fs st) policies_file); [| discriminate].
    destruct (can_makedirs (fs st) cache_dir); [| discriminate].
    cbn [negb] in E.
    apply cached_branch_inv in E
      as (arrays & x & ix & kv & q & a & sec & n & He & Hx & Hi & Hm & Hq & Ha & Hs & Hn
          & Hself & Hfs).
    exists arrays, x, ix, kv, n. rewrite Hfs, Hself. cbn. auto 12.
  - apply build_index_ok_rebuilds in E; [| exact Hc].
    apply rebuild_branch_inv in E
      as (lines & items & m & x & Hf & Hp & Hne & Hm & Hx & Hw & ->).
    destruct (artifact_paths_distinct cache_dir) as (D1 & D2 & D3 & _).
    exists {[ "embeddings" := normalize x ]}, (normalize x), (built_index x).
    eexists _, _.
    cbn [self fs]. unfold cache_written.
    split.
    { rewrite lookup_insert_ne by congruence. rewrite lookup_insert_ne by congruence.
      apply lookup_insert_eq. }
    split; [apply lookup_singleton_eq |].
    split.
    { rewrite lookup_insert_ne by congruence. apply lookup_insert_eq. }
    split; [apply lookup_insert_eq |].
    unfold indexed. cbn [questions answers sections embeddings index py_len].
    repeat split; reflexivity.
Qed.

(** [format_results] reads three fields of the object only. *)
Lemma format_results_ext (s s' : PolicyVectorStore F) :
  questions s = questions s' ->
  answers s = answers s' ->
  sections s = sections s' ->
  forall hits i acc, format_results s i hits acc = format_results s' i hits acc.
Proof.
  intros Hq Ha Hs. induction hits as [|[idx dist] hits IH]; intros i acc; cbn.
  - reflexivity.
  - rewrite Hq, Ha, Hs. destruct (py_len (questions s')) as [n|]; cbn; [| reflexivity].
    destruct (idx <? n); [| apply IH].
    destruct (py_index (questions s') idx); cbn; [| reflexivity].
    destruct (py_index (answers s') idx); cbn; [| reflexivity].
    destruct (py_index (sections s') idx); cbn; [| reflexivity].
    apply IH.
Qed.

Lemma retrieve_outcome (query : string) (top_k : Z) (st : state F) :
  fst (retrieve rt query top_k st) = retrieve_pure rt (self st) query top_k.
Proof.
  unfold retrieve, retrieve_pure, effective_model.
  unfold bind at 1, get_self at 1.
  destruct (index (self st)) as [ix|] eqn:Hix; [| reflexivity].
  unfold _load_model, encode, self_index, print.
  unfold bind, lift, ret, raise, get_self, set_model, set_self, emit.
  cbn [self fs log model model_name embeddings index questions answers sections].
  destruct (model (self st)) as [m|] eqn:Em.
  - cbn [self fs log model model_name embeddings index questions answers sections].
    rewrite Em.
    destruct (model_encode rt m ["query: " +:+ query]) as [qv|]; [| reflexivity].
    cbn [self fs log model model_name embeddings index questions answers sections].
    rewrite Hix.
    destruct (faiss_search ix (normalize qv) top_k) as [[D I]|]; [| reflexivity].
    cbn [obind fst snd].
    destruct (list_index I 0) as [i0|]; [| reflexivity]. cbn [obind].
    destruct (list_index D 0) as [d0|]; reflexivity.
  - destruct (model_available rt (model_name (self st))); [| reflexivity].
    cbn [self fs log model model_name embeddings index questions answers sections].
    destruct (model_encode rt (model_name (self st)) ["query: " +:+ query]) as [qv|];
      [| reflexivity].
    cbn [self fs log model model_name embeddings index questions answers sections].
    rewrite Hix.
    destruct (faiss_search ix (normalize qv) top_k) as [[D I]|]; [| reflexivity].
    cbn [obind fst snd].
    destruct (list_index I 0) as [i0|]; [| reflexivity]. cbn [obind].
    destruct (list_index D 0) as [d0|]; [| reflexivity]. cbn [obind].
    apply format_results_ext; reflexivity.
Qed.

Lemma retrieve_pure_ext (s s' : PolicyVectorStore F) (query : string) (top_k : Z) :
  index s = index s' ->
  effective_model rt s = effective_model rt s' ->
  questions s = questions s' ->
  answers s = answers s' ->
  sections s = sections s' ->
  retrieve_pure rt s query top_k = retrieve_pure rt s' query top_k.
Proof.
  intros Hi Hm Hq Ha Hs. unfold retrieve_pure. rewrite Hi, Hm.
  destruct (index s'); [| reflexivity].
  destruct (effective_model rt s'); [| reflexivity].
  destruct (model_encode rt s0 ["query: " +:+ query]); [| reflexivity].
  destruct (faiss_search _ _ _) as [[D I]|]; [| reflexivity]. cbn.
  destruct (list_index I 0); [| reflexivity]. cbn.
  destruct (list_index D 0); [| reflexivity]. cbn.
  now apply format_results_ext.
Qed.

(** A successful [build_index] does not change the model the engine
    embeds with. *)
Lemma effective_model_after_build (policies_file cache_dir : string) (st st1 : state F) :
  build_index rt policies_file cache_dir st = (Ok tt, st1) ->
  effective_model rt (self st1) = effective_model rt (self st).
Proof.
  intros E. destruct (cache_complete (fs st) cache_dir) eqn:Hc.
  - rewrite build_index_cases, Hc in E.
    destruct (HAVE_RAG rt); [| discriminate].
    destruct (file_exists (fs st) policies_file); [| discriminate].
    destruct (can_makedirs (fs st) cache_dir); [| discriminate].
    cbn [negb] in E.
    apply cached_branch_inv in E
      as (arrays & x & ix & kv & q & a & sec & n & _ & _ & _ & _ & _ & _ & _ & _ & Hself & _).
    rewrite Hself, after_makedirs_self. reflexivity.
  - apply build_index_ok_rebuilds in E; [| exact Hc].
    apply rebuild_branch_inv in E
      as (lines & items & m & x & _ & _ & _ & Hm & _ & _ & ->).
    rewrite after_makedirs_self in Hm. rewrite Hm. reflexivity.
Qed.

(** C8. After a successful [build_index], [load_index] on the same cache
    directory, into any engine, succeeds and reproduces the embedding
    matrix, the index and the three metadata lists of the engine that
    built; and when the loading engine embeds queries with the model of the
    building engine (two engines constructed with the same model name, for
    instance), [retrieve] returns the same results for every query and
    every [top_k]. *)
Theorem save_then_load_roundtrip (policies_file cache_dir : string)
    (st st1 : state F) (s0 : PolicyVectorStore F) (log0 : list event) :
  build_index rt policies_file cache_dir st = (Ok tt, st1) ->
  exists st2,
    load_index rt cache_dir (mk_state s0 (fs st1) log0) = (Ok tt, st2)
    /\ embeddings (self st2) = embeddings (self st1)
    /\ index (self st2) = index (self st1)
    /\ questions (self st2) = questions (self st1)
    /\ answers (self st2) = answers (self st1)
    /\ sections (self st2) = sections (self st1)
    /\ fs st2 = fs st1
    /\ (effective_model rt s0 = effective_model rt (self st) ->
        forall query top_k,
          fst (retrieve rt query top_k st2) = fst (retrieve rt query top_k st1)).
Proof.
  intros E.
  assert (Hrag : HAVE_RAG rt = true).
  { rewrite build_index_cases in E. destruct (HAVE_RAG rt); [reflexivity | discriminate]. }
  pose proof (effective_model_after_build _ _ _ _ E) as Hsame.
  destruct (build_index_leaves_cache _ _ _ _ E)
    as (arrays & x & ix & kv & n & He & Hx & Hi & Hm & Hq & Ha & Hs & Hn & Hemb & Hix).
  eexists. split.
  - apply (load_index_present rt cache_dir (mk_state s0 (fs st1) log0)
             arrays x ix kv _ _ _ n Hrag He Hx Hi Hm Hq Ha Hs Hn).
  - cbn [self fs loaded embeddings index questions answers sections].
    repeat (split; [congruence |]).
    intros Hmodel query top_k. rewrite !retrieve_outcome. cbn [self].
    apply retrieve_pure_ext.
    + cbn. congruence.
    + change (effective_model rt s0 = effective_model rt (self st1)). congruence.
    + reflexivity.
    + reflexivity.
    + reflexivity.
Qed.

End RoundTrip.

(** ** [get_context_for_query] *)

Section ContextString.
Context {F : Type} `{Arith F}.
Variable rt : Runtime F.

(** The loop keeps the longest prefix of the formatted entries whose
    lengths add up to at most the limit. *)
Lemma context_loop_spec (limit : Z) (results : list (result F)) :
  forall (parts : list string) (total : Z),
  exists n,
    (n <= length results)%nat
    /\ context_loop rt limit results parts total
       = parts ++ firstn n (map (format_entry rt) results)
    /\ ((0 < n)%nat ->
        total + total_length (firstn n (map (format_entry rt) results)) <= limit)
    /\ ((n < length results)%nat ->
        total + total_length (firstn (S n) (map (format_entry rt) results)) > limit).
Proof.
  induction results as [|r results IH]; intros parts total; cbn [context_loop].
  - exists 0%nat. cbn. rewrite app_nil_r. repeat split; lia.
  - destruct (Z.gtb_spec (total + Z.of_nat (String.length (format_entry rt r))) limit)
      as [Hgt | Hle].
    + exists 0%nat. cbn [firstn length]. rewrite app_nil_r.
      split; [lia |]. split; [reflexivity |]. split; [lia |].
      intros _. unfold total_length. cbn [firstn map fold_right].
         rewrite firstn_O. cbn [fold_right]. lia.
    + destruct (IH (parts ++ [format_entry rt r])
                  (total + Z.of_nat (String.length (format_entry rt r))))
        as (n & Hn & Hloop & Hfit & Hstop).
      exists (S n). cbn [length map firstn]. split; [lia |]. split.
      * rewrite Hloop, <- app_assoc. reflexivity.
      * split.
        -- intros _. destruct n as [|n].
           ++ unfold total_length. cbn [firstn map fold_right].
         rewrite firstn_O. cbn [fold_right]. lia.
           ++ specialize (Hfit ltac:(lia)).
              unfold total_length in *. cbn [fold_right firstn] in *. lia.
        -- intros Hlt. specialize (Hstop ltac:(lia)).
           unfold total_length in *. cbn [fold_right firstn] in *. lia.
Qed.


End ContextString.

(** ** Normalisation, in exact arithmetic *)

Section RealNormalization.
Local Open Scope R_scope.

Lemma real_eps_pos : 0 < feps (F := R).
Proof. cbn. lra. Qed.

Lemma sum_squares_nil : sum_squares (F := R) [] = 0.
Proof. reflexivity. Qed.

Lemma sum_squares_cons (x : R) (v : list R) :
  sum_squares (x :: v) = x * x + sum_squares v.
Proof. reflexivity. Qed.

Lemma sum_squares_nonneg (v : list R) : 0 <= sum_squares v.
Proof.
  induction v as [|x v IH]; [rewrite sum_squares_nil; lra |].
  rewrite sum_squares_cons. pose proof (Rle_0_sqr x) as Hx. unfold Rsqr in Hx. lra.
Qed.

Lemma l2_norm_nonneg (v : list R) : 0 <= l2_norm v.
Proof. unfold l2_norm. cbn [fsqrt real_arith]. apply sqrt_pos. Qed.

Lemma sum_squares_scale (v : list R) (c : R) :
  c <> 0 -> sum_squares (map (fun x => x / c) v) = sum_squares v / (c * c).
Proof.
  intros Hc. induction v as [|x v IH]; cbn [map].
  - rewrite sum_squares_nil. unfold Rdiv. now rewrite Rmult_0_l.
  - rewrite !sum_squares_cons, IH. field. exact Hc.
Qed.

Lemma l2_norm_scale (v : list R) (c : R) :
  0 < c -> l2_norm (map (fun x => x / c) v) = l2_norm v / c.
Proof.
  intros Hc. unfold l2_norm. cbn [fsqrt real_arith].
  rewrite sum_squares_scale by lra.
  rewrite sqrt_div_alt by nra.
  rewrite sqrt_square by lra. reflexivity.
Qed.

(** The norm of a normalised row. *)
Lemma l2_norm_normalize_row (v : list R) :
  l2_norm (normalize_row v) = l2_norm v / (l2_norm v + feps).
Proof.
  unfold normalize_row. cbn [fadd fdiv real_arith].
  apply l2_norm_scale.
  pose proof (l2_norm_nonneg v). pose proof real_eps_pos. lra.
Qed.

Lemma l2_norm_zero (v : list R) : Forall (fun x => x = 0) v -> l2_norm v = 0.
Proof.
  intros Hz. unfold l2_norm. cbn [fsqrt real_arith].
  replace (sum_squares v) with 0; [apply sqrt_0 |].
  induction Hz as [|x v Hx _ IH]; [reflexivity |].
  rewrite sum_squares_cons, <- IH, Hx. lra.
Qed.

Lemma normalize_row_zero (v : list R) :
  Forall (fun x => x = 0) v -> normalize_row v = v.
Proof.
  intros Hz. unfold normalize_row. cbn [fadd fdiv real_arith].
  rewrite (l2_norm_zero v Hz).
  induction Hz as [|x v Hx _ IH]; cbn [map]; [reflexivity |].
  rewrite IH, Hx. f_equal. unfold Rdiv. apply Rmult_0_l.
Qed.

End RealNormalization.

Section NormalizationSites.
Context {F : Type} `{Arith F}.
Variable rt : Runtime F.

(** Build time: what a rebuild stores is the normalised output of the
    provider. *)
Lemma build_index_stores_normalized (policies_file cache_dir : string) (st st' : state F) :
  build_index rt policies_file cache_dir st = (Ok tt, st') ->
  cache_complete (fs st) cache_dir = false ->
  exists m texts x,
    model_encode rt m texts = Some x
    /\ embeddings (self st') = Some (normalize x)
    /\ index (self st') = Some (mk_index (ncols x) (map normalize_row (rows x))).
Proof.
  intros E Hc. apply build_index_ok_rebuilds in E; [| exact Hc].
  apply rebuild_branch_inv in E
    as (lines & items & m & x & _ & _ & _ & _ & Hx & _ & ->).
  eexists m, _, x. split; [exact Hx |]. cbn. auto.
Qed.

(** Query time: the index is searched with the normalised query vector. *)
Lemma retrieve_searches_normalized (query : string) (top_k : Z) (st : state F) ix m qv :
  index (self st) = Some ix ->
  effective_model rt (self st) = Some m ->
  model_encode rt m ["query: " +:+ query] = Some qv ->
  fst (retrieve rt query top_k st) =
    obind (faiss_search ix (normalize qv) top_k) (fun found =>
    obind (list_index (snd found) 0) (fun i0 =>
    obind (list_index (fst found) 0) (fun d0 =>
      format_results (self st) 0 (combine i0 d0) []))).
Proof.
  intros Hix Hm Hq. rewrite retrieve_outcome. unfold retrieve_pure.
  now rewrite Hix, Hm, Hq.
Qed.

End NormalizationSites.

Section RealNormalizationClaim.
Local Open Scope R_scope.

Lemma normalized_norm_gap (v : list R) :
  Rabs (l2_norm (normalize_row v) - 1) = feps / (l2_norm v + feps).
Proof.
  rewrite l2_norm_normalize_row.
  pose proof (l2_norm_nonneg v) as Hn. pose proof real_eps_pos as He.
  set (n := l2_norm v) in *. set (e := feps) in *.
  replace (n / (n + e) - 1) with (- (e / (n + e))) by (field; lra).
  rewrite Rabs_Ropp. apply Rabs_pos_eq.
  apply Rlt_le, Rdiv_lt_0_compat; lra.
Qed.



End RealNormalizationClaim.

(** ** How many results [retrieve] returns *)

Section TopK.
Context {F : Type} `{Arith F}.
Variable rt : Runtime F.

Lemma enumerate_from_labels {A} (l : list A) :
  forall i, Forall (fun p => i <= fst p < i + Z.of_nat (length l)) (enumerate_from i l).
Proof.
  induction l as [|a l IH]; intros i; cbn [enumerate_from length].
  - constructor.
  - constructor; [cbn; lia |].
    eapply Forall_impl; [apply (IH (i + 1)) |]. cbn. intros p Hp. lia.
Qed.

Lemma insert_by_distance_Forall (P : Z * F -> Prop) c l :
  P c -> Forall P l -> Forall P (insert_by_distance c l).
Proof.
  intros Pc. induction 1 as [|b l Pb Pl IH]; cbn.
  - now repeat constructor.
  - destruct (fleb (snd b) (snd c)); repeat constructor; auto.
Qed.

Lemma sort_by_distance_Forall (P : Z * F -> Prop) l :
  Forall P l -> Forall P (sort_by_distance l).
Proof.
  unfold sort_by_distance.
  assert (Hgen : forall acc, Forall P acc -> Forall P l ->
            Forall P (fold_left (fun acc c => insert_by_distance c acc) l acc)).
  { induction l as [|c l IH]; intros acc Hacc Hl; cbn; [exact Hacc |].
    inversion Hl; subst. apply IH; [| assumption].
    now apply insert_by_distance_Forall. }
  intros Hl. apply Hgen; [constructor | exact Hl].
Qed.

Lemma repeat_Forall {A} (P : A -> Prop) a n : P a -> Forall P (repeat a n).
Proof. intros Pa. induction n; cbn; constructor; auto. Qed.

Lemma search_one_length (ix : IndexFlatL2 F) (q : list F) (k : nat) :
  length (search_one ix q k) = k.
Proof.
  unfold search_one. rewrite length_app, repeat_length.
  match goal with |- context [firstn k ?l] => pose proof (firstn_le_length k l) end.
  lia.
Qed.

(** Every label is a position of a stored vector, or [-1]. *)
Lemma search_one_labels (ix : IndexFlatL2 F) (q : list F) (k : nat) :
  Forall (fun p => -1 <= fst p < ntotal ix) (search_one ix q k).
Proof.
  unfold search_one, ntotal. apply Forall_app. split.
  - apply Forall_take, sort_by_distance_Forall.
    apply Forall_fmap. eapply Forall_impl; [apply enumerate_from_labels |].
    cbn. intros p Hp. lia.
  - apply repeat_Forall. cbn. lia.
Qed.

Lemma list_index_ok {A} (l : list A) (i : Z) :
  - Z.of_nat (length l) <= i < Z.of_nat (length l) -> exists a, list_index l i = Ok a.
Proof.
  intros Hi. unfold list_index.
  set (j := if i <? 0 then i + Z.of_nat (length l) else i).
  assert (Hj : 0 <= j < Z.of_nat (length l)).
  { subst j. destruct (Z.ltb_spec i 0); lia. }
  replace ((0 <=? j) && (j <? Z.of_nat (length l))) with true
    by (symmetry; apply andb_true_intro; split; [apply Z.leb_le | apply Z.ltb_lt]; lia).
  destruct (nth_error l (Z.to_nat j)) as [a|] eqn:E; [eauto |].
  apply nth_error_None in E. lia.
Qed.

Lemma format_results_all (s : PolicyVectorStore F) (qs ans secs : list json) (n : nat) :
  questions s = JArr qs -> answers s = JArr ans -> sections s = JArr secs ->
  length qs = n -> length ans = n -> length secs = n ->
  forall hits i acc,
    Forall (fun p => - Z.of_nat n <= fst p < Z.of_nat n) hits ->
    exists rs, format_results s i hits acc = Ok (acc ++ rs)
               /\ length rs = length hits
               /\ ranked_from i rs
               /\ map distance rs = map snd hits.
Proof.
  intros Hq Ha Hs Lq La Ls.
  induction hits as [|[idx dist] hits IH]; intros i acc Hall; cbn [format_results].
  - exists []. rewrite app_nil_r. cbn. auto.
  - apply Forall_cons in Hall as [Hidx Hrest]. cbn [fst] in Hidx.
    rewrite Hq, Ha, Hs. cbn [py_len obind py_index]. rewrite Lq.
    replace (idx <? Z.of_nat n) with true by (symmetry; apply Z.ltb_lt; lia).
    destruct (list_index_ok qs idx) as [q Eq]; [lia |].
    destruct (list_index_ok ans idx) as [a Ea]; [lia |].
    destruct (list_index_ok secs idx) as [sec Es]; [lia |].
    rewrite Eq, Ea, Es. cbn [obind].
    destruct (IH (i + 1) (acc ++ [mk_result q a sec dist (i + 1)]) Hrest)
      as (rs & E & Hlen & Hrank & Hdist).
    exists (mk_result q a sec dist (i + 1) :: rs).
    rewrite E, <- app_assoc. cbn [app length map ranked_from rank distance snd].
    rewrite Hlen, Hdist. repeat split; auto.
Qed.

Lemma list_index_head {A} (a : A) (l : list A) : list_index (a :: l) 0 = Ok a.
Proof. reflexivity. Qed.

Lemma combine_fst_snd {A B} (l : list (A * B)) : combine (map fst l) (map snd l) = l.
Proof. induction l as [|[a b] l IH]; cbn; [reflexivity | now rewrite IH]. Qed.

(** On an index of [n >= 1] records with its three lists of length [n],
    [retrieve] returns exactly [top_k] entries, ranked [1 .. top_k], also
    when [top_k > n]: the labels [-1] that FAISS pads with pass the guard
    [idx < len(self.questions)] and select the last record. *)
Lemma retrieve_returns_top_k_entries (query : string) (top_k : Z) (st : state F)
    ix m v (qs ans secs : list json) :
  index (self st) = Some ix ->
  effective_model rt (self st) = Some m ->
  model_encode rt m ["query: " +:+ query] = Some (mk_ndarray (ix_d ix) [v]) ->
  questions (self st) = JArr qs ->
  answers (self st) = JArr ans ->
  sections (self st) = JArr secs ->
  length qs = length (ix_xb ix) ->
  length ans = length (ix_xb ix) ->
  length secs = length (ix_xb ix) ->
  (0 < length (ix_xb ix))%nat ->
  0 < top_k ->
  exists results,
    fst (retrieve rt query top_k st) = Ok results
    /\ length results = Z.to_nat top_k
    /\ ranked_from 0 results
    /\ map distance results = map snd (search_one ix (normalize_row v) (Z.to_nat top_k)).
Proof.
  intros Hix Hm Hq Eq Ea Es Lq La Ls Hn Hk.
  rewrite (retrieve_searches_normalized rt query top_k st ix m _ Hix Hm Hq).
  unfold faiss_search, normalize. cbn [ncols rows map].
  replace (0 <? top_k) with true by (symmetry; now apply Z.ltb_lt).
  rewrite Nat.eqb_refl. cbn [negb obind fst snd map list_index length].
  rewrite !list_index_head. cbn [obind]. rewrite combine_fst_snd.
  destruct (format_results_all (self st) qs ans secs (length (ix_xb ix))
              Eq Ea Es Lq La Ls (search_one ix (normalize_row v) (Z.to_nat top_k)) 0 [])
    as (rs & E & Hlen & Hrank & Hdist).
  - eapply Forall_impl; [apply search_one_labels |].
    unfold ntotal. cbn. intros p Hp. lia.
  - exists rs. rewrite E, Hlen, search_one_length. auto.
Qed.

End TopK.

(** ** The claims on concrete inputs *)

(** C1.  An index built from one record, [retrieve] with [top_k=5]: the
    code returns five entries, ranked 1 to 5, not one.  Entries 2 to 5 are
    the padding of the search (label [-1], distance FLT_MAX), which passes
    the guard [idx < len(self.questions)] and selects the last record. *)
Theorem retrieve_single_record_top5 :
  exists st results,
    build_index demo_runtime "policies.jsonl" "vector_index" (start fs_one_record)
      = (Ok tt, st)
    /\ py_len (questions (self st)) = Ok 1
    /\ fst (retrieve demo_runtime "pet policy" 5 st) = Ok results
    /\ length results = 5%nat
    /\ map rank results = [1; 2; 3; 4; 5]
    /\ map question results = repeat (JStr "Can I bring a pet?") 5
    /\ map distance results = [0%float; fhuge; fhuge; fhuge; fhuge].
Proof.
  eexists _, _. split; [vm_compute; reflexivity |].
  split; [vm_compute; reflexivity |].
  split; [vm_compute; reflexivity |].
  vm_compute. repeat split; reflexivity.
Qed.

(** C3 as stated fails: with two questions, one answer and no section in
    the metadata artifact, [load_index] returns normally and the engine
    holds the three lists of different lengths. *)
Lemma load_index_accepts_mismatched_lengths :
  exists st',
    load_index demo_runtime "vector_index" (start fs_mismatched) = (Ok tt, st')
    /\ py_len (questions (self st')) = Ok 2
    /\ py_len (answers (self st')) = Ok 1
    /\ py_len (sections (self st')) = Ok 0.
Proof.
  eexists. split; [vm_compute; reflexivity |]. vm_compute. repeat split; reflexivity.
Qed.




(** The tiny row of the counterexample of C7, in binary64: the result is
    [0.5]. *)
Example normalize_tiny_row_float :
  normalize_row (F := float) [feps] = [0.5%float].
Proof. vm_compute. reflexivity. Qed.

(** *** Witnesses *)

Lemma load_index_all_or_nothing_witness :
  (load_index demo_runtime "vector_index" (start fs_without_metadata)
     = (Raise FileNotFoundError, start fs_without_metadata)
   /\ forall query top_k,
        fst (retrieve demo_runtime query top_k (start fs_without_metadata))
        = Raise (ValueError msg_not_loaded))
  /\ exists st',
       load_index demo_runtime "vector_index" (start fs_built) = (Ok tt, st')
       /\ py_len (questions (self st')) = Ok 2
       /\ fs st' = fs (start fs_built).
Proof.
  pose proof (load_index_all_or_nothing demo_runtime "vector_index"
                (start fs_without_metadata) eq_refl) as [Hmissing _].
  pose proof (load_index_all_or_nothing demo_runtime "vector_index"
                (start fs_built) eq_refl) as [_ Hpresent].
  split.
  - destruct Hmissing as [Hraise Hnone]; [vm_compute; reflexivity |].
    split; [exact Hraise | exact (Hnone eq_refl)].
  - edestruct Hpresent as (st' & Hload & _ & _ & Hq & _ & _ & Hfs);
      [vm_compute; reflexivity .. |].
    exists st'. split; [exact Hload |]. split; [rewrite Hq; reflexivity | exact Hfs].
Defined.

Lemma load_index_no_length_check_witness :
  exists st',
    load_index demo_runtime "vector_index" (start fs_mismatched) = (Ok tt, st')
    /\ questions (self st') = JArr [JStr "q1"; JStr "q2"]
    /\ answers (self st') = JArr [JStr "a1"]
    /\ sections (self st') = JArr []
    /\ index (self st') = Some (mk_index 3 [demo_unit_pet; demo_unit_bag])
    /\ embeddings (self st') = Some (mk_ndarray 3 [demo_unit_pet; demo_unit_bag]).
Proof.
  eapply (load_index_no_length_check demo_runtime "vector_index" (start fs_mismatched));
    vm_compute; reflexivity.
Defined.




Lemma save_then_load_roundtrip_witness :
  exists st1 st2,
    build_index demo_runtime "policies.jsonl" "vector_index" (start fs_two_records)
      = (Ok tt, st1)
    /\ load_index demo_runtime "vector_index" (mk_state fresh_store (fs st1) []) = (Ok tt, st2)
    /\ embeddings (self st2) = embeddings (self st1)
    /\ index (self st2) = index (self st1)
    /\ questions (self st2) = questions (self st1)
    /\ answers (self st2) = answers (self st1)
    /\ sections (self st2) = sections (self st1)
    /\ fs st2 = fs st1
    /\ forall query top_k,
         fst (retrieve demo_runtime query top_k st2)
         = fst (retrieve demo_runtime query top_k st1).
Proof.
  assert (Hrun : build_index demo_runtime "policies.jsonl" "vector_index"
                   (start fs_two_records)
                 = (Ok tt, snd (build_index demo_runtime "policies.jsonl" "vector_index"
                                  (start fs_two_records))))
    by (vm_compute; reflexivity).
  destruct (save_then_load_roundtrip demo_runtime "policies.jsonl" "vector_index"
              _ _ fresh_store [] Hrun)
    as (st2 & Hload & He & Hi & Hq & Ha & Hs & Hfs & Hret).
  assert (Hm : effective_model demo_runtime fresh_store
               = effective_model demo_runtime (self (start fs_two_records)))
    by reflexivity.
  eexists _, st2. split; [exact Hrun |].
  repeat (split; [assumption |]). exact (Hret Hm).
Defined.

(** * Further properties of the code *)

(** ** [retrieve] reads, and loads the model once *)

Section RetrieveFrame.
Context {F : Type} `{Arith F}.
Variable rt : Runtime F.

Lemma same_data_refl (s : PolicyVectorStore F) : same_data s s.
Proof. unfold same_data. auto 10. Qed.

Lemma same_data_trans (s1 s2 s3 : PolicyVectorStore F) :
  same_data s1 s2 -> same_data s2 s3 -> same_data s1 s3.
Proof. unfold same_data. intuition congruence. Qed.

(** What [_load_model] does, in one equation. *)
Lemma _load_model_run (st : state F) :
  _load_model rt st =
    match model (self st) with
    | Some _ => (Ok tt, st)
    | None =>
        if model_available rt (model_name (self st))
        then (Ok tt,
              mk_state (mk_store (model_name (self st)) (Some (model_name (self st)))
                          (index (self st)) (questions (self st)) (answers (self st))
                          (sections (self st)) (embeddings (self st)))
                (fs st)
                (log st ++ [EvPrint; EvModelLoad (model_name (self st)); EvPrint]))
        else (Raise ModelLoadError,
              mk_state (self st) (fs st)
                (log st ++ [EvPrint; EvModelLoad (model_name (self st))]))
    end.
Proof.
  unfold _load_model, bind, get_self, print, emit, set_model, set_self, raise, ret.
  cbn [self fs log]. destruct (model (self st)); [reflexivity |].
  cbn [self fs log]. destruct (model_available rt (model_name (self st)));
    cbn [self fs log]; now rewrite <- !app_assoc.
Qed.

End RetrieveFrame.

Section RetrieveRun.
Context {F : Type} `{Arith F}.
Variable rt : Runtime F.

(** [retrieve] as a function of the object, with the state it leaves. *)
Lemma retrieve_run (query : string) (top_k : Z) (st : state F) :
  retrieve rt query top_k st = (retrieve_pure rt (self st) query top_k, after_query rt query st).
Proof.
  unfold retrieve, retrieve_pure, after_query, effective_model.
  unfold bind at 1, get_self at 1.
  destruct (index (self st)) as [ix|] eqn:Hix; [| reflexivity].
  unfold bind at 1. rewrite _load_model_run.
  destruct (model (self st)) as [m|] eqn:Em.
  - unfold encode, self_index, bind, lift, ret, raise, get_self, emit.
    cbn [self fs log]. rewrite Em.
    destruct (model_encode rt m ["query: " +:+ query]) as [qv|]; [| reflexivity].
    cbn [self fs log]. rewrite Hix.
    destruct (faiss_search ix (normalize qv) top_k) as [[D I]|]; [| reflexivity].
    cbn [obind fst snd].
    destruct (list_index I 0) as [i0|]; [| reflexivity]. cbn [obind].
    destruct (list_index D 0) as [d0|]; reflexivity.
  - destruct (model_available rt (model_name (self st))); [| reflexivity].
    unfold encode, self_index, bind, lift, ret, raise, get_self, emit.
    cbn [self fs log model model_name index].
    destruct (model_encode rt (model_name (self st)) ["query: " +:+ query]) as [qv|];
      [| rewrite ?Hix, <- !app_assoc; reflexivity].
    cbn [self fs log model model_name index]. rewrite !Hix.
    destruct (faiss_search ix (normalize qv) top_k) as [[D I]|];
      [| rewrite ?Hix, <- !app_assoc; reflexivity].
    cbn [obind fst snd].
    destruct (list_index I 0) as [i0|]; [| rewrite ?Hix, <- !app_assoc; reflexivity]. cbn [obind].
    destruct (list_index D 0) as [d0|]; [| rewrite ?Hix, <- !app_assoc; reflexivity]. cbn [obind].
    rewrite <- !app_assoc. cbn [app]. f_equal.
    apply format_results_ext; reflexivity.
Qed.

Lemma after_query_same_data (query : string) (st : state F) :
  fs (after_query rt query st) = fs st
  /\ same_data (self st) (self (after_query rt query st))
  /\ effective_model rt (self (after_query rt query st)) = effective_model rt (self st).
Proof.
  unfold after_query, same_data, effective_model.
  destruct (index (self st)) eqn:Hix; [| repeat split; congruence].
  destruct (model (self st)) eqn:Em.
  - cbn [self fs]. rewrite Em. repeat split; congruence.
  - destruct (model_available rt (model_name (self st))) eqn:Ha;
      cbn [self fs model model_name index questions answers sections embeddings];
      rewrite ?Em, ?Ha, ?Hix; repeat split; congruence.
Qed.

(** X1. [retrieve] is read-only: whatever it returns or raises, the files,
    the index, the embeddings and the three lists are as before (only
    [self.model] may have been set), and the outcome of any later query is
    what it would have been without this one. *)
Theorem retrieve_is_read_only (query : string) (top_k : Z) (st : state F) :
  fs (snd (retrieve rt query top_k st)) = fs st
  /\ same_data (self st) (self (snd (retrieve rt query top_k st)))
  /\ forall query' top_k',
       fst (retrieve rt query' top_k' (snd (retrieve rt query top_k st)))
       = fst (retrieve rt query' top_k' st).
Proof.
  rewrite retrieve_run. cbn [snd].
  destruct (after_query_same_data query st) as (Hfs & Hsame & Hm).
  split; [exact Hfs |]. split; [exact Hsame |].
  intros query' top_k'. rewrite !retrieve_run. cbn [fst].
  destruct Hsame as (_ & Hi & Hq & Ha & Hs & _).
  now apply retrieve_pure_ext.
Qed.

(** X2. The embedding model is constructed at most once: a query on an
    engine whose model is loaded adds a single [encode] call to the log,
    and after any query that returned normally the model is loaded. *)
Theorem model_is_loaded_once (query : string) (top_k : Z) (st : state F) :
  (model (self st) <> None -> index (self st) <> None ->
   log (snd (retrieve rt query top_k st)) = log st ++ [EvEncode ["query: " +:+ query]])
  /\ (forall results, fst (retrieve rt query top_k st) = Ok results ->
      model (self (snd (retrieve rt query top_k st))) <> None)
  /\ exists evs,
       log (snd (retrieve rt query top_k st)) = log st ++ evs
       /\ (length (List.filter is_model_load evs) <= 1)%nat.
Proof.
  rewrite retrieve_run. cbn [fst snd]. unfold after_query, retrieve_pure, effective_model.
  split; [| split].
  - intros Hm Hi. destruct (index (self st)); [| congruence].
    destruct (model (self st)); [reflexivity | congruence].
  - intros results. destruct (index (self st)); [| discriminate].
    destruct (model (self st)) eqn:Em; [cbn; congruence |].
    destruct (model_available rt (model_name (self st))); [cbn; congruence | discriminate].
  - destruct (index (self st)); [| exists []; rewrite app_nil_r; split; [reflexivity | cbn; lia]].
    destruct (model (self st)); [eexists; split; [reflexivity | cbn; lia] |].
    destruct (model_available rt (model_name (self st)));
      eexists; (split; [reflexivity | cbn; lia]).
Qed.

End RetrieveRun.

(** ** [search] and the padding of FAISS *)

Section SearchMethod.
Context {F : Type} `{Arith F}.
Variable rt : Runtime F.

(** [search] as a function of the object, with the state it leaves. *)
Lemma search_run (query : string) (top_k : Z) (max_distance : F) (st : state F) :
  search rt query top_k max_distance st =
    (obind (retrieve_pure rt (self st) query top_k) (fun results =>
       Ok (map (fun r => mk_hit (answer r) (distance r) (section r) (question r))
             (List.filter (fun r => fleb (distance r) max_distance) results))),
     after_query rt query st).
Proof.
  unfold search, bind. rewrite retrieve_run.
  destruct (retrieve_pure rt (self st) query top_k); reflexivity.
Qed.

Lemma insert_by_distance_length (c : Z * F) (l : list (Z * F)) :
  length (insert_by_distance c l) = S (length l).
Proof.
  induction l as [|b l IH]; cbn; [reflexivity |].
  destruct (fleb (snd b) (snd c)); cbn; [now rewrite IH | reflexivity].
Qed.

Lemma sort_by_distance_length (l : list (Z * F)) :
  length (sort_by_distance l) = length l.
Proof.
  unfold sort_by_distance.
  assert (Hgen : forall acc,
            length (fold_left (fun acc c => insert_by_distance c acc) l acc)
            = (length acc + length l)%nat).
  { induction l as [|c l IH]; intros acc; cbn; [lia |].
    rewrite IH, insert_by_distance_length. lia. }
  now rewrite Hgen.
Qed.

Lemma enumerate_from_length {A} (l : list A) :
  forall i, length (enumerate_from i l) = length l.
Proof. induction l as [|a l IH]; intros i; cbn; [reflexivity | now rewrite IH]. Qed.

(** The distances of one search: those of at most [ntotal] stored vectors,
    then FLT_MAX for each missing result. *)
Lemma search_one_distances (ix : IndexFlatL2 F) (q : list F) (k : nat) :
  exists best,
    map snd (search_one ix q k) = best ++ repeat fhuge (k - length best)
    /\ (length best <= length (ix_xb ix))%nat
    /\ (length best <= k)%nat.
Proof.
  unfold search_one.
  set (sorted := sort_by_distance _).
  exists (map snd (firstn k sorted)).
  rewrite map_app, length_map. split; [| split].
  - f_equal. induction (k - length (firstn k sorted))%nat as [|n IH]; cbn; [reflexivity |].
    now rewrite IH.
  - rewrite length_firstn. subst sorted.
    rewrite sort_by_distance_length, length_map, enumerate_from_length. lia.
  - rewrite length_firstn. lia.
Qed.

(** Entries at distance FLT_MAX do not pass a smaller threshold. *)
Lemma filter_padding (max_distance : F) (results : list (result F)) (best : list F) (n : nat) :
  fleb fhuge max_distance = false ->
  map distance results = best ++ repeat fhuge n ->
  (length (List.filter (fun r => fleb (distance r) max_distance) results) <= length best)%nat.
Proof.
  intros Hmax Hd. apply map_eq_app in Hd as (r1 & r2 & -> & H1 & H2).
  rewrite List.filter_app, length_app.
  assert (Hnone : List.filter (fun r => fleb (distance r) max_distance) r2 = []).
  { clear H1. revert n H2. induction r2 as [|r r2 IH]; intros n H2; [reflexivity |].
    destruct n as [|n]; [discriminate |]. cbn in H2. injection H2 as Hr Hrest.
    cbn. rewrite Hr, Hmax. now apply (IH n). }
  rewrite Hnone. cbn. rewrite Nat.add_0_r, <- H1, length_map.
  apply List.filter_length_le.
Qed.

Lemma filter_Forall_true {A} (p : A -> bool) (l : list A) :
  Forall (fun a => p a = true) (List.filter p l).
Proof.
  induction l as [|a l IH]; cbn; [constructor |].
  destruct (p a) eqn:E; [constructor |]; assumption.
Qed.

(** X3. [search] with a threshold below FLT_MAX hides what FAISS pads
    with: on an index of [n >= 1] records it returns at most [n] hits, and
    at most [top_k], each within the threshold, where [retrieve] returns
    [top_k] entries. *)
Theorem search_drops_padding (query : string) (top_k : Z) (max_distance : F)
    (st : state F) ix m v (qs ans secs : list json) :
  index (self st) = Some ix ->
  effective_model rt (self st) = Some m ->
  model_encode rt m ["query: " +:+ query] = Some (mk_ndarray (ix_d ix) [v]) ->
  questions (self st) = JArr qs ->
  answers (self st) = JArr ans ->
  sections (self st) = JArr secs ->
  length qs = length (ix_xb ix) ->
  length ans = length (ix_xb ix) ->
  length secs = length (ix_xb ix) ->
  (0 < length (ix_xb ix))%nat ->
  0 < top_k ->
  fleb fhuge max_distance = false ->
  exists results hits,
    fst (retrieve rt query top_k st) = Ok results
    /\ length results = Z.to_nat top_k
    /\ fst (search rt query top_k max_distance st) = Ok hits
    /\ (length hits <= length (ix_xb ix))%nat
    /\ (length hits <= Z.to_nat top_k)%nat
    /\ Forall (fun h => fleb (score h) max_distance = true) hits.
Proof.
  intros Hix Hm Hq Eq Ea Es Lq La Ls Hn Hk Hmax.
  destruct (retrieve_returns_top_k_entries rt query top_k st ix m v qs ans secs
              Hix Hm Hq Eq Ea Es Lq La Ls Hn Hk)
    as (results & Hres & Hlen & _ & Hdist).
  destruct (search_one_distances ix (normalize_row v) (Z.to_nat top_k))
    as (best & Hbest & Hstored & Hshort).
  rewrite Hbest in Hdist.
  pose proof (filter_padding max_distance results best _ Hmax Hdist) as Hkept.
  exists results. eexists. split; [exact Hres |]. split; [exact Hlen |].
  rewrite search_run. cbn [fst].
  rewrite retrieve_run in Hres. cbn [fst] in Hres. rewrite Hres. cbn [obind].
  split; [reflexivity |]. rewrite length_map.
  split; [lia |]. split; [lia |].
  apply Forall_map. cbn [score].
  apply (filter_Forall_true (fun r => fleb (distance r) max_distance)).
Qed.

End SearchMethod.

Lemma search_drops_padding_witness :
  exists results hits,
    fst (retrieve demo_runtime "pet policy" 5 engine_one_record) = Ok results
    /\ length results = 5%nat
    /\ fst (search demo_runtime "pet policy" 5 2%float engine_one_record) = Ok hits
    /\ (length hits <= 1)%nat
    /\ (length hits <= 5)%nat
    /\ Forall (fun h => fleb (score h) 2%float = true) hits.
Proof.
  apply (search_drops_padding demo_runtime "pet policy" 5 2%float engine_one_record
           (mk_index 3 [demo_unit_pet]) "all-MiniLM-L6-v2"
           (demo_embedding "query: pet policy")
           [JStr "Can I bring a pet?"] [JStr "Yes, in-cabin pets allowed for a fee."]
           [JStr "Pets"]);
    try (vm_compute; reflexivity); vm_compute; lia.
Defined.

(** ** Ranks *)

Section Ranks.
Context {F : Type} `{Arith F}.
Variable rt : Runtime F.

Lemma list_index_In {A} (l : list A) (i : Z) (a : A) :
  list_index l i = Ok a -> In a l.
Proof.
  unfold list_index.
  destruct ((0 <=? _) && (_ <? _)); [| discriminate].
  destruct (nth_error l _) eqn:E; [| discriminate].
  intros [= <-]. eapply nth_error_In, E.
Qed.

(** The entries the loop adds carry ranks between [i + 1] and
    [i + len(hits)], in increasing order, and there is at most one entry
    per hit. *)
Lemma format_results_ranks (s : PolicyVectorStore F) (hits : list (Z * F)) :
  forall i acc rs,
    format_results s i hits acc = Ok rs ->
    exists new,
      rs = acc ++ new
      /\ (length new <= length hits)%nat
      /\ Forall (fun r => i < rank r <= i + Z.of_nat (length hits)) new
      /\ StronglySorted Z.lt (map rank new).
Proof.
  induction hits as [|[idx dist] hits IH]; intros i acc rs; cbn [format_results].
  - intros [= <-]. exists []. rewrite app_nil_r. repeat split; [cbn; lia | constructor |constructor].
  - destruct (py_len (questions s)) as [n|]; [| discriminate]. cbn [obind].
    destruct (idx <? n).
    + destruct (py_index (questions s) idx) as [q|]; [| discriminate]. cbn [obind].
      destruct (py_index (answers s) idx) as [a|]; [| discriminate]. cbn [obind].
      destruct (py_index (sections s) idx) as [sec|]; [| discriminate]. cbn [obind].
      intros E. apply IH in E as (new & -> & Hlen & Hrange & Hsorted).
      exists (mk_result q a sec dist (i + 1) :: new).
      rewrite <- app_assoc. cbn [app length map rank].
      split; [reflexivity |]. split; [lia |]. split.
      * constructor; [cbn; lia |].
        eapply Forall_impl; [exact Hrange |]. cbn. intros r Hr. lia.
      * constructor; [exact Hsorted |].
        apply Forall_map. eapply Forall_impl; [exact Hrange |]. cbn. intros r Hr. lia.
    + intros E. apply IH in E as (new & -> & Hlen & Hrange & Hsorted).
      exists new. cbn [length]. split; [reflexivity |]. split; [lia |].
      split; [| exact Hsorted].
      eapply Forall_impl; [exact Hrange |]. cbn. intros r Hr. lia.
Qed.

(** A successful search was made with [top_k >= 1], and gives at most
    [top_k] entries with increasing ranks in [1 .. top_k]. *)
Lemma retrieve_pure_ranks (s : PolicyVectorStore F) (query : string) (top_k : Z)
    (results : list (result F)) :
  retrieve_pure rt s query top_k = Ok results ->
  0 < top_k
  /\ (length results <= Z.to_nat top_k)%nat
  /\ Forall (fun r => 1 <= rank r <= top_k) results
  /\ StronglySorted Z.lt (map rank results).
Proof.
  unfold retrieve_pure.
  destruct (index s) as [ix|]; [| discriminate].
  destruct (effective_model rt s) as [m|]; [| discriminate].
  destruct (model_encode rt m ["query: " +:+ query]) as [qv|]; [| discriminate].
  unfold faiss_search.
  destruct (Z.ltb_spec 0 top_k) as [Hk|]; [| discriminate]. cbn [negb].
  destruct (negb (Nat.eqb _ _)); [discriminate |]. cbn [obind fst snd].
  destruct (list_index (map (map fst) _) 0) as [i0|] eqn:Ei; [| discriminate].
  cbn [obind].
  destruct (list_index (map (map snd) _) 0) as [d0|] eqn:Ed; [| discriminate].
  cbn [obind]. intros E.
  apply list_index_In, in_map_iff in Ei as (hits & <- & Hin).
  apply in_map_iff in Hin as (q & <- & _).
  apply format_results_ranks in E as (new & -> & Hlen & Hrange & Hsorted).
  cbn [app]. rewrite length_combine, length_map, search_one_length in Hlen, Hrange.
  split; [exact Hk |]. split; [lia |]. split; [| exact Hsorted].
  eapply Forall_impl; [exact Hrange |]. cbn. intros r Hr. lia.
Qed.

(** X4. Whatever the three lists hold, a call of [retrieve] that returns
    was made with [top_k >= 1] and returns at most [top_k] entries, whose
    ranks lie in [1 .. top_k] and increase strictly (a rank is the position
    in the FAISS result, so ranks of skipped positions are missing). *)
Theorem retrieve_ranks_increase (query : string) (top_k : Z) (st : state F)
    (results : list (result F)) :
  fst (retrieve rt query top_k st) = Ok results ->
  0 < top_k
  /\ (length results <= Z.to_nat top_k)%nat
  /\ Forall (fun r => 1 <= rank r <= top_k) results
  /\ StronglySorted Z.lt (map rank results).
Proof. rewrite retrieve_run. cbn [fst]. apply retrieve_pure_ranks. Qed.

End Ranks.

Lemma retrieve_ranks_increase_witness :
  exists results,
    fst (retrieve demo_runtime "checked bag" 2 engine_two_records) = Ok results
    /\ 0 < 2
    /\ (length results <= Z.to_nat 2)%nat
    /\ Forall (fun r => 1 <= rank r <= 2) results
    /\ StronglySorted Z.lt (map rank results).
Proof.
  eexists. split; [vm_compute; reflexivity |].
  apply (retrieve_ranks_increase demo_runtime "checked bag" 2 engine_two_records).
  vm_compute. reflexivity.
Defined.

(** ** What the entry points do when they cannot work *)

Section EntryPoints.
Context {F : Type} `{Arith F}.
Variable rt : Runtime F.

(** X5. Before an index is built or loaded (in particular on an object
    fresh from the constructor) [retrieve] and [search] raise the same
    [ValueError] and touch nothing, not even the model, and
    [get_context_for_query] turns that into the empty string after one
    print. *)
Theorem queries_before_loading (query : string) (top_k limit : Z) (max_distance : F)
    (st : state F) :
  index (self st) = None ->
  retrieve rt query top_k st = (Raise (ValueError msg_not_loaded), st)
  /\ search rt query top_k max_distance st = (Raise (ValueError msg_not_loaded), st)
  /\ get_context_for_query rt query limit top_k st
     = (Ok "", mk_state (self st) (fs st) (log st ++ [EvPrint]))
  /\ forall name s, __init__ rt name = Ok s ->
       index s = None /\ model s = None /\ embeddings s = None
       /\ questions s = JArr [] /\ answers s = JArr [] /\ sections s = JArr [].
Proof.
  intros Hix.
  assert (Hr : retrieve rt query top_k st = (Raise (ValueError msg_not_loaded), st)).
  { rewrite retrieve_run. unfold retrieve_pure, after_query. now rewrite Hix. }
  split; [exact Hr |]. split; [| split].
  - unfold search, bind. now rewrite Hr.
  - unfold get_context_for_query, bind, try_. now rewrite Hr.
  - intros name s. unfold __init__. destruct (HAVE_RAG rt); [| discriminate].
    intros [= <-]. cbn. auto 10.
Qed.

(** X6. Without the optional libraries the constructor, [build_index] and
    [load_index] raise [ImportError] before they look at any file;
    [save_index] and, on an object without index, [retrieve] do not perform
    the check. *)
Theorem import_error_comes_first (name policies_file cache_dir query : string) (top_k : Z)
    (st : state F) :
  HAVE_RAG rt = false ->
  __init__ rt name = Raise ImportError
  /\ build_index rt policies_file cache_dir st = (Raise ImportError, st)
  /\ load_index rt cache_dir st = (Raise ImportError, st)
  /\ fst (save_index cache_dir st) = Ok tt
  /\ (index (self st) = None ->
      fst (retrieve rt query top_k st) = Raise (ValueError msg_not_loaded)).
Proof.
  intros Hrag. split; [| split; [| split; [| split]]].
  - unfold __init__. now rewrite Hrag.
  - rewrite build_index_cases, Hrag. reflexivity.
  - unfold load_index, bind, _ensure_rag_available, raise. now rewrite Hrag.
  - reflexivity.
  - intros Hix. rewrite retrieve_run. unfold retrieve_pure. now rewrite Hix.
Qed.


End EntryPoints.

Lemma queries_before_loading_witness :
  retrieve demo_runtime "pet policy" 3 (start fs_two_records)
    = (Raise (ValueError msg_not_loaded), start fs_two_records)
  /\ search demo_runtime "pet policy" 3 2%float (start fs_two_records)
    = (Raise (ValueError msg_not_loaded), start fs_two_records)
  /\ get_context_for_query demo_runtime "pet policy" 1500 3 (start fs_two_records)
     = (Ok "", mk_state fresh_store fs_two_records [EvPrint]).
Proof.
  destruct (queries_before_loading demo_runtime "pet policy" 3 1500 2%float
              (start fs_two_records) eq_refl) as (Hr & Hs & Hc & _).
  split; [exact Hr |]. split; [exact Hs | exact Hc].
Defined.

Lemma import_error_comes_first_witness :
  __init__ runtime_without_rag "all-MiniLM-L6-v2" = Raise ImportError
  /\ build_index runtime_without_rag "policies.jsonl" "vector_index" (start fs_built)
     = (Raise ImportError, start fs_built)
  /\ load_index runtime_without_rag "vector_index" (start fs_built)
     = (Raise ImportError, start fs_built).
Proof.
  destruct (import_error_comes_first runtime_without_rag "all-MiniLM-L6-v2"
              "policies.jsonl" "vector_index" "pet policy" 3 (start fs_built) eq_refl)
    as (Hi & Hb & Hl & _).
  split; [exact Hi |]. split; [exact Hb | exact Hl].
Defined.

(** ** Failures of [load_index] and [build_index] *)

Section Failures.
Context {F : Type} `{Arith F}.
Variable rt : Runtime F.

Lemma bind_raise_inv {A B} (c : M F A) (k : A -> M F B) st e st' :
  bind c k st = (Raise e, st') ->
  c st = (Raise e, st')
  \/ exists a st1, c st = (Ok a, st1) /\ k a st1 = (Raise e, st').
Proof.
  unfold bind. destruct (c st) as [[a|e1] st1]; intros E; [right; eauto | left; congruence].
Qed.

Lemma collect_pairs_adds_only (items : list json) :
  adds_only (F := F) (fun _ => False) (collect_pairs items).
Proof.
  induction items as [|item items IH]; cbn [collect_pairs];
    repeat first [ exact IH | frame_step ].
Qed.

(** The first part of a rebuild (model, encoding) when it fails: the lists
    stay as the loop left them, the index and the vectors as they were
    before the call. *)
Lemma finish_rebuild_early_failure (cache_dir : string) (st : state F) q qs :
  questions (self st) = JArr (q :: qs) ->
  match effective_model rt (self st) with
  | None =>
      finish_rebuild rt cache_dir st
      = (Raise ModelLoadError,
         mk_state (self st) (fs st) (log st ++ [EvPrint; EvPrint; EvModelLoad (model_name (self st))]))
  | Some m =>
      model_encode rt m (passages rt (q :: qs)) = None ->
      exists st',
        finish_rebuild rt cache_dir st = (Raise EncodeError, st')
        /\ fs st' = fs st
        /\ same_data (self st) (self st')
  end.
Proof.
  intros Hq. unfold effective_model.
  destruct (model (self st)) as [m0|] eqn:Em;
    [intros Hx | destruct (model_available rt (model_name (self st))) eqn:Hav; [intros Hx |]];
    unfold finish_rebuild;
    unfold bind at 1, get_self at 1; rewrite Hq; cbn [py_truthy negb];
    unfold print_len, _load_model, encode, self_embeddings, self_index, print;
    unfold bind, lift, ret, raise, get_self, set_embeddings, set_index, set_model,
      set_self, emit;
    cbn [py_len py_iter self fs log model model_name embeddings index questions answers
         sections];
    fold (passages rt (q :: qs));
    repeat (progress (rewrite ?Em, ?Hav, ?Hx;
      cbn [self fs log model model_name embeddings index questions answers sections])).
  - eexists. split; [reflexivity |]. split; [reflexivity |]. apply same_data_refl.
  - eexists. split; [reflexivity |]. split; [reflexivity |].
    unfold same_data. cbn. auto 10.
  - now rewrite <- !app_assoc.
Qed.

(** A failed rebuild whose artifact paths are writable leaves the files as
    they were. *)
Lemma finish_rebuild_failure (cache_dir : string) (st st' : state F) e l :
  questions (self st) = JArr l ->
  artifacts_writable (fs st) cache_dir = true ->
  finish_rebuild rt cache_dir st = (Raise e, st') ->
  fs st' = fs st.
Proof.
  intros Hq Hw E. destruct l as [|q qs].
  - rewrite (finish_rebuild_empty rt cache_dir st Hq) in E. now inversion E.
  - pose proof (finish_rebuild_cases rt cache_dir st q qs Hq) as Hc.
    pose proof (finish_rebuild_early_failure cache_dir st q qs Hq) as He.
    destruct (effective_model rt (self st)) as [m|].
    + destruct (model_encode rt m (passages rt (q :: qs))) as [x|].
      * rewrite Hw in Hc. congruence.
      * destruct (He eq_refl) as (st1 & E1 & Hfs & _). congruence.
    + rewrite He in E. now inversion E.
Qed.

Lemma rebuild_branch_failure (policies_file cache_dir : string) (st st' : state F) e :
  artifacts_writable (fs st) cache_dir = true ->
  rebuild_branch rt policies_file cache_dir st = (Raise e, st') ->
  fs st' = fs st.
Proof.
  intros Hw E.
  destruct (fs st !! policies_file) as [[| lines | | |]|] eqn:Hf;
    try (destruct (rebuild_branch_unreadable rt policies_file cache_dir st)
           as (e1 & st1 & E1 & Hfs & _); [intros ? ? Hc; congruence | congruence]).
  destruct (parse_lines rt lines []) as [items|e0] eqn:Hp;
    [| destruct (rebuild_branch_unreadable rt policies_file cache_dir st)
         as (e1 & st1 & E1 & Hfs & _); [intros ? ? Hc; congruence | congruence]].
  rewrite (rebuild_branch_front rt _ _ _ _ _ Hf Hp) in E.
  set (st0 := mk_state (reset_lists (self st)) (fs st)
                (log st ++ [EvPrint; EvRead policies_file])) in *.
  apply bind_raise_inv in E as [E | ([] & st1 & Ec & Ef)].
  - apply collect_pairs_adds_only in E as [Hfs _]. exact Hfs.
  - destruct (collect_pairs_spec items st0 [] [] [] eq_refl eq_refl eq_refl) as [_ Hc].
    apply Hc in Ec. subst st1.
    eapply finish_rebuild_failure in Ef; [exact Ef | reflexivity | exact Hw].
Qed.

(** A build that fails after its three checks leaves the files as
    [os.makedirs] left them. *)
Lemma build_index_late_failure (policies_file cache_dir : string) (st st' : state F)
    (e : exn) :
  HAVE_RAG rt = true ->
  file_exists (fs st) policies_file = true ->
  can_makedirs (fs st) cache_dir = true ->
  artifacts_writable (fs st) cache_dir = true ->
  build_index rt policies_file cache_dir st = (Raise e, st') ->
  fs st' = fs (after_makedirs cache_dir st).
Proof.
  intros Hrag Hpol Hmk Hw E. rewrite build_index_cases, Hrag, Hpol, Hmk in E.
  cbn [negb] in E. destruct (cache_complete (fs st) cache_dir).
  - apply cached_branch_adds_only in E as [Hfs _]. exact Hfs.
  - apply rebuild_branch_failure in E; [exact E |].
    now rewrite artifacts_writable_after_makedirs.
Qed.


(** X9. A failure does not roll the object back.  When the model cannot
    be loaded, a rebuild has already replaced the three lists by those of
    the new corpus, while the index and the vectors are still the old
    ones. *)
Theorem failed_rebuild_keeps_new_lists (policies_file cache_dir : string) (st : state F)
    (lines : list string) (items : list json) :
  HAVE_RAG rt = true ->
  fs st !! policies_file = Some (TextFile lines) ->
  can_makedirs (fs st) cache_dir = true ->
  cache_complete (fs st) cache_dir = false ->
  parse_lines rt lines [] = Ok items ->
  forallb item_ok items = true ->
  List.filter usable items <> [] ->
  effective_model rt (self st) = None ->
  exists st',
    build_index rt policies_file cache_dir st = (Raise ModelLoadError, st')
    /\ questions (self st') = JArr (map question_of (List.filter usable items))
    /\ answers (self st') = JArr (map answer_of (List.filter usable items))
    /\ sections (self st') = JArr (map section_of (List.filter usable items))
    /\ index (self st') = index (self st)
    /\ embeddings (self st') = embeddings (self st)
    /\ cache_complete (fs st') cache_dir = false.
Proof.
  intros Hrag Hf Hmk Hc Hp Hok Hne Hm.
  rewrite build_index_rebuilds by (try assumption; eapply file_exists_lookup; eassumption).
  rewrite (rebuild_branch_front rt _ _ _ lines items
             (after_makedirs_lookup _ _ _ _ Hf) Hp).
  rewrite after_makedirs_self.
  set (st0 := mk_state (reset_lists (self st)) (fs (after_makedirs cache_dir st))
                (log (after_makedirs cache_dir st) ++ [EvPrint; EvRead policies_file])).
  destruct (collect_pairs_spec items st0 [] [] [] eq_refl eq_refl eq_refl) as [Hrun _].
  rewrite (bind_ok _ _ _ _ _ (Hrun Hok)). cbn [app].
  destruct (map question_of (List.filter usable items)) as [|q qs] eqn:Eq.
  { destruct (List.filter usable items); [congruence | discriminate]. }
  match goal with
  | |- context [finish_rebuild rt cache_dir ?st1] =>
      assert (Hq : questions (self st1) = JArr (q :: qs)) by (cbn; now rewrite Eq);
      pose proof (finish_rebuild_early_failure cache_dir st1 q qs Hq) as He
  end.
  unfold st0 in He. cbn [self] in He. rewrite effective_model_reset, Hm in He.
  eexists. split; [exact He |].
  cbn [self fs with_pairs reset_lists questions answers sections index embeddings app].
  rewrite Eq, cache_complete_after_makedirs. auto 10.
Qed.

(** X10. [load_index] is not atomic either: when the metadata document
    lacks the key [questions], the vectors and the index of the cache are
    already in the object when [KeyError] is raised, next to the lists the
    object had. *)
Theorem load_index_stops_half_way (cache_dir : string) (st : state F) arrays x ix kv :
  HAVE_RAG rt = true ->
  fs st !! embeddings_file cache_dir = Some (NpzFile arrays) ->
  arrays !! "embeddings" = Some x ->
  fs st !! index_file cache_dir = Some (FaissFile ix) ->
  fs st !! metadata_file cache_dir = Some (JsonFile (JObj kv)) ->
  kv !! "questions" = None ->
  exists st',
    load_index rt cache_dir st = (Raise KeyError, st')
    /\ embeddings (self st') = Some x
    /\ index (self st') = Some ix
    /\ questions (self st') = questions (self st)
    /\ answers (self st') = answers (self st)
    /\ sections (self st') = sections (self st)
    /\ fs st' = fs st.
Proof.
  intros Hrag He Hx Hi Hm Hq.
  unfold load_index, _ensure_rag_available. rewrite Hrag.
  unfold bind at 1. cbn [ret].
  unfold bind at 1, path_exists at 1. unfold bind at 1, path_exists at 1.
  unfold bind at 1, path_exists at 1.
  fold (embeddings_file cache_dir) (index_file cache_dir) (metadata_file cache_dir).
  rewrite He, Hi, Hm.
  rewrite !bool_decide_eq_true_2 by eauto. cbn [andb negb].
  unfold bind at 1, print at 1, emit at 1.
  unfold read_cache, np_load, faiss_read_index, json_load, bind, open_read, lift,
    set_embeddings, set_index, set_questions, set_answers, set_sections, set_self, ret.
  cbn. rewrite He. cbn. rewrite Hx. cbn. rewrite Hi. cbn. rewrite Hm. cbn.
  rewrite Hq. eexists. split; [reflexivity |]. cbn. auto 10.
Qed.

End Failures.


Lemma failed_rebuild_keeps_new_lists_witness :
  exists st',
    build_index runtime_offline "policies.jsonl" "vector_index" (start fs_two_records)
      = (Raise ModelLoadError, st')
    /\ questions (self st')
       = JArr (map question_of (List.filter usable [pet_value; bag_value]))
    /\ answers (self st')
       = JArr (map answer_of (List.filter usable [pet_value; bag_value]))
    /\ sections (self st')
       = JArr (map section_of (List.filter usable [pet_value; bag_value]))
    /\ index (self st') = index (self (start fs_two_records))
    /\ embeddings (self st') = embeddings (self (start fs_two_records))
    /\ cache_complete (fs st') "vector_index" = false.
Proof.
  apply (failed_rebuild_keeps_new_lists runtime_offline "policies.jsonl" "vector_index"
           (start fs_two_records) [pet_line; bag_line] [pet_value; bag_value]);
    try (vm_compute; reflexivity).
  vm_compute. discriminate.
Defined.

Lemma load_index_stops_half_way_witness :
  exists st',
    load_index demo_runtime "vector_index" (start fs_empty_metadata) = (Raise KeyError, st')
    /\ embeddings (self st') = Some (mk_ndarray 3 [demo_unit_pet; demo_unit_bag])
    /\ index (self st') = Some (mk_index 3 [demo_unit_pet; demo_unit_bag])
    /\ questions (self st') = questions (self (start fs_empty_metadata))
    /\ answers (self st') = answers (self (start fs_empty_metadata))
    /\ sections (self st') = sections (self (start fs_empty_metadata))
    /\ fs st' = fs (start fs_empty_metadata).
Proof.
  eapply (load_index_stops_half_way demo_runtime "vector_index" (start fs_empty_metadata));
    vm_compute; reflexivity.
Defined.

(** ** Building twice *)

Section BuildTwice.
Context {F : Type} `{Arith F}.
Variable rt : Runtime F.

Lemma after_makedirs_is_dir (cache_dir : string) (st : state F) :
  can_makedirs (fs st) cache_dir = true ->
  is_dir (fs (after_makedirs cache_dir st)) cache_dir = true.
Proof.
  unfold can_makedirs, after_makedirs, is_dir.
  destruct (fs st !! cache_dir) as [[]|] eqn:E; intros Hc; try discriminate.
  - now rewrite E.
  - cbn [fs]. now rewrite lookup_insert_eq.
Qed.

Lemma cache_written_keeps (files : gmap string (file F)) (cache_dir : string)
    (s : PolicyVectorStore F) (x : ndarray F) :
  is_dir (cache_written files cache_dir s x) cache_dir = is_dir files cache_dir
  /\ forall p, is_Some (files !! p) -> is_Some (cache_written files cache_dir s x !! p).
Proof.
  destruct (artifact_paths_distinct cache_dir) as (_ & _ & _ & D1 & D2 & D3).
  unfold cache_written. split.
  - unfold is_dir. now rewrite !lookup_insert_ne by congruence.
  - intros p Hp. rewrite !lookup_insert_is_Some. tauto.
Qed.

(** A successful build leaves the cache directory in place and removes no
    file. *)
Lemma build_index_keeps_paths (policies_file cache_dir : string) (st st1 : state F) :
  build_index rt policies_file cache_dir st = (Ok tt, st1) ->
  HAVE_RAG rt = true
  /\ is_dir (fs st1) cache_dir = true
  /\ forall p, is_Some (fs st !! p) -> is_Some (fs st1 !! p).
Proof.
  intros E. rewrite build_index_cases in E.
  destruct (HAVE_RAG rt); [| discriminate].
  destruct (file_exists (fs st) policies_file); [| discriminate].
  destruct (can_makedirs (fs st) cache_dir) eqn:Hmk; [| discriminate].
  cbn [negb] in E. split; [reflexivity |].
  pose proof (after_makedirs_is_dir cache_dir st Hmk) as Hdir.
  assert (Hkeep : forall p, is_Some (fs st !! p) ->
                            is_Some (fs (after_makedirs cache_dir st) !! p)).
  { intros p [f Hp]. exists f. now apply after_makedirs_lookup. }
  destruct (cache_complete (fs st) cache_dir).
  - apply cached_branch_adds_only in E as [-> _]. auto.
  - apply rebuild_branch_inv in E as (lines & items & m & x & _ & _ & _ & _ & _ & _ & ->).
    cbn [fs].
    destruct (cache_written_keeps (fs (after_makedirs cache_dir st)) cache_dir
                (indexed (self (after_makedirs cache_dir st))
                   (List.filter usable items) m x) x) as [Hd Hk].
    rewrite Hd. auto.
Qed.

(** X11. Building twice is building once: a second [build_index] on the
    state a successful one left reads the cache back, changes neither the
    object nor any file, and neither loads the model nor encodes. *)
Theorem build_index_twice (policies_file cache_dir : string) (st st1 : state F) :
  build_index rt policies_file cache_dir st = (Ok tt, st1) ->
  exists st2,
    build_index rt policies_file cache_dir st1 = (Ok tt, st2)
    /\ self st2 = self st1
    /\ fs st2 = fs st1
    /\ log st2 = log st1 ++ [EvPrint; EvRead (embeddings_file cache_dir);
                             EvRead (index_file cache_dir);
                             EvRead (metadata_file cache_dir); EvPrint].
Proof.
  intros E.
  destruct (build_index_keeps_paths _ _ _ _ E) as (Hrag & Hdir & Hkeep).
  destruct (build_index_leaves_cache rt _ _ _ _ E)
    as (arrays & x & ix & kv & n & He & Hx & Hi & Hm & Hq & Ha & Hs & Hn & Hemb & Hix).
  assert (Hpol : file_exists (fs st1) policies_file = true).
  { unfold file_exists. apply bool_decide_eq_true_2, Hkeep.
    rewrite build_index_cases, Hrag in E. cbn [negb] in E.
    destruct (file_exists (fs st) policies_file) eqn:Hp; [| discriminate].
    now apply bool_decide_eq_true in Hp. }
  assert (Hc : cache_complete (fs st1) cache_dir = true).
  { unfold cache_complete, file_exists. rewrite He, Hi, Hm.
    now rewrite !bool_decide_eq_true_2 by eauto. }
  rewrite build_index_cases, Hrag, Hpol, (is_dir_can_makedirs _ _ Hdir), Hc.
  cbn [negb]. rewrite (after_makedirs_dir _ _ Hdir).
  rewrite <- (load_index_complete rt cache_dir st1 Hrag Hc).
  rewrite (load_index_present rt cache_dir st1 arrays x ix kv _ _ _ n
             Hrag He Hx Hi Hm Hq Ha Hs Hn).
  eexists. split; [reflexivity |]. cbn [self fs log].
  split; [| split; reflexivity].
  unfold loaded. rewrite <- Hemb, <- Hix. apply store_eta.
Qed.

End BuildTwice.

Lemma build_index_twice_witness :
  exists st2,
    build_index demo_runtime "policies.jsonl" "vector_index" engine_two_records = (Ok tt, st2)
    /\ self st2 = self engine_two_records
    /\ fs st2 = fs engine_two_records
    /\ log st2 = log engine_two_records
                 ++ [EvPrint; EvRead (embeddings_file "vector_index");
                     EvRead (index_file "vector_index");
                     EvRead (metadata_file "vector_index"); EvPrint].
Proof.
  apply (build_index_twice demo_runtime "policies.jsonl" "vector_index"
           (start fs_two_records) engine_two_records).
  vm_compute. reflexivity.
Defined.

(** ** The length of the context string *)

Section ContextLength.
Context {F : Type} `{Arith F}.
Variable rt : Runtime F.

Lemma total_length_nonneg (parts : list string) : 0 <= total_length parts.
Proof.
  unfold total_length. induction parts as [|p parts IH]; cbn [fold_right]; lia.
Qed.

(** [sep.join(parts)] has the characters of the parts and one separator
    between two of them. *)
Lemma str_join_length (sep : string) (parts : list string) :
  Z.of_nat (String.length (str_join sep parts))
  = total_length parts
    + Z.of_nat (String.length sep) * Z.of_nat (Nat.pred (length parts)).
Proof.
  induction parts as [|p parts IH]; [cbn; lia |].
  destruct parts as [|p' parts].
  - cbn. lia.
  - change (str_join sep (p :: p' :: parts))
      with (p +:+ sep +:+ str_join sep (p' :: parts)).
    rewrite !append_length, !Nat2Z.inj_add, IH.
    cbn [total_length fold_right length Nat.pred]. unfold total_length.
    cbn [fold_right]. lia.
Qed.

(** An entry has the 16 characters of its labels and line breaks, and the
    three texts. *)
Lemma format_entry_length (r : result F) :
  16 <= Z.of_nat (String.length (format_entry rt r)).
Proof.
  unfold format_entry. rewrite !append_length. cbn [String.length nl]. lia.
Qed.


End ContextLength.

(** On the two-record corpus, with a limit of exactly the two entries, the
    string returned is two characters longer than the limit. *)
Lemma get_context_exceeds_limit :
  exists out,
    fst (get_context_for_query demo_runtime "pet" 138 2 engine_two_records) = Ok out
    /\ Z.of_nat (String.length out) = 138 + 2.
Proof. eexists. split; vm_compute; reflexivity. Qed.

(** ** The conversation window *)

Section ConversationWindow.
Import context_manager.

Lemma str_append_assoc (a b c : string) : (a +:+ b) +:+ c = a +:+ (b +:+ c).
Proof.
  induction a as [|x a IH]; [reflexivity |].
  change (String x ((a +:+ b) +:+ c) = String x (a +:+ (b +:+ c))). now rewrite IH.
Qed.

Lemma get_context_fold (turns : list (string * string)) :
  forall acc,
    fold_left (fun context_str turn => context_str +:+ format_turn turn) turns acc
    = acc +:+ fold_right (fun turn rest => format_turn turn +:+ rest) "" turns.
Proof.
  induction turns as [|t turns IH]; intros acc; cbn [fold_left fold_right].
  - induction acc as [|c acc IHa]; [reflexivity |].
    change (String c acc = String c (acc +:+ "")). now rewrite <- IHa.
  - rewrite IH. apply str_append_assoc.
Qed.

Lemma tl_drop {A} (l : list A) : forall m, tl (drop m l) = drop (S m) l.
Proof.
  induction l as [|x l IH]; intros [|m]; try reflexivity. apply (IH m).
Qed.

(** One call of [add_turn] on a window that holds the last [max_history]
    of the turns seen so far. *)
Lemma add_turn_window (n : Z) (seen : list (string * string)) (u b : string) :
  add_turn (mk_ContextManager n (skipn (length seen - Z.to_nat n) seen)) u b
  = mk_ContextManager n
      (skipn (length (seen ++ [(u, b)]) - Z.to_nat n) (seen ++ [(u, b)])).
Proof.
  unfold add_turn. cbn [history max_history].
  rewrite !length_app, length_skipn. cbn [length].
  destruct (Z.gtb_spec (Z.of_nat (length seen - (length seen - Z.to_nat n) + 1)) n)
    as [Hgt | Hle]; f_equal.
  - assert (Hfull : (Z.to_nat n <= length seen)%nat) by lia.
    replace (length seen + 1 - Z.to_nat n)%nat with (S (length seen - Z.to_nat n)) by lia.
    rewrite <- (drop_app_le seen [(u, b)]) by lia.
    apply tl_drop.
  - assert (Hroom : (length seen + 1 <= Z.to_nat n)%nat) by lia.
    replace (length seen - Z.to_nat n)%nat with 0%nat by lia.
    replace (length seen + 1 - Z.to_nat n)%nat with 0%nat by lia.
    reflexivity.
Qed.

(** X13. A [ContextManager] keeps a window: after any sequence of
    [add_turn] on a fresh manager the history is the last [max_history]
    turns, in order (none at all when [max_history <= 0]), and
    [get_context] is the concatenation of their two-line renderings. *)
Theorem history_is_a_window (n : Z) (turns : list (string * string)) :
  history (add_turns (__init__ n) turns) = skipn (length turns - Z.to_nat n) turns
  /\ max_history (add_turns (__init__ n) turns) = n
  /\ (length (history (add_turns (__init__ n) turns)) <= Z.to_nat n)%nat
  /\ get_context (add_turns (__init__ n) turns)
     = fold_right (fun turn rest => format_turn turn +:+ rest) ""
         (skipn (length turns - Z.to_nat n) turns).
Proof.
  assert (Hrun : add_turns (__init__ n) turns
                 = mk_ContextManager n (skipn (length turns - Z.to_nat n) turns)).
  { assert (Hgen : forall seen,
              add_turns (mk_ContextManager n (skipn (length seen - Z.to_nat n) seen)) turns
              = mk_ContextManager n
                  (skipn (length (seen ++ turns) - Z.to_nat n) (seen ++ turns))).
    { unfold add_turns.
      induction turns as [|[u b] turns IH]; intros seen; cbn [fold_left fst snd].
      - now rewrite app_nil_r.
      - rewrite add_turn_window, IH, <- app_assoc. reflexivity. }
    apply (Hgen []). }
  rewrite Hrun. cbn [history max_history]. split; [reflexivity |].
  split; [reflexivity |]. split.
  - rewrite length_skipn. lia.
  - unfold get_context. cbn [history]. now rewrite get_context_fold.
Qed.

End ConversationWindow.

(** ** From [policies.json] to the index *)

Section Conversion.
Import convert_to_jsonl.
Context {F : Type} `{Arith F}.
Variable json_dumps : json -> string.
Variable items : gmap string json -> list (string * json).

Lemma with_text_again (st : state F) (out : string) (l1 l2 : list string) :
  with_text (with_text st out l1) out l2 = with_text st out l2.
Proof. unfold with_text. cbn [self fs log]. now rewrite insert_insert_eq. Qed.

Lemma text_at_with_text (st : state F) (out : string) (lines : list string) :
  text_at (fs (with_text st out lines)) out = lines.
Proof. unfold text_at, with_text. cbn [fs]. now rewrite lookup_insert_eq. Qed.

Lemma out_write_run (out text : string) (st : state F) :
  out_write out text st = (Ok tt, with_text st out (text_at (fs st) out ++ [text])).
Proof. reflexivity. Qed.

Lemma write_items_run (out section : string) (content : list json) :
  forall (st : state F) (lines : list string),
    write_items json_dumps out section content (with_text st out lines)
    = (Ok tt, with_text st out
                (lines ++ jsonl_lines json_dumps (flat_map (item_records section) content))).
Proof.
  induction content as [|item content IH]; intros st lines;
    cbn [write_items flat_map jsonl_lines map].
  - now rewrite app_nil_r.
  - unfold bind.
    assert (Hskip : write_items json_dumps out section content (with_text st out lines)
                    = (Ok tt, with_text st out
                                (lines ++ jsonl_lines json_dumps
                                            ([] ++ flat_map (item_records section) content))))
      by apply IH.
    destruct item as [| | | | |kv]; cbn [item_records ret]; try exact Hskip.
    destruct (kv !! "question") as [q|]; [| exact Hskip].
    destruct (kv !! "answer") as [a|]; [| exact Hskip].
    rewrite out_write_run, text_at_with_text, with_text_again, IH.
    unfold jsonl_lines. cbn [app map]. now rewrite <- app_assoc.
Qed.

Lemma write_sections_run (out : string) (policies : list (string * json)) :
  forall (st : state F) (lines : list string),
    write_sections json_dumps out policies (with_text st out lines)
    = (Ok tt, with_text st out (lines ++ jsonl_lines json_dumps (records policies))).
Proof.
  induction policies as [|[section content] policies IH]; intros st lines;
    cbn [write_sections records flat_map fst snd].
  - unfold jsonl_lines. cbn. now rewrite app_nil_r.
  - unfold bind. fold (records policies).
    assert (Hskip : write_sections json_dumps out policies (with_text st out lines)
                    = (Ok tt, with_text st out
                                (lines ++ jsonl_lines json_dumps ([] ++ records policies))))
      by apply IH.
    destruct content as [| | |s|l|]; cbn [content_records ret]; try exact Hskip.
    + destruct (negb (String.eqb (strip s) "")); [| exact Hskip].
      rewrite out_write_run, text_at_with_text, with_text_again, IH.
      unfold jsonl_lines. cbn [app map]. now rewrite <- app_assoc.
    + rewrite write_items_run, IH. unfold jsonl_lines.
      now rewrite map_app, app_assoc.
Qed.

(** Every record written is one that [build_index] indexes, and carries
    the name of its section. *)
Lemma records_usable (policies : list (string * json)) :
  Forall (fun r => usable r = true
                   /\ exists section, section_of r = JStr section
                                      /\ In section (map fst policies))
    (records policies).
Proof.
  assert (Hrec : forall section q a,
            usable (record section q a) = true
            /\ section_of (record section q a) = JStr section).
  { intros section q a. split; reflexivity. }
  unfold records. apply Forall_flat_map, Forall_forall.
  intros [section content] Hin. cbn [fst snd].
  assert (Hsec : In section (map fst policies)).
  { apply in_map_iff. exists (section, content). split; [reflexivity |].
    now apply list_elem_of_In. }
  destruct content as [| | |s|l|]; cbn [content_records]; try constructor.
  - destruct (negb (String.eqb (strip s) "")); constructor; [| constructor].
    split; [reflexivity | exists section; split; [reflexivity | exact Hsec]].
  - apply Forall_flat_map, Forall_forall. intros item _.
    destruct item as [| | | | |kv]; cbn [item_records]; try constructor.
    destruct (kv !! "question"); [| constructor].
    destruct (kv !! "answer"); constructor; [| constructor].
    split; [reflexivity | exists section; split; [reflexivity | exact Hsec]].
Qed.

Lemma convert_run (input_file output_file : string) (st : state F) (kv : gmap string json) :
  fs st !! input_file = Some (JsonFile (JObj kv)) ->
  is_dir (fs st) output_file = false ->
  convert_policies_to_jsonl json_dumps items input_file output_file st
  = (Ok tt,
     mk_state (self st)
       (<[ output_file := TextFile (jsonl_lines json_dumps (records (items kv))) ]> (fs st))
       (log st ++ [EvRead input_file; EvWrite output_file; EvPrint])).
Proof.
  intros Hin Hout.
  unfold convert_policies_to_jsonl, json_load.
  unfold bind at 1. unfold bind at 1. unfold open_read. rewrite Hin. cbn [ret].
  unfold bind at 1. rewrite write_file_run. cbn [fs self log]. rewrite Hout.
  unfold bind at 1.
  change (mk_state (self st) (<[ output_file := TextFile [] ]> (fs st))
            ((log st ++ [EvRead input_file]) ++ [EvWrite output_file]))
    with (with_text (mk_state (self st) (fs st)
                       ((log st ++ [EvRead input_file]) ++ [EvWrite output_file]))
            output_file []).
  rewrite write_sections_run. unfold with_text, print, emit. cbn [self fs log app].
  now rewrite <- !app_assoc.
Qed.


(** X15. When it fails, the script has either touched nothing (the input
    is missing) or, when the input holds a JSON value that is not an
    object, already emptied the output file. *)
Theorem convert_failures (input_file output_file : string) (st : state F) :
  (fs st !! input_file = None ->
   convert_policies_to_jsonl json_dumps items input_file output_file st
   = (Raise FileNotFoundError, st))
  /\ (forall doc,
        fs st !! input_file = Some (JsonFile doc) ->
        is_object doc = false ->
        is_dir (fs st) output_file = false ->
        convert_policies_to_jsonl json_dumps items input_file output_file st
        = (Raise AttributeError,
           mk_state (self st) (<[ output_file := TextFile [] ]> (fs st))
             (log st ++ [EvRead input_file; EvWrite output_file]))).
Proof.
  split.
  - intros Hin. unfold convert_policies_to_jsonl, json_load, bind, open_read.
    now rewrite Hin.
  - intros doc Hin Hobj Hout.
    unfold convert_policies_to_jsonl, json_load.
    unfold bind at 1. unfold bind at 1. unfold open_read. rewrite Hin. cbn [ret].
    unfold bind at 1. rewrite write_file_run. cbn [fs self log]. rewrite Hout.
    rewrite <- app_assoc.
    destruct doc; try reflexivity. discriminate.
Qed.

Lemma filter_all {A} (p : A -> bool) (l : list A) :
  Forall (fun a => p a = true) l -> List.filter p l = l.
Proof.
  induction 1 as [|a l Ha _ IH]; cbn; [reflexivity |]. now rewrite Ha, IH.
Qed.

(** The lines written decode to the records, when [json.loads] undoes
    [json.dumps] on them. *)
Lemma parse_jsonl_lines (rt : Runtime F) (rs : list json) :
  Forall (fun r => strip (json_dumps r +:+ nl) <> ""
                   /\ json_loads rt (strip (json_dumps r +:+ nl)) = Some r) rs ->
  parse_lines rt (jsonl_lines json_dumps rs) [] = Ok rs.
Proof.
  intros Hrs. rewrite parse_lines_decode.
  assert (Hdec : decode_lines rt (corpus_lines (jsonl_lines json_dumps rs)) = Ok rs).
  { apply decode_lines_ok. unfold corpus_lines, jsonl_lines.
    induction Hrs as [|r rs [Hne Hload] _ IH]; cbn [map List.filter]; [constructor |].
    apply String.eqb_neq in Hne. rewrite Hne. cbn [negb]. now constructor. }
  now rewrite Hdec.
Qed.


End Conversion.



(** ** The vector store of a [ResponseGenerator] *)

Section GeneratorInit.
Import response_generator.
Context {F : Type} `{Arith F}.
Variable rt : Runtime F.
Variable _HAVE_RAG : bool.

Lemma load_index_ok_inv (cache_dir : string) (st st' : state F) :
  load_index rt cache_dir st = (Ok tt, st') ->
  HAVE_RAG rt = true /\ fs st' = fs st /\ exists ix, index (self st') = Some ix.
Proof.
  intros E.
  assert (Hrag : HAVE_RAG rt = true).
  { unfold load_index, bind, _ensure_rag_available in E.
    destruct (HAVE_RAG rt); [reflexivity | discriminate]. }
  destruct (cache_complete (fs st) cache_dir) eqn:Hc.
  - rewrite (load_index_complete rt _ _ Hrag Hc) in E.
    apply cached_branch_inv in E
      as (arrays & x & ix & kv & q & a & sec & n & _ & _ & _ & _ & _ & _ & _ & _ & Hs & Hfs).
    split; [exact Hrag |]. split; [exact Hfs |]. exists ix. now rewrite Hs.
  - rewrite (load_index_missing rt _ _ Hrag Hc) in E. discriminate.
Qed.

(** The body of the [try], by the branch it takes. *)
Lemma try_vector_store_run (policies_jsonl index_dir : string) (st : state F) :
  try_vector_store rt policies_jsonl index_dir st =
    if negb (HAVE_RAG rt) then (Raise ImportError, st)
    else
      let fresh := mk_store default_model_name None None (JArr []) (JArr []) (JArr []) None in
      if file_exists (fs st) index_dir then
        match load_index rt index_dir (mk_state fresh (fs st) (log st)) with
        | (Ok _, st1) => (Ok (Some (self st1)), mk_state (self st1) (fs st1) (log st1 ++ [EvPrint]))
        | (Raise e, st1) => (Raise e, st1)
        end
      else if file_exists (fs st) policies_jsonl then
        match build_index rt policies_jsonl index_dir
                (mk_state fresh (fs st) (log st ++ [EvPrint])) with
        | (Ok _, st1) => (Ok (Some (self st1)), mk_state (self st1) (fs st1) (log st1 ++ [EvPrint]))
        | (Raise e, st1) => (Raise e, st1)
        end
      else (Ok None, mk_state fresh (fs st) (log st ++ [EvPrint])).
Proof.
  unfold try_vector_store, __init__.
  destruct (HAVE_RAG rt); [| reflexivity]. cbn [negb].
  unfold bind at 1, lift at 1. unfold bind at 1, set_self at 1. cbn [self fs log].
  unfold bind at 1, path_exists at 1. cbn [fs]. fold (file_exists (fs st) index_dir).
  destruct (file_exists (fs st) index_dir).
  - unfold bind at 1.
    destruct (load_index rt index_dir _) as [[[]|e] st1]; reflexivity.
  - unfold bind at 1, path_exists at 1. cbn [fs]. fold (file_exists (fs st) policies_jsonl).
    destruct (file_exists (fs st) policies_jsonl); [| reflexivity].
    unfold bind at 1, print at 1, emit at 1. cbn [self fs log].
    unfold bind at 1.
    destruct (build_index rt policies_jsonl index_dir _) as [[[]|e] st1]; reflexivity.
Qed.

(** X17. The constructor never fails on the vector store: it ends with
    [self.vector_store] set or [None]; and when it is set, both flags
    [_HAVE_RAG] hold and the index of the store is loaded. *)
Theorem init_vector_store_total (policies_jsonl index_dir : string) (st : state F) :
  exists vector_store st',
    init_vector_store rt _HAVE_RAG policies_jsonl index_dir st = (Ok vector_store, st')
    /\ forall store, vector_store = Some store ->
         store = self st'
         /\ index store <> None
         /\ _HAVE_RAG = true /\ HAVE_RAG rt = true.
Proof.
  unfold init_vector_store.
  destruct _HAVE_RAG; [| eexists _, _; split; [reflexivity | discriminate]].
  unfold bind, try_. rewrite try_vector_store_run.
  destruct (HAVE_RAG rt); cbn [negb];
    [| eexists _, _; split; [reflexivity | discriminate]].
  cbv zeta. destruct (file_exists (fs st) index_dir).
  - destruct (load_index rt index_dir _) as [[[]|e] st1] eqn:E;
      [| eexists _, _; split; [reflexivity | discriminate]].
    apply load_index_ok_inv in E as (_ & _ & ix & Hix).
    eexists _, _. split; [reflexivity |]. intros store [= <-]. cbn [self].
    rewrite Hix. repeat split; congruence.
  - destruct (file_exists (fs st) policies_jsonl);
      [| eexists _, _; split; [reflexivity | discriminate]].
    destruct (build_index rt policies_jsonl index_dir _) as [[[]|e] st1] eqn:E;
      [| eexists _, _; split; [reflexivity | discriminate]].
    apply build_index_leaves_cache in E
      as (? & ? & ix & ? & ? & _ & _ & _ & _ & _ & _ & _ & _ & _ & Hix).
    eexists _, _. split; [reflexivity |]. intros store [= <-]. cbn [self].
    rewrite Hix. repeat split; congruence.
Qed.

(** X18. An index directory that exists but does not hold the three
    artifacts disables retrieval: the constructor tries [load_index] only,
    and leaves [self.vector_store] at [None] without building anything,
    whether or not [policies_jsonl] is there. *)
Theorem incomplete_index_dir_disables_rag (policies_jsonl index_dir : string)
    (st : state F) :
  file_exists (fs st) index_dir = true ->
  cache_complete (fs st) index_dir = false ->
  exists st' evs,
    init_vector_store rt _HAVE_RAG policies_jsonl index_dir st = (Ok None, st')
    /\ fs st' = fs st
    /\ log st' = log st ++ evs
    /\ Forall (fun e => e = EvPrint) evs.
Proof.
  intros Hdir Hc. unfold init_vector_store.
  destruct _HAVE_RAG;
    [| exists st, []; rewrite app_nil_r; repeat split; constructor].
  unfold bind, try_. rewrite try_vector_store_run.
  destruct (HAVE_RAG rt) eqn:Hrag; cbn [negb].
  - cbv zeta. rewrite Hdir.
    rewrite (load_index_missing rt index_dir _ Hrag) by exact Hc.
    eexists _, [EvPrint]. cbn. repeat split; repeat constructor.
  - eexists _, [EvPrint]. cbn. repeat split; repeat constructor.
Qed.


End GeneratorInit.

Lemma incomplete_index_dir_disables_rag_witness :
  exists st' evs,
    response_generator.init_vector_store demo_runtime true "policies.jsonl" "vector_index"
      (start fs_without_metadata)
    = (Ok None, st')
    /\ fs st' = fs (start fs_without_metadata)
    /\ log st' = log (start fs_without_metadata) ++ evs
    /\ Forall (fun e => e = EvPrint) evs.
Proof.
  apply (incomplete_index_dir_disables_rag demo_runtime true "policies.jsonl"
           "vector_index" (start fs_without_metadata)); vm_compute; reflexivity.
Defined.


(** ** [clean_text] *)

Section CleanText.
Import preprocessor.

Lemma to_lower_clean (c : ascii) :
  is_space c = false -> is_word (to_lower c) = true -> is_clean_char (to_lower c) = true.
Proof.
  destruct c as [[] [] [] [] [] [] [] []]; vm_compute; congruence.
Qed.

Lemma is_space_to_lower (c : ascii) : is_space (to_lower c) = is_space c.
Proof. destruct c as [[] [] [] [] [] [] [] []]; vm_compute; congruence. Qed.

Lemma to_lower_lower (c : ascii) : is_upper (to_lower c) = false.
Proof. destruct c as [[] [] [] [] [] [] [] []]; vm_compute; congruence. Qed.

Lemma all_chars_lstrip P s : all_chars P s -> all_chars P (lstrip s).
Proof.
  unfold all_chars. induction s as [|c s IH]; cbn [lstrip]; [auto |].
  intros Hs. destruct (is_space c); [| exact Hs].
  apply IH. cbn in Hs. now apply Forall_cons in Hs as [_ Hs].
Qed.

Lemma all_chars_rstrip P s : all_chars P s -> all_chars P (rstrip s).
Proof.
  unfold all_chars. induction s as [|c s IH]; cbn [rstrip]; [auto |].
  intros Hs. cbn in Hs. apply Forall_cons in Hs as [Hc Hs]. specialize (IH Hs).
  destruct (rstrip s) as [|c' r].
  - destruct (is_space c); cbn; repeat constructor; exact Hc.
  - cbn. constructor; [exact Hc | exact IH].
Qed.

Lemma all_chars_lower s : all_chars (fun c => is_upper c = false) (lower s).
Proof.
  unfold all_chars. induction s as [|c s IH]; cbn; constructor; [apply to_lower_lower | exact IH].
Qed.

Lemma sub_spaces_chars (P : ascii -> Prop) (s : string) :
  forall in_run,
    all_chars P s ->
    all_chars (fun c => c = " "%char \/ (is_space c = false /\ P c)) (sub_spaces in_run s).
Proof.
  unfold all_chars. induction s as [|c s IH]; intros in_run Hs; cbn [sub_spaces].
  - constructor.
  - cbn in Hs. apply Forall_cons in Hs as [Hc Hs].
    destruct (is_space c) eqn:Ec.
    + destruct in_run; [now apply IH |]. cbn. constructor; [now left | now apply IH].
    + cbn. constructor; [right; split; assumption | now apply IH].
Qed.

Lemma sub_punctuation_chars (P : ascii -> Prop) (s : string) :
  all_chars P s ->
  all_chars (fun c => P c /\ (is_word c || is_space c) = true) (sub_punctuation s).
Proof.
  unfold all_chars. induction s as [|c s IH]; intros Hs; cbn [sub_punctuation].
  - constructor.
  - cbn in Hs. apply Forall_cons in Hs as [Hc Hs].
    destruct (is_word c || is_space c) eqn:Ec; [| now apply IH].
    cbn. constructor; [split; assumption | now apply IH].
Qed.

Lemma lstrip_length s : (String.length (lstrip s) <= String.length s)%nat.
Proof.
  induction s as [|c s IH]; cbn [lstrip]; [lia |].
  destruct (is_space c); cbn [String.length]; lia.
Qed.

Lemma rstrip_length s : (String.length (rstrip s) <= String.length s)%nat.
Proof.
  induction s as [|c s IH]; cbn [rstrip]; [lia |].
  destruct (rstrip s) as [|c' r]; [destruct (is_space c) |]; cbn [String.length] in *; lia.
Qed.

Lemma lower_length s : String.length (lower s) = String.length s.
Proof. induction s as [|c s IH]; cbn; [reflexivity | now rewrite IH]. Qed.

Lemma sub_spaces_length s :
  forall in_run, (String.length (sub_spaces in_run s) <= String.length s)%nat.
Proof.
  induction s as [|c s IH]; intros in_run; cbn [sub_spaces]; [lia |].
  destruct (is_space c); [destruct in_run |]; cbn [String.length];
    first [ specialize (IH true); lia | specialize (IH false); lia ].
Qed.

Lemma sub_punctuation_length s :
  (String.length (sub_punctuation s) <= String.length s)%nat.
Proof.
  induction s as [|c s IH]; cbn [sub_punctuation]; [lia |].
  destruct (is_word c || is_space c); cbn [String.length]; lia.
Qed.

(** The characters of [lower text], once stripped and with the runs of
    whitespace replaced. *)
Lemma spaced_chars (text : string) :
  all_chars (fun c => c = " "%char \/ (is_space c = false /\ exists c0, c = to_lower c0))
    (sub_spaces false (strip (lower text))).
Proof.
  apply sub_spaces_chars. unfold strip. apply all_chars_rstrip, all_chars_lstrip.
  unfold all_chars. induction text as [|c s IH]; cbn; constructor; [eauto | exact IH].
Qed.

Lemma clean_text_alphabet_chars (text : string) :
  all_chars (fun c => is_clean_char c = true) (clean_text text)
  /\ (String.length (clean_text text) <= String.length text)%nat.
Proof.
  unfold clean_text. split.
  - pose proof (sub_punctuation_chars _ _ (spaced_chars text)) as Hc.
    unfold all_chars in *. eapply Forall_impl; [exact Hc |]. cbn beta.
    intros c [[-> | [Hsp [c0 ->]]] Hkeep]; [reflexivity |].
    apply to_lower_clean.
    + now rewrite is_space_to_lower in Hsp.
    + rewrite Hsp, orb_false_r in Hkeep. exact Hkeep.
  - pose proof (sub_punctuation_length (sub_spaces false (strip (lower text)))).
    pose proof (sub_spaces_length (strip (lower text)) false).
    pose proof (rstrip_length (lstrip (lower text))).
    pose proof (lstrip_length (lower text)).
    pose proof (lower_length text). unfold strip in *. lia.
Qed.

(** X20. On ASCII text, [clean_text] returns lower-case letters, digits,
    underscores and spaces only, and never more characters than it was
    given. *)
Theorem clean_text_alphabet (text : string) :
  is_ascii_text text = true ->
  all_chars (fun c => is_clean_char c = true) (clean_text text)
  /\ (String.length (clean_text text) <= String.length text)%nat.
Proof. intros _. apply clean_text_alphabet_chars. Qed.

(** *** A second pass *)

Lemma clean_char_fixed (c : ascii) :
  is_clean_char c = true -> to_lower c = c /\ (is_word c || is_space c) = true.
Proof. destruct c as [[] [] [] [] [] [] [] []]; vm_compute; intuition congruence. Qed.

Lemma lower_clean (s : string) :
  all_chars (fun c => is_clean_char c = true) s -> lower s = s.
Proof.
  unfold all_chars. induction s as [|c s IH]; cbn; [reflexivity |].
  intros Hs. apply Forall_cons in Hs as [Hc Hs].
  destruct (clean_char_fixed c Hc) as [-> _]. now rewrite IH.
Qed.

Lemma sub_punctuation_kept (s : string) :
  all_chars (fun c => (is_word c || is_space c) = true) s -> sub_punctuation s = s.
Proof.
  unfold all_chars. induction s as [|c s IH]; cbn; [reflexivity |].
  intros Hs. apply Forall_cons in Hs as [-> Hs]. now rewrite IH.
Qed.

Lemma sub_spaces_twice (s : string) :
  forall r1 r2, (r1 = true -> r2 = true) ->
    sub_spaces r1 (sub_spaces r2 s) = sub_spaces r2 s.
Proof.
  induction s as [|c s IH]; intros r1 r2 Hr; cbn [sub_spaces]; [reflexivity |].
  destruct (is_space c) eqn:Ec.
  - destruct r2.
    + now apply IH.
    + cbn [sub_spaces]. change (is_space " "%char) with true. cbn iota.
      destruct r1; [now discriminate Hr |]. now rewrite IH.
  - cbn [sub_spaces]. rewrite Ec. now rewrite IH.
Qed.

Lemma last_char_cons (c : ascii) (s : string) (x : ascii) :
  last_char s = Some x -> last_char (String c s) = Some x.
Proof. destruct s; [discriminate | auto]. Qed.

Lemma lstrip_head (s : string) (c : ascii) (s' : string) :
  lstrip s = String c s' -> is_space c = false.
Proof.
  induction s as [|c0 s IH]; cbn [lstrip]; [discriminate |].
  destruct (is_space c0) eqn:E0; [exact IH |]. now intros [= <- _].
Qed.

Lemma rstrip_last (s : string) (c : ascii) :
  last_char (rstrip s) = Some c -> is_space c = false.
Proof.
  induction s as [|c0 s IH]; cbn [rstrip]; [discriminate |].
  destruct (rstrip s) as [|c1 r] eqn:Er.
  - destruct (is_space c0) eqn:E0; [discriminate |]. now intros [= <-].
  - intros Hl. apply IH. exact Hl.
Qed.

Lemma rstrip_head (s : string) (c : ascii) (s' : string) :
  (forall c1 s1, s = String c1 s1 -> is_space c1 = false) ->
  rstrip s = String c s' -> is_space c = false.
Proof.
  destruct s as [|c0 s]; cbn [rstrip]; [discriminate |].
  intros Hhead. specialize (Hhead c0 s eq_refl).
  destruct (rstrip s); [rewrite Hhead |]; now intros [= <- _].
Qed.

Lemma strip_trimmed (s : string) : trimmed (strip s).
Proof.
  unfold trimmed, strip. split.
  - intros c s' E. eapply rstrip_head; [| exact E]. intros c1 s1. apply lstrip_head.
  - apply rstrip_last.
Qed.

Lemma rstrip_fixed (s : string) :
  (forall c, last_char s = Some c -> is_space c = false) -> rstrip s = s.
Proof.
  induction s as [|c s IH]; cbn [rstrip]; [reflexivity |]. intros Hl.
  destruct s as [|c' s'].
  - cbn. now rewrite (Hl c eq_refl).
  - rewrite IH by (intros x Hx; apply Hl; exact Hx). reflexivity.
Qed.

Lemma strip_fixed (s : string) : trimmed s -> strip s = s.
Proof.
  intros [Hhead Hlast]. unfold strip.
  assert (Hl : lstrip s = s).
  { destruct s as [|c s']; [reflexivity |]. cbn. now rewrite (Hhead c s' eq_refl). }
  rewrite Hl. now apply rstrip_fixed.
Qed.

Lemma last_char_None (s : string) : last_char s = None -> s = "".
Proof.
  induction s as [|c s IH]; [reflexivity |]. destruct s as [|c' s']; [discriminate |].
  intros Hl. discriminate (IH Hl).
Qed.

Lemma sub_spaces_last (s : string) :
  forall r c, last_char s = Some c -> is_space c = false ->
    last_char (sub_spaces r s) = Some c.
Proof.
  induction s as [|c0 s IH]; intros r c Hl Hc; [discriminate |].
  destruct (last_char s) as [x|] eqn:Ex.
  - rewrite (last_char_cons c0 s x Ex) in Hl. injection Hl as ->.
    cbn [sub_spaces]. destruct (is_space c0).
    + destruct r; [now apply IH |]. apply last_char_cons. now apply IH.
    + apply last_char_cons. now apply IH.
  - apply last_char_None in Ex. subst s. injection Hl as ->.
    cbn [sub_spaces]. now rewrite Hc.
Qed.

Lemma sub_spaces_trimmed (s : string) : trimmed s -> trimmed (sub_spaces false s).
Proof.
  intros [Hhead Hlast]. split.
  - intros c s' E. destruct s as [|c0 s0]; [discriminate |].
    cbn [sub_spaces] in E. rewrite (Hhead c0 s0 eq_refl) in E.
    injection E as <- _. now apply (Hhead c0 s0).
  - intros c Hc. destruct (last_char s) as [x|] eqn:Ex.
    + rewrite (sub_spaces_last s false x Ex (Hlast x eq_refl)) in Hc.
      injection Hc as <-. now apply Hlast.
    + apply last_char_None in Ex. subst s. discriminate Hc.
Qed.

(** Stripping and replacing the runs of whitespace, done twice, is done
    once. *)
Lemma spacing_twice (s : string) :
  sub_spaces false (strip (sub_spaces false (strip s))) = sub_spaces false (strip s).
Proof.
  rewrite (strip_fixed (sub_spaces false (strip s)))
    by apply sub_spaces_trimmed, strip_trimmed.
  now apply sub_spaces_twice.
Qed.

(** On a text of clean characters [clean_text] only strips and replaces
    the runs of spaces. *)
Lemma clean_text_on_clean (s : string) :
  all_chars (fun c => is_clean_char c = true) s ->
  clean_text s = sub_spaces false (strip s).
Proof.
  intros Hs. unfold clean_text. rewrite (lower_clean s Hs).
  apply sub_punctuation_kept.
  assert (Hn : all_chars (fun c => c = " "%char \/ (is_space c = false /\ is_clean_char c = true))
                 (sub_spaces false (strip s))).
  { apply sub_spaces_chars. unfold strip. now apply all_chars_rstrip, all_chars_lstrip. }
  unfold all_chars in *. eapply Forall_impl; [exact Hn |]. cbn beta.
  intros c [-> | [_ Hc]]; [reflexivity |]. now apply clean_char_fixed.
Qed.

(** X21. One pass of [clean_text] is not a normal form: removing
    punctuation after the runs of whitespace were replaced can leave two
    spaces in a row, or a space at an end.  On ASCII text a second pass
    reaches the normal form: a third one changes nothing. *)
Theorem clean_text_second_pass (text : string) :
  is_ascii_text text = true ->
  clean_text (clean_text (clean_text text)) = clean_text (clean_text text)
  /\ trimmed (clean_text (clean_text text))
  /\ clean_text "a ! b" = "a  b"
  /\ clean_text (clean_text "a ! b") = "a b".
Proof.
  intros Hascii.
  destruct (clean_text_alphabet_chars text) as [Hc _].
  assert (Hsecond : clean_text (clean_text text)
                    = sub_spaces false (strip (clean_text text)))
    by now apply clean_text_on_clean.
  assert (Hc2 : all_chars (fun c => is_clean_char c = true) (clean_text (clean_text text))).
  { rewrite Hsecond.
    assert (Hn : all_chars (fun c => c = " "%char
                                     \/ (is_space c = false /\ is_clean_char c = true))
                   (sub_spaces false (strip (clean_text text)))).
    { apply sub_spaces_chars. unfold strip. now apply all_chars_rstrip, all_chars_lstrip. }
    unfold all_chars in *. eapply Forall_impl; [exact Hn |]. cbn beta.
    intros c [-> | [_ Hcc]]; [reflexivity | exact Hcc]. }
  split; [| split; [| split; vm_compute; reflexivity]].
  - rewrite (clean_text_on_clean _ Hc2). rewrite Hsecond at 1 2. apply spacing_twice.
  - rewrite Hsecond. apply sub_spaces_trimmed, strip_trimmed.
Qed.

End CleanText.

Lemma clean_text_alphabet_witness :
  preprocessor.clean_text "  Can I bring   my Pet?! " = "can i bring my pet"
  /\ all_chars (fun c => preprocessor.is_clean_char c = true)
       (preprocessor.clean_text "  Can I bring   my Pet?! ")
  /\ (String.length (preprocessor.clean_text "  Can I bring   my Pet?! ")
      <= String.length "  Can I bring   my Pet?! ")%nat.
Proof.
  split; [vm_compute; reflexivity |].
  apply (clean_text_alphabet "  Can I bring   my Pet?! "). vm_compute. reflexivity.
Defined.

Lemma clean_text_second_pass_witness :
  preprocessor.clean_text
    (preprocessor.clean_text (preprocessor.clean_text " Pets - and  Bags? "))
  = preprocessor.clean_text (preprocessor.clean_text " Pets - and  Bags? ")
  /\ trimmed (preprocessor.clean_text (preprocessor.clean_text " Pets - and  Bags? ")).
Proof.
  destruct (clean_text_second_pass " Pets - and  Bags? ") as (H3 & Ht & _);
    [vm_compute; reflexivity |].
  split; [exact H3 | exact Ht].
Defined.

(** ** The prompt *)

Section Prompt.
Import response_generator.
Context {F : Type} `{Arith F} `{Threshold F}.
Variable rt : Runtime F.
Variable values : gmap string json -> list json.

Lemma retrieve_adds_only (query : string) (top_k : Z) :
  adds_only (F := F) (fun _ => True) (retrieve rt query top_k).
Proof.
  intros st o st' E. rewrite retrieve_run in E. injection E as _ <-.
  split; [apply after_query_same_data |].
  unfold after_query.
  destruct (index (self st)); [| exists []; now rewrite app_nil_r].
  destruct (model (self st));
    [| destruct (model_available rt (model_name (self st)))];
    eexists; (split; [reflexivity | repeat constructor]).
Qed.

Lemma print_results_adds_only (results : list (result F)) :
  adds_only (F := F) (fun _ => True) (print_results results).
Proof.
  induction results as [|r results IH]; cbn [print_results];
    repeat first [ exact IH | frame_step ]; exact I.
Qed.

Lemma policy_context_adds_only (vector_store : bool) (user_input_clean : string) :
  adds_only (F := F) (fun _ => True) (policy_context rt vector_store user_input_clean).
Proof.
  unfold policy_context, retrieved_context.
  destruct vector_store; [| frame_step].
  apply adds_only_bind.
  - apply adds_only_try.
    repeat first [ apply retrieve_adds_only | apply print_results_adds_only | frame_step ];
      exact I.
  - intros [context|e]; repeat frame_step; exact I.
Qed.

(** [policy_context] always returns: a failure of the retrieval gives the
    empty context. *)
Lemma policy_context_total (vector_store : bool) (user_input_clean : string) (st : state F) :
  exists context, fst (policy_context rt vector_store user_input_clean st) = Ok context.
Proof.
  unfold policy_context. destruct vector_store; [| now exists ""].
  unfold bind, try_.
  destruct (retrieved_context rt user_input_clean st) as [[context|e] st1]; cbn; eauto.
Qed.

Lemma str_values_cases (vs : list json) :
  if forallb is_str vs
  then exists texts, str_values vs = Ok texts
  else str_values vs = Raise TypeError.
Proof.
  induction vs as [|v vs IH]; cbn [forallb str_values]; [eauto |].
  destruct v; cbn [is_str andb]; try reflexivity.
  destruct (forallb is_str vs).
  - destruct IH as [texts ->]. cbn. eauto.
  - now rewrite IH.
Qed.

(** [_build_prompt], by the context the retrieval gave. *)
Lemma build_prompt_run (policies : json) (vector_store : bool)
    (user_input_clean conversation_context : string) (st : state F) :
  _build_prompt rt values policies vector_store user_input_clean conversation_context st =
    match policy_context rt vector_store user_input_clean st with
    | (Ok context, st1) =>
        if negb (String.eqb context "")
        then (Ok (instructions +:+ nl +:+ nl +:+
                  ("Relevant Airline Policies:" +:+ nl +:+ context) +:+ nl +:+ nl +:+
                  conversation_context +:+ "User: " +:+ user_input_clean +:+ nl +:+ "Bot:"),
              st1)
        else
          match policies_text values policies with
          | Ok text =>
              (Ok (instructions +:+ nl +:+ nl +:+
                   ("Airline Policies:" +:+ nl +:+ text) +:+ nl +:+ nl +:+
                   conversation_context +:+ "User: " +:+ user_input_clean +:+ nl +:+ "Bot:"),
               st1)
          | Raise e => (Raise e, st1)
          end
    | (Raise e, st1) => (Raise e, st1)
    end.
Proof.
  unfold _build_prompt, bind, lift, ret.
  destruct (policy_context rt vector_store user_input_clean st) as [[context|e] st1];
    [| reflexivity].
  destruct (negb (String.eqb context "")); [reflexivity |].
  destruct (policies_text values policies); reflexivity.
Qed.

(** X22. [_build_prompt] changes no file.  It needs [self.policies] only
    when the retrieval gave no context (no vector store, a failed
    retrieval, or no entry under distance 2.0); then it joins the values of
    [self.policies], and raises [TypeError] if one of them is not a text, as
    is every section of questions and answers that [convert_to_jsonl]
    reads.  It raises in no other case. *)
Theorem build_prompt_needs_text_policies (kv : gmap string json) (vector_store : bool)
    (user_input_clean conversation_context : string) (st : state F) :
  fs (snd (_build_prompt rt values (JObj kv) vector_store user_input_clean
             conversation_context st)) = fs st
  /\ (forallb is_str (values kv) = true ->
      exists prompt,
        fst (_build_prompt rt values (JObj kv) vector_store user_input_clean
               conversation_context st) = Ok prompt)
  /\ (forall e,
        fst (_build_prompt rt values (JObj kv) vector_store user_input_clean
               conversation_context st) = Raise e ->
        e = TypeError /\ forallb is_str (values kv) = false)
  /\ (vector_store = false -> forallb is_str (values kv) = false ->
      _build_prompt rt values (JObj kv) vector_store user_input_clean
        conversation_context st = (Raise TypeError, st))
  /\ (forall context,
        fst (policy_context rt vector_store user_input_clean st) = Ok context ->
        context <> "" ->
        forall policies,
          exists prompt,
            fst (_build_prompt rt values policies vector_store user_input_clean
                   conversation_context st) = Ok prompt).
Proof.
  pose proof (policy_context_adds_only vector_store user_input_clean st) as Hframe.
  pose proof (str_values_cases (values kv)) as Hvalues.
  assert (Hnone : vector_store = false ->
            policy_context rt vector_store user_input_clean st = (Ok "", st))
    by (now intros ->).
  setoid_rewrite build_prompt_run.
  destruct (policy_context rt vector_store user_input_clean st) as [[context|e0] st1] eqn:E.
  2: { destruct (policy_context_total vector_store user_input_clean st) as [c Hc].
       rewrite E in Hc. discriminate. }
  destruct (Hframe _ _ eq_refl) as [Hfs _]. cbn [fst] in *.
  destruct (String.eqb_spec context "") as [-> | Hne]; cbn [negb].
  - unfold policies_text. destruct (forallb is_str (values kv)).
    + destruct Hvalues as [texts ->]. cbn [obind fst snd].
      split; [exact Hfs |]. split; [eauto |]. split; [intros e He; discriminate He |].
      split; [intros _ Hf; discriminate Hf |].
      intros c [= <-] Hc. now destruct Hc.
    + rewrite Hvalues. cbn [obind fst snd].
      split; [exact Hfs |]. split; [intros Hf; discriminate Hf |].
      split; [now intros e [= <-] |]. split.
      * intros Hv _. specialize (Hnone Hv). now inversion Hnone.
      * intros c [= <-] Hc. now destruct Hc.
  - cbn [fst snd].
    split; [exact Hfs |]. split; [eauto |]. split; [intros e He; discriminate He |]. split.
    + intros Hv _. specialize (Hnone Hv). inversion Hnone. congruence.
    + intros c _ _ policies. eauto.
Qed.

End Prompt.
